(** * yadak-tasklogger-bot: access gate, discovery, approval and job scheduler

    A shallow embedding of the TypeScript sources of the bot
    (grammY handlers over a drizzle/SQLite store) together with the
    properties stated about them.

    Layout
    - [Schema]        : src/db/schema.ts
    - [Runtime]       : the async effects of a handler (store call, Telegram
                        call, console output, [next()]) as a small program
                        monad with an interpreter and a one-step relation
    - [UserQueries]   : src/db/queries/user.ts
    - [GroupQueries]  : src/db/queries/group.ts (unnamed/part_006)
    - [Telegram]      : the part of the grammY [Context] the handlers read
    - [Middleware]    : src/bot/middleware.ts (current gate, users only)
    - [GroupGate]     : unnamed/part_007 (gate with group and user
                        discovery)
    - [Discovery]     : src/bot/handlers/discovery.ts
    - [Admin]         : src/bot/handlers/admin.ts (button panel)
    - [AdminCommands] : src/bot/handlers/admin.ts (slash commands)
    - [Scheduler]     : the job runner described by src/scheduler/README.md
    - [Statements]    : the vocabulary of the theorems
    - [Scenarios]     : concrete stores and events
    - [GroupTable]    : src/db/queries/group.ts (the queries by internal id
                        and the lists)
    - [AdminPanel]    : src/bot/handlers/admin.ts (/admin, /users and the
                        add-user dialogue)
    - [SlashCommands] : src/bot/handlers/admin.ts (the other slash commands
                        on users and groups)
    - [Vocabulary]    : further vocabulary of the theorems
    followed by the theorems. *)

From Stdlib Require Import ZArith Lia Ascii String.
From stdpp Require Import base decidable option list sorting relations.
From stdpp Require Import strings pretty gmap fin_maps.

Local Open Scope Z_scope.
Local Open Scope string_scope.
Local Open Scope list_scope.

(** ** Text helpers *)

(** The line feed of a template literal. *)
Definition nl : string := String (ascii_of_nat 10) EmptyString.

(** The double quote character, as a one-character string. *)
Definition dq : string := String (ascii_of_nat 34) EmptyString.

(** Whether [s] begins with [p]: [s.startsWith(p)], or a match of the
    pattern /^p/. *)
Fixpoint starts_with (p s : string) : bool :=
  match p with
  | EmptyString => true
  | String a p' =>
      match s with
      | String b s' => Ascii.eqb a b && starts_with p' s'
      | EmptyString => false
      end
  end.

(** [s.split(sep)] for a one-character separator. *)
Fixpoint split_on (sep : ascii) (s : string) : list string :=
  match s with
  | EmptyString => [EmptyString]
  | String c rest =>
      if Ascii.eqb c sep then EmptyString :: split_on sep rest
      else match split_on sep rest with
           | piece :: pieces => String c piece :: pieces
           | [] => [String c EmptyString]
           end
  end.

Definition is_space (c : ascii) : bool :=
  let n := nat_of_ascii c in
  (Nat.eqb n 32 || (Nat.leb 9 n && Nat.leb n 13))%bool.

Definition digit_of (c : ascii) : option Z :=
  let n := nat_of_ascii c in
  if (Nat.leb 48 n && Nat.leb n 57)%bool then Some (Z.of_nat n - 48)
  else None.

Fixpoint skip_spaces (s : string) : string :=
  match s with
  | String c rest => if is_space c then skip_spaces rest else s
  | EmptyString => s
  end.

(** The longest run of decimal digits at the front of [s], folded into
    [acc]; [None] when there is no digit at all. *)
Fixpoint leading_digits (acc : option Z) (s : string) : option Z :=
  match s with
  | String c rest =>
      match digit_of c with
      | Some d => leading_digits (Some (10 * default 0 acc + d)) rest
      | None => acc
      end
  | EmptyString => acc
  end.

(** [parseInt(s, 10)]: leading white space is skipped (the ASCII white
    space characters; ids are plain digit strings), one sign is read,
    then the digits up to the first other character. [None] is [NaN].
    Values stay below 2^53 for the ids this is applied to. *)
Definition parseInt (s : string) : option Z :=
  match skip_spaces s with
  | String "-" rest => Z.opp <$> leading_digits None rest
  | String "+" rest => leading_digits None rest
  | t => leading_digits None t
  end.

(** JavaScript truthiness of a [string | undefined] value. *)
Definition truthy (o : option string) : bool :=
  match o with
  | Some s => negb (String.eqb s EmptyString)
  | None => false
  end.

(** [a || b] on a possibly missing string: the first truthy operand. *)
Definition or_else (o : option string) (d : string) : string :=
  match o with
  | Some s => if String.eqb s EmptyString then d else s
  | None => d
  end.

(** ** src/db/schema.ts *)
Module Schema.

(** [StatusEnum] and the [Status] type derived from it. *)
Inductive Status : Type := PENDING | ALLOWED | REJECTED.

Definition StatusEnum (s : Status) : string :=
  match s with
  | PENDING => "pending"
  | ALLOWED => "allowed"
  | REJECTED => "rejected"
  end.

#[global] Instance Status_eq_dec : EqDecision Status.
Proof. solve_decision. Defined.

(** [JobStatusEnum]. *)
Inductive JobStatus : Type := JOB_PENDING | JOB_COMPLETED | JOB_FAILED.

#[global] Instance JobStatus_eq_dec : EqDecision JobStatus.
Proof. solve_decision. Defined.

(** A row of [managed_group]. Timestamps are in seconds since the epoch. *)
Record ManagedGroup : Type := mkGroup {
  group_id : Z;
  group_telegramId : string;
  group_title : string;
  group_status : Status;
  group_createdAt : Z;
  group_updatedAt : Z
}.

(** The insert type of [managed_group]: [status] has a column default. *)
Record NewManagedGroup : Type := mkNewGroup {
  ng_telegramId : string;
  ng_title : string;
  ng_status : option Status
}.

(** A row of [managed_user]. *)
Record ManagedUser : Type := mkUser {
  user_id : Z;
  user_telegramId : string;
  user_name : string;
  user_username : option string;
  user_status : Status;
  user_patToken : option string;
  user_createdAt : Z;
  user_updatedAt : Z
}.

(** The insert type of [managed_user]. *)
Record NewManagedUser : Type := mkNewUser {
  nu_telegramId : string;
  nu_name : string;
  nu_username : option string;
  nu_status : option Status;
  nu_patToken : option string
}.

(** [Partial<NewManagedUser>] as the callers use it: the columns that an
    update may overwrite. No caller patches [telegramId]. *)
Record UserPatch : Type := mkPatch {
  patch_name : option string;
  patch_username : option (option string);
  patch_status : option Status;
  patch_patToken : option (option string)
}.

(** A row of [job]. *)
Record Job : Type := mkJob {
  job_id : Z;
  job_description : string;
  job_payload : option string;
  job_dueAt : Z;
  job_executedAt : option Z;
  job_status : JobStatus;
  job_createdAt : Z
}.

#[global] Instance ManagedUser_eq_dec : EqDecision ManagedUser.
Proof. solve_decision. Defined.

#[global] Instance ManagedGroup_eq_dec : EqDecision ManagedGroup.
Proof. solve_decision. Defined.

#[global] Instance Job_eq_dec : EqDecision Job.
Proof. solve_decision. Defined.

End Schema.
Export Schema.

(** ** Effects of a handler *)
Module Runtime.

(** The two identity tables and their [AUTOINCREMENT] counters. *)
Record Store : Type := mkStore {
  users : list ManagedUser;
  groups : list ManagedGroup;
  user_seq : Z;
  group_seq : Z
}.

Inductive Error : Type :=
| StoreUnavailable
| UniqueViolation (column : string)
| ApiFailure.

#[global] Instance Error_eq_dec : EqDecision Error.
Proof. solve_decision. Defined.

(** One statement against the store, executed atomically. It reads the
    clock ([new Date()]) and either throws or returns the new store and
    a result. *)
Definition Query (R : Type) : Type := Z -> Store -> Error + (Store * R).

Record Button : Type := mkButton {
  button_text : string;
  callback_data : string
}.

#[global] Instance Button_eq_dec : EqDecision Button.
Proof. solve_decision. Defined.

(** [reply_markup.inline_keyboard]; [None] is [reply_markup: undefined]
    or an absent option. *)
Definition Markup : Type := option (list (list Button)).

(** Calls to the Telegram Bot API. *)
Inductive ApiCall : Type :=
| SendMessage (chat : string) (text : string) (markup : Markup)
| Reply (text : string) (markup : Markup)
| EditMessageText (text : string) (markup : Markup)
| AnswerCallbackQuery (text : option string) (show_alert : bool).

#[global] Instance ApiCall_eq_dec : EqDecision ApiCall.
Proof. solve_decision. Defined.

Inductive LogLine : Type :=
| ConsoleLog (line : string)
| ConsoleError (tag : string) (e : option Error).

#[global] Instance LogLine_eq_dec : EqDecision LogLine.
Proof. solve_decision. Defined.

(** What an observer of the process sees, in order. *)
Inductive Event : Type :=
| Forwarded
| Sent (c : ApiCall)
| Logged (l : LogLine).

#[global] Instance Event_eq_dec : EqDecision Event.
Proof. solve_decision. Defined.

(** An entry of the process-local [adminPendingInputs] map of admin.ts:
    the step of the add-user dialogue and the id collected so far. *)
Inductive InputStep : Type := StepTelegramId | StepName.

Record PendingInput : Type := mkPending {
  pending_step : InputStep;
  pending_telegramId : option string
}.

(** An async function body. [Db] and [Api] are the await points: each has
    a normal continuation and one for the exception it may throw.
    [Memory] is a synchronous update of the process-local map. The
    interpreter may suspend a handler before any constructor, which is
    at least as often as the dispatcher can. *)
Inductive Prog (A : Type) : Type :=
| Ret (a : A)
| Throw (e : Error)
| Db {R : Type} (q : Query R) (k : R -> Prog A) (h : Error -> Prog A)
| Api (c : ApiCall) (k : Prog A) (h : Error -> Prog A)
| Console (l : LogLine) (k : Prog A)
| Memory (f : gmap string PendingInput -> gmap string PendingInput)
    (k : Prog A)
| Next (k : Prog A).

Arguments Ret {A} a.
Arguments Throw {A} e.
Arguments Db {A R} q k h.
Arguments Api {A} c k h.
Arguments Console {A} l k.
Arguments Memory {A} f k.
Arguments Next {A} k.

Fixpoint bind {A B : Type} (p : Prog A) (f : A -> Prog B) : Prog B :=
  match p with
  | Ret a => f a
  | Throw e => Throw e
  | Db q k h => Db q (fun r => bind (k r) f) (fun e => bind (h e) f)
  | Api c k h => Api c (bind k f) (fun e => bind (h e) f)
  | Console l k => Console l (bind k f)
  | Memory g k => Memory g (bind k f)
  | Next k => Next (bind k f)
  end.

(** [try { p } catch (error) { h error }]. *)
Fixpoint try_catch {A : Type} (p : Prog A) (h : Error -> Prog A) : Prog A :=
  match p with
  | Ret a => Ret a
  | Throw e => h e
  | Db q k h0 =>
      Db q (fun r => try_catch (k r) h) (fun e => try_catch (h0 e) h)
  | Api c k h0 => Api c (try_catch k h) (fun e => try_catch (h0 e) h)
  | Console l k => Console l (try_catch k h)
  | Memory g k => Memory g (try_catch k h)
  | Next k => Next (try_catch k h)
  end.

(** [await <query>]. *)
Definition db {R : Type} (q : Query R) : Prog R := Db q Ret Throw.

(** [await <telegram call>]. *)
Definition api (c : ApiCall) : Prog unit := Api c (Ret tt) Throw.

Definition console_log (line : string) : Prog unit :=
  Console (ConsoleLog line) (Ret tt).

Definition console_error (tag : string) (e : option Error) : Prog unit :=
  Console (ConsoleError tag e) (Ret tt).

(** [adminPendingInputs.set(...)] or [.delete(...)]. *)
Definition update_inputs
    (f : gmap string PendingInput -> gmap string PendingInput)
  : Prog unit := Memory f (Ret tt).

(** [await next()]. The downstream handlers are outside this model;
    [Next] records that they were called. *)
Definition next : Prog unit := Next (Ret tt).

(** The environment of a run: the configured operator, and what the
    outside world does at the n-th await of the process. *)
Record Env : Type := mkEnv {
  BOT_ADMIN_TELEGRAM_ID : string;
  db_fault : nat -> bool;
  api_fault : nat -> bool;
  clock : nat -> Z
}.

Record World : Type := mkWorld {
  store : Store;
  adminPendingInputs : gmap string PendingInput;
  trace : list Event;
  opno : nat
}.

Definition emit (ev : Event) (w : World) : World :=
  mkWorld (store w) (adminPendingInputs w) (trace w ++ [ev])%list (opno w).

Definition bump (w : World) : World :=
  mkWorld (store w) (adminPendingInputs w) (trace w) (S (opno w)).

Definition with_store (s : Store) (w : World) : World :=
  mkWorld s (adminPendingInputs w) (trace w) (opno w).

Definition with_inputs (m : gmap string PendingInput) (w : World) : World :=
  mkWorld (store w) m (trace w) (opno w).

(** One atomic step of a suspended handler; [None] when it has finished. *)
Definition step {A : Type} (env : Env) (p : Prog A) (w : World)
  : option (World * Prog A) :=
  match p with
  | Ret _ => None
  | Throw _ => None
  | Db q k h =>
      if db_fault env (opno w) then Some (bump w, h StoreUnavailable)
      else match q (clock env (opno w)) (store w) with
           | inl e => Some (bump w, h e)
           | inr (s, r) => Some (bump (with_store s w), k r)
           end
  | Api c k h =>
      if api_fault env (opno w) then Some (bump w, h ApiFailure)
      else Some (bump (emit (Sent c) w), k)
  | Console l k => Some (emit (Logged l) w, k)
  | Memory f k => Some (with_inputs (f (adminPendingInputs w)) w, k)
  | Next k => Some (emit Forwarded w, k)
  end.

(** A handler run to completion with nothing interleaved. *)
Fixpoint run {A : Type} (env : Env) (p : Prog A) (w : World)
  : World * (Error + A) :=
  match p with
  | Ret a => (w, inr a)
  | Throw e => (w, inl e)
  | Db q k h =>
      if db_fault env (opno w) then run env (h StoreUnavailable) (bump w)
      else match q (clock env (opno w)) (store w) with
           | inl e => run env (h e) (bump w)
           | inr (s, r) => run env (k r) (bump (with_store s w))
           end
  | Api c k h =>
      if api_fault env (opno w) then run env (h ApiFailure) (bump w)
      else run env k (bump (emit (Sent c) w))
  | Console l k => run env k (emit (Logged l) w)
  | Memory f k => run env k (with_inputs (f (adminPendingInputs w)) w)
  | Next k => run env k (emit Forwarded w)
  end.

(** Several handlers in flight at once. The dispatcher resumes any one
    of them at an await point; [pool_step] is one such resumption. *)
Inductive pool_step (env : Env)
  : World * list (Prog unit) -> World * list (Prog unit) -> Prop :=
| pool_resume (i : nat) (w w' : World) (ps : list (Prog unit))
    (p p' : Prog unit) :
    ps !! i = Some p ->
    step env p w = Some (w', p') ->
    pool_step env (w, ps) (w', <[i := p']> ps).

Definition finished {A : Type} (p : Prog A) : Prop :=
  match p with
  | Ret _ | Throw _ => True
  | _ => False
  end.

(** The dispatcher resuming handler [i]; nothing happens when that
    handler does not exist or has finished. *)
Definition resume (env : Env) (cfg : World * list (Prog unit)) (i : nat)
  : World * list (Prog unit) :=
  match cfg.2 !! i with
  | Some p =>
      match step env p cfg.1 with
      | Some (w', p') => (w', <[i := p']> cfg.2)
      | None => cfg
      end
  | None => cfg
  end.

(** A schedule names the handler resumed at each turn. *)
Definition schedule (env : Env) (turns : list nat)
    (cfg : World * list (Prog unit)) : World * list (Prog unit) :=
  foldl (resume env) cfg turns.

Definition is_finished {A : Type} (p : Prog A) : bool :=
  match p with
  | Ret _ | Throw _ => true
  | _ => false
  end.

(** The events appended by a run. *)
Definition since (w w' : World) : list Event :=
  drop (length (trace w)) (trace w').

End Runtime.
Export Runtime.

Notation "'let!' x ':=' p 'in' q" := (bind p (fun x => q))
  (at level 10, x name, p at level 100, q at level 200, only parsing).
Notation "'do!' p 'in' q" := (bind p (fun _ => q))
  (at level 10, p at level 100, q at level 200, only parsing).

(** ** src/db/queries/user.ts *)
Module UserQueries.

Definition by_telegramId (telegramId : string) (u : ManagedUser) : Prop :=
  user_telegramId u = telegramId.

Definition by_id (id : Z) (u : ManagedUser) : Prop := user_id u = id.

#[global] Instance by_telegramId_dec t u : Decision (by_telegramId t u).
Proof. unfold by_telegramId. apply _. Defined.

#[global] Instance by_id_dec i u : Decision (by_id i u).
Proof. unfold by_id. apply _. Defined.

(** [select ... where telegram_id = ? limit 1], then [result[0]]. *)
Definition findUserByTelegramId (telegramId : string)
  : Query (option ManagedUser) :=
  fun _ s => inr (s, head (filter (by_telegramId telegramId) (users s))).

Definition findUserById (id : Z) : Query (option ManagedUser) :=
  fun _ s => inr (s, head (filter (by_id id) (users s))).

(** The row an insert produces: [id] from the autoincrement counter,
    [status] from the column default when absent, both timestamps from
    their [$defaultFn]. *)
Definition inserted_user (id now : Z) (user : NewManagedUser) : ManagedUser :=
  mkUser id (nu_telegramId user) (nu_name user) (nu_username user)
         (default PENDING (nu_status user)) (nu_patToken user) now now.

(** [insert ... returning]; [telegram_id] is [unique]. *)
Definition createUser (user : NewManagedUser) : Query ManagedUser :=
  fun now s =>
    if bool_decide (Exists (by_telegramId (nu_telegramId user)) (users s))
    then inl (UniqueViolation "managed_user.telegram_id")
    else
      let row := inserted_user (user_seq s + 1) now user in
      inr (mkStore (users s ++ [row])%list (groups s) (user_seq s + 1)
                   (group_seq s), row).

Definition set_status (status : Status) (now : Z) (u : ManagedUser)
  : ManagedUser :=
  mkUser (user_id u) (user_telegramId u) (user_name u) (user_username u)
         status (user_patToken u) (user_createdAt u) now.

Definition set_patToken (patToken : string) (now : Z) (u : ManagedUser)
  : ManagedUser :=
  mkUser (user_id u) (user_telegramId u) (user_name u) (user_username u)
         (user_status u) (Some patToken) (user_createdAt u) now.

Definition apply_patch (data : UserPatch) (now : Z) (u : ManagedUser)
  : ManagedUser :=
  mkUser (user_id u) (user_telegramId u)
         (default (user_name u) (patch_name data))
         (default (user_username u) (patch_username data))
         (default (user_status u) (patch_status data))
         (default (user_patToken u) (patch_patToken data))
         (user_createdAt u) now.

(** [update ... set ... where <sel> returning], then [result[0]]. *)
Definition update_where (sel : ManagedUser -> Prop)
    `{!forall u, Decision (sel u)} (f : ManagedUser -> ManagedUser)
    (s : Store) : Store * option ManagedUser :=
  (mkStore (map (fun u => if decide (sel u) then f u else u) (users s))
           (groups s) (user_seq s) (group_seq s),
   head (map f (filter sel (users s)))).

Definition updateUserStatus (id : Z) (status : Status)
  : Query (option ManagedUser) :=
  fun now s => inr (update_where (by_id id) (set_status status now) s).

Definition updateUserPatToken (id : Z) (patToken : string)
  : Query (option ManagedUser) :=
  fun now s => inr (update_where (by_id id) (set_patToken patToken now) s).

Definition updateUserByTelegramId (telegramId : string) (data : UserPatch)
  : Query (option ManagedUser) :=
  fun now s =>
    inr (update_where (by_telegramId telegramId) (apply_patch data now) s).

Definition deleteUser (id : Z) : Query unit :=
  fun _ s =>
    inr (mkStore (filter (fun u => ~ by_id id u) (users s)) (groups s)
                 (user_seq s) (group_seq s), tt).

(** [asc(managedUser.status)] orders the status text:
    allowed, pending, rejected. *)
Definition status_rank (s : Status) : nat :=
  match s with ALLOWED => 0 | PENDING => 1 | REJECTED => 2 end.

Definition status_asc (u v : ManagedUser) : Prop :=
  (status_rank (user_status u) <= status_rank (user_status v))%nat.

#[global] Instance status_asc_dec u v : Decision (status_asc u v).
Proof. unfold status_asc. apply _. Defined.

Definition getAllUsers : Query (list ManagedUser) :=
  fun _ s => inr (s, merge_sort status_asc (users s)).

(** [grouped.<key>.push(user)]. *)
Definition push (key : string) (u : ManagedUser)
    (grouped : gmap string (list ManagedUser))
  : gmap string (list ManagedUser) :=
  alter (fun l => (l ++ [u])%list) key grouped.

(** The body of the [for (const user of allUsers)] loop. *)
Definition group_one (grouped : gmap string (list ManagedUser))
    (user : ManagedUser) : gmap string (list ManagedUser) :=
  if decide (user_status user = ALLOWED) then push "allowed" user grouped
  else if decide (user_status user = PENDING) then push "pending" user grouped
  else if decide (user_status user = REJECTED)
       then push "rejected" user grouped
  else grouped.

Definition empty_groups : gmap string (list ManagedUser) :=
  <["allowed" := []]> (<["pending" := []]> (<["rejected" := []]> ∅)).

Definition group_all (allUsers : list ManagedUser)
  : gmap string (list ManagedUser) :=
  foldl group_one empty_groups allUsers.

Definition getAllUsersGroupedByStatus
  : Query (gmap string (list ManagedUser)) :=
  fun _ s => inr (s, group_all (merge_sort status_asc (users s))).

End UserQueries.
Export UserQueries.

(** ** src/db/queries/group.ts *)
Module GroupQueries.

Definition group_by_telegramId (telegramId : string) (g : ManagedGroup)
  : Prop := group_telegramId g = telegramId.

#[global] Instance group_by_telegramId_dec t g
  : Decision (group_by_telegramId t g).
Proof. unfold group_by_telegramId. apply _. Defined.

Definition findGroupByTelegramId (telegramId : string)
  : Query (option ManagedGroup) :=
  fun _ s =>
    inr (s, head (filter (group_by_telegramId telegramId) (groups s))).

Definition inserted_group (id now : Z) (group : NewManagedGroup)
  : ManagedGroup :=
  mkGroup id (ng_telegramId group) (ng_title group)
          (default PENDING (ng_status group)) now now.

Definition createGroup (group : NewManagedGroup) : Query ManagedGroup :=
  fun now s =>
    if bool_decide
         (Exists (group_by_telegramId (ng_telegramId group)) (groups s))
    then inl (UniqueViolation "managed_group.telegram_id")
    else
      let row := inserted_group (group_seq s + 1) now group in
      inr (mkStore (users s) (groups s ++ [row])%list (user_seq s)
                   (group_seq s + 1), row).

End GroupQueries.
Export GroupQueries.

(** ** The grammY context *)
Module Telegram.

Inductive ChatType : Type :=
  ChatPrivate | ChatGroup | ChatSupergroup | ChatChannel.

#[global] Instance ChatType_eq_dec : EqDecision ChatType.
Proof. solve_decision. Defined.

(** [ctx.from]. *)
Record Sender : Type := mkSender {
  from_id : Z;
  first_name : string;
  from_username : option string
}.

(** [ctx.chat]. *)
Record Chat : Type := mkChat {
  chat_id : Z;
  chat_type : ChatType;
  chat_title : option string
}.

Record Context : Type := mkContext {
  ctx_from : option Sender;
  ctx_chat : option Chat;
  ctx_callback_data : option string;
  ctx_message_text : option string
}.

(** [ctx.from?.id.toString()]. *)
Definition getUserTelegramId (ctx : Context) : option string :=
  (fun f => pretty (from_id f)) <$> ctx_from ctx.

(** [ctx.chat?.id.toString()]. *)
Definition getChatTelegramId (ctx : Context) : option string :=
  (fun c => pretty (chat_id c)) <$> ctx_chat ctx.

(** [ctx.chat?.type === t]. *)
Definition chat_is (ctx : Context) (t : ChatType) : bool :=
  bool_decide (chat_type <$> ctx_chat ctx = Some t).

Definition group_like (ctx : Context) : bool :=
  chat_is ctx ChatGroup || chat_is ctx ChatSupergroup.

(** [ctx.from?.first_name || fallback]. *)
Definition sender_name (ctx : Context) (fallback : string) : string :=
  or_else (first_name <$> ctx_from ctx) fallback.

(** [ctx.from?.username]. *)
Definition sender_username (ctx : Context) : option string :=
  ctx_from ctx ≫= from_username.

(** [username ? ` (@${username})` : <empty string>]. *)
Definition at_username (username : option string) : string :=
  if truthy username then " (@" +:+ default EmptyString username +:+ ")"
  else EmptyString.

(** A [string | undefined] inside a template literal. *)
Definition render (o : option string) : string := default "undefined" o.

(** The value of a truthy [string | undefined]. *)
Definition nonempty (o : option string) : option string :=
  match o with
  | Some s => if String.eqb s EmptyString then None else Some s
  | None => None
  end.

End Telegram.
Export Telegram.

(** ** src/bot/middleware.ts *)
Module Middleware.

(** Access Control Middleware, registered with [bot.use]. Its rules in
    the source: a private chat passes; in a group only the user is
    looked at, a missing user is created with status allowed and a
    pending or rejected one is updated to allowed; groups are neither
    checked nor stored. *)
Definition accessControl (ctx : Context) : Prog unit :=
  let chatId := getChatTelegramId ctx in
  let userId := getUserTelegramId ctx in
  if chat_is ctx ChatPrivate then next
  else if truthy chatId && group_like ctx then
    do! try_catch
          (match nonempty userId with
           | Some userId =>
               let! user := db (findUserByTelegramId userId) in
               match user with
               | None =>
                   let userName := sender_name ctx "Unknown" in
                   let username := sender_username ctx in
                   do! db (createUser
                             (mkNewUser userId userName username
                                        (Some ALLOWED) None)) in
                   Ret tt
               | Some user =>
                   if decide (user_status user <> ALLOWED) then
                     do! db (updateUserByTelegramId userId
                               (mkPatch None None (Some ALLOWED) None)) in
                     Ret tt
                   else Ret tt
               end
           | None => Ret tt
           end)
          (fun error => console_error "[AccessControl] Error:" (Some error))
    in next
  else next.

End Middleware.

(** ** unnamed/part_007: the gate with group and user discovery *)
Module GroupGate.

(** Check if the user is the super admin. *)
Definition isAdmin (env : Env) (ctx : Context) : bool :=
  bool_decide (getUserTelegramId ctx = Some (BOT_ADMIN_TELEGRAM_ID env)).

(** Admin-only middleware in front of a command handler [next]. *)
Definition adminOnly (env : Env) (ctx : Context) (next : Prog unit)
  : Prog unit :=
  if negb (chat_is ctx ChatPrivate) then Ret tt
  else if negb (isAdmin env ctx) then
    api (Reply "⛔ Unauthorized. This command is only for the super admin."
               None)
  else next.

Definition approval_keyboard (kind id : string) : Markup :=
  Some [[mkButton "✅ Approve" ("approve_" +:+ kind +:+ ":" +:+ id);
         mkButton "❌ Reject" ("reject_" +:+ kind +:+ ":" +:+ id)]].

(** The text of the request sent to the operator for a new group. *)
Definition group_request_text (chatTitle chatId userName : string)
    (username userId : option string) : string :=
  "🔔 <b>New Group Request</b>" +:+ nl +:+ nl +:+
  "📍 <b>Group:</b> " +:+ chatTitle +:+ nl +:+
  "🆔 <b>Group ID:</b> <code>" +:+ chatId +:+ "</code>" +:+ nl +:+
  "👤 <b>User:</b> " +:+ userName +:+ at_username username +:+ nl +:+
  "🆔 <b>User ID:</b> <code>" +:+ render userId +:+ "</code>".

(** The text of the request sent to the operator for a new user. *)
Definition user_request_text (userName : string) (username : option string)
    (userId : string) : string :=
  "🔔 <b>New User Request</b>" +:+ nl +:+ nl +:+
  "👤 <b>User:</b> " +:+ userName +:+ at_username username +:+ nl +:+
  "🆔 <b>User ID:</b> <code>" +:+ userId +:+ "</code>".

(** Trigger Group Discovery Flow. The source documents it as: insert the
    group with status pending, insert the user with status pending,
    notify the super admin in private chat, send the approval message
    with inline buttons. All of it sits in one try block. *)
Definition triggerGroupDiscovery (env : Env) (ctx : Context)
    (chatId : string) : Prog unit :=
  let chatTitle :=
    or_else (ctx_chat ctx ≫= chat_title) "Unknown Group" in
  let userId := getUserTelegramId ctx in
  let userName := sender_name ctx "Unknown" in
  let username := sender_username ctx in
  try_catch
    (do! db (createGroup (mkNewGroup chatId chatTitle (Some PENDING))) in
     do! match nonempty userId with
         | Some userId =>
             do! db (createUser
                       (mkNewUser userId userName username (Some PENDING)
                                  None)) in
             Ret tt
         | None => Ret tt
         end in
     let adminId := BOT_ADMIN_TELEGRAM_ID env in
     if String.eqb adminId EmptyString then
       console_error "[Group Discovery] Admin ID not configured" None
     else
       let message :=
         group_request_text chatTitle chatId userName username userId in
       do! api (SendMessage adminId message
                            (approval_keyboard "group" chatId)) in
       console_log ("[Group Discovery] New group " +:+ chatTitle +:+ " (" +:+
                    chatId +:+ ") added as pending"))
    (fun error => console_error "[Group Discovery] Error:" (Some error)).

(** Trigger User Discovery Flow, for a user who interacts with the bot
    in an allowed group and is not in the database. *)
Definition triggerUserDiscovery (env : Env) (ctx : Context)
    (userId : string) : Prog unit :=
  let userName := sender_name ctx "Unknown" in
  let username := sender_username ctx in
  try_catch
    (do! db (createUser
               (mkNewUser userId userName username (Some PENDING) None)) in
     let adminId := BOT_ADMIN_TELEGRAM_ID env in
     if String.eqb adminId EmptyString then
       console_error "[User Discovery] Admin ID not configured" None
     else
       let message := user_request_text userName username userId in
       do! api (SendMessage adminId message
                            (approval_keyboard "user" userId)) in
       console_log ("[User Discovery] New user " +:+ userName +:+ " (" +:+
                    userId +:+ ") added as pending"))
    (fun error => console_error "[User Discovery] Error:" (Some error)).

(** Access Control Middleware: a private chat passes for the admin only;
    a group update is looked up by the chat id, triggers the group
    discovery when the group is not found, is ignored unless the group
    is allowed, and then goes through the same check for the user. *)
Definition accessControl (env : Env) (ctx : Context) : Prog unit :=
  let chatId := getChatTelegramId ctx in
  let userId := getUserTelegramId ctx in
  if chat_is ctx ChatPrivate then
    (if isAdmin env ctx then next else Ret tt)
  else
    match (if group_like ctx then nonempty chatId else None) with
    | Some chatId =>
        let! group := db (findGroupByTelegramId chatId) in
        match group with
        | None => triggerGroupDiscovery env ctx chatId
        | Some group =>
            if decide (group_status group <> ALLOWED) then Ret tt
            else
              match nonempty userId with
              | Some userId =>
                  let! user := db (findUserByTelegramId userId) in
                  match user with
                  | None => triggerUserDiscovery env ctx userId
                  | Some user =>
                      if decide (user_status user <> ALLOWED) then Ret tt
                      else next
                  end
              | None => next
              end
        end
    | None => Ret tt
    end.

End GroupGate.

(** ** src/bot/handlers/discovery.ts *)
Module Discovery.

(** [user.name] followed by [` (@${user.username})`] when there is a
    username. *)
Definition name_with_handle (user : ManagedUser) : string :=
  user_name user +:+ at_username (user_username user).

Definition approved_message (user : ManagedUser) (telegramId : string)
  : string :=
  "✅ <b>User Approved</b>" +:+ nl +:+ nl +:+
  "👤 <b>User:</b> " +:+ name_with_handle user +:+ nl +:+
  "🆔 <b>User ID:</b> <code>" +:+ telegramId +:+ "</code>" +:+ nl +:+ nl +:+
  "The user is now allowed to use the bot.".

Definition rejected_message (user : ManagedUser) (telegramId : string)
  : string :=
  "❌ <b>User Rejected</b>" +:+ nl +:+ nl +:+
  "👤 <b>User:</b> " +:+ name_with_handle user +:+ nl +:+
  "🆔 <b>User ID:</b> <code>" +:+ telegramId +:+ "</code>" +:+ nl +:+ nl +:+
  "The user has been rejected and cannot use the bot.".

(** Handle user approval from the notification. *)
Definition handleApproveUser (telegramId : string) : Prog unit :=
  let! user := db (findUserByTelegramId telegramId) in
  match user with
  | None => api (AnswerCallbackQuery (Some "❌ User not found") true)
  | Some user =>
      do! db (updateUserStatus (user_id user) ALLOWED) in
      let newMessage := approved_message user telegramId in
      do! api (EditMessageText newMessage None) in
      do! api (AnswerCallbackQuery (Some "✅ User approved") false) in
      console_log ("[Discovery] User " +:+ user_name user +:+ " (" +:+
                   telegramId +:+ ") approved")
  end.

(** Handle user rejection from the notification. *)
Definition handleRejectUser (telegramId : string) : Prog unit :=
  let! user := db (findUserByTelegramId telegramId) in
  match user with
  | None => api (AnswerCallbackQuery (Some "❌ User not found") true)
  | Some user =>
      do! db (updateUserStatus (user_id user) REJECTED) in
      let newMessage := rejected_message user telegramId in
      do! api (EditMessageText newMessage None) in
      do! api (AnswerCallbackQuery (Some "❌ User rejected") false) in
      console_log ("[Discovery] User " +:+ user_name user +:+ " (" +:+
                   telegramId +:+ ") rejected")
  end.

(** The handler that [setupDiscoveryHandlers] registers for
    [/^(approve_user|reject_user):(.+)$/], applied to the callback data
    that matched. The pattern guarantees the second part of the split. *)
Definition approval_callback (env : Env) (ctx : Context)
    (callbackData : string) : Prog unit :=
  let userId := getUserTelegramId ctx in
  if negb (bool_decide (userId = Some (BOT_ADMIN_TELEGRAM_ID env))) then
    api (AnswerCallbackQuery (Some "⛔ Unauthorized") true)
  else
    let parts := split_on ":" callbackData in
    let action := default EmptyString (head parts) in
    let telegramId := default EmptyString (parts !! 1%nat) in
    try_catch
      (if String.eqb action "approve_user" then handleApproveUser telegramId
       else if String.eqb action "reject_user"
            then handleRejectUser telegramId
       else Ret tt)
      (fun error =>
         do! console_error "[Discovery Handler] Error:" (Some error) in
         api (AnswerCallbackQuery (Some "❌ Error processing request") true)).

End Discovery.

(** ** src/bot/handlers/admin.ts *)
Module Admin.

(** [AdminCallback]. *)
Definition APPROVE_USER : string := "admin_approve_user".
Definition REJECT_USER : string := "admin_reject_user".
Definition REMOVE_USER : string := "admin_remove_user".
Definition ADD_USER : string := "admin_add_user".
Definition SHOW_USERS : string := "admin_show_users".
Definition SHOW_MAIN_MENU : string := "admin_show_main_menu".
Definition CANCEL_ADD : string := "admin_cancel_add".

Definition buildAdminMainMenuKeyboard : list (list Button) :=
  [[mkButton "👥 کاربران" SHOW_USERS];
   [mkButton "➕ افزودن کاربر" ADD_USER]].

Definition buildCancelKeyboard : list (list Button) :=
  [[mkButton "❌ لغو" CANCEL_ADD]].

Definition approve_button (userId : Z) : Button :=
  mkButton "✅ تأیید" (APPROVE_USER +:+ ":" +:+ pretty userId).

Definition reject_button (userId : Z) : Button :=
  mkButton "❌ رد" (REJECT_USER +:+ ":" +:+ pretty userId).

Definition remove_button (userId : Z) : Button :=
  mkButton "🗑️ حذف" (REMOVE_USER +:+ ":" +:+ pretty userId).

(** The keyboard array is built by three successive [push]es. *)
Definition buildUserActionKeyboard (userId : Z) (status : string)
  : list Button :=
  let keyboard : list Button := [] in
  let keyboard :=
    if negb (String.eqb status (StatusEnum ALLOWED))
    then (keyboard ++ [approve_button userId])%list else keyboard in
  let keyboard :=
    if negb (String.eqb status (StatusEnum REJECTED))
    then (keyboard ++ [reject_button userId])%list else keyboard in
  (keyboard ++ [remove_button userId])%list.

(** [u.username ? `${u.name} (@${u.username})` : u.name]. *)
Definition display_name (u : ManagedUser) : string :=
  if truthy (user_username u)
  then user_name u +:+ " (@" +:+ default EmptyString (user_username u)
       +:+ ")"
  else user_name u.

Definition concat_lines (lines : list string) : string :=
  foldl (fun acc line => acc +:+ line) EmptyString lines.

(** One status section of the list opened from the menu. *)
Definition menu_section (header : string) (us : list ManagedUser) : string :=
  match us with
  | [] => EmptyString
  | _ =>
      header +:+ nl +:+
      concat_lines
        (map (fun u => "• " +:+ display_name u +:+ " (ID: <code>" +:+
                       user_telegramId u +:+ "</code>)" +:+ nl) us)
      +:+ nl
  end.

(** [actions.slice(i, i + 2)] for i = 0, 2, 4, ... *)
Fixpoint rows_of_two (actions : list Button) : list (list Button) :=
  match actions with
  | a :: b :: rest => [a; b] :: rows_of_two rest
  | [a] => [[a]]
  | [] => []
  end.

Definition status_emoji (u : ManagedUser) : string :=
  if decide (user_status u = ALLOWED) then "✅"
  else if decide (user_status u = REJECTED) then "❌"
  else "⏳".

Definition user_rows (u : ManagedUser) : list (list Button) :=
  [mkButton (status_emoji u +:+ " " +:+ display_name u)
            ("admin_user_info:" +:+ pretty (user_id u))]
  :: rows_of_two
       (buildUserActionKeyboard (user_id u) (StatusEnum (user_status u))).

(** [grouped.<key>]. *)
Definition bucket (grouped : gmap string (list ManagedUser)) (key : string)
  : list ManagedUser := default [] (grouped !! key).

Definition users_list_message (grouped : gmap string (list ManagedUser))
  : string :=
  let msg := "👥 <b>لیست کاربران</b>" +:+ nl +:+ nl in
  let msg := msg +:+ menu_section "✅ <b>فعال</b>" (bucket grouped "allowed") in
  let msg :=
    msg +:+ menu_section "⏳ <b>در انتظار</b>" (bucket grouped "pending") in
  let msg :=
    msg +:+ menu_section "❌ <b>رد شده</b>" (bucket grouped "rejected") in
  if (Nat.eqb (length (bucket grouped "allowed")) 0 &&
      Nat.eqb (length (bucket grouped "pending")) 0 &&
      Nat.eqb (length (bucket grouped "rejected")) 0)%bool
  then msg +:+ "هیچ کاربری یافت نشد."
  else msg.

Definition users_list_keyboard (grouped : gmap string (list ManagedUser))
  : list (list Button) :=
  (concat (map user_rows (bucket grouped "pending" ++
                          bucket grouped "allowed" ++
                          bucket grouped "rejected"))
   ++ [[mkButton "🔙 بازگشت" SHOW_MAIN_MENU]])%list.

Definition user_card (title : string) (user : ManagedUser) : string :=
  title +:+ nl +:+ nl +:+
  "👤 <b>کاربر:</b> " +:+ display_name user +:+ nl +:+
  "🆔 <b>شناسه:</b> <code>" +:+ user_telegramId user +:+ "</code>".

Definition user_not_found : string := "❌ کاربر یافت نشد.".

Definition handleApproveUser (userId : Z) : Prog unit :=
  let! user := db (findUserById userId) in
  match user with
  | None => api (Reply user_not_found None)
  | Some user =>
      do! db (updateUserStatus userId ALLOWED) in
      let message := user_card "✅ <b>کاربر تأیید شد</b>" user in
      do! api (EditMessageText message None) in
      console_log ("[Admin] User " +:+ user_name user +:+ " (" +:+
                   user_telegramId user +:+ ") approved")
  end.

Definition handleRejectUser (userId : Z) : Prog unit :=
  let! user := db (findUserById userId) in
  match user with
  | None => api (Reply user_not_found None)
  | Some user =>
      do! db (updateUserStatus userId REJECTED) in
      let message := user_card "❌ <b>کاربر رد شد</b>" user in
      do! api (EditMessageText message None) in
      console_log ("[Admin] User " +:+ user_name user +:+ " (" +:+
                   user_telegramId user +:+ ") rejected")
  end.

Definition removed_message (user : ManagedUser) : string :=
  user_card "🗑️ <b>کاربر حذف شد</b>" user.

(** Handle user removal. *)
Definition handleRemoveUser (userId : Z) : Prog unit :=
  let! user := db (findUserById userId) in
  match user with
  | None => api (Reply user_not_found None)
  | Some user =>
      do! db (deleteUser userId) in
      let message := removed_message user in
      do! api (EditMessageText message None) in
      console_log ("[Admin] User " +:+ user_name user +:+ " (" +:+
                   user_telegramId user +:+ ") removed")
  end.

Definition panel_message (line : string) : string :=
  nl +:+ "🛠️ <b>پنل مدیریت</b>" +:+ nl +:+ nl +:+ line +:+ nl.

(** The pattern [/^admin_/] of the callback handler. *)
Definition admin_trigger (callbackData : string) : bool :=
  starts_with "admin_" callbackData.

(** The handler registered for [/^admin_/]. *)
Definition admin_callback (env : Env) (ctx : Context) : Prog unit :=
  match nonempty (ctx_callback_data ctx) with
  | None => Ret tt
  | Some callbackData =>
      let userId := getUserTelegramId ctx in
      if negb (bool_decide (userId = Some (BOT_ADMIN_TELEGRAM_ID env))) then
        api (AnswerCallbackQuery (Some "⛔ Unauthorized") true)
      else
        do! api (AnswerCallbackQuery None false) in
        let parts := split_on ":" callbackData in
        let action := default EmptyString (head parts) in
        let idStr := parts !! 1%nat in
        if String.eqb action CANCEL_ADD then
          do! match nonempty userId with
              | Some userId => update_inputs (delete userId)
              | None => Ret tt
              end in
          api (EditMessageText (panel_message "عملیات لغو شد.")
                               (Some buildAdminMainMenuKeyboard))
        else if String.eqb action SHOW_MAIN_MENU then
          api (EditMessageText
                 (panel_message "از دکمه‌های زیر استفاده کنید:")
                 (Some buildAdminMainMenuKeyboard))
        else if String.eqb action ADD_USER then
          do! api (EditMessageText
                     (nl +:+ "➕ <b>افزودن کاربر جدید</b>" +:+ nl +:+ nl +:+
                      "لطفاً شناسه تلگرام کاربر را ارسال کنید:" +:+ nl)
                     (Some buildCancelKeyboard)) in
          match nonempty userId with
          | Some userId =>
              update_inputs
                (insert userId (mkPending StepTelegramId None))
          | None => Ret tt
          end
        else
          match nonempty idStr ≫= parseInt with
          | None => api (Reply "❌ شناسه نامعتبر است." None)
          | Some id =>
              try_catch
                (if String.eqb action SHOW_USERS then
                   let! grouped := db getAllUsersGroupedByStatus in
                   api (EditMessageText (users_list_message grouped)
                                        (Some (users_list_keyboard grouped)))
                 else if String.eqb action APPROVE_USER
                      then handleApproveUser id
                 else if String.eqb action REJECT_USER
                      then handleRejectUser id
                 else if String.eqb action REMOVE_USER
                      then handleRemoveUser id
                 else Ret tt)
                (fun error =>
                   do! console_error "[Admin] Error handling callback:"
                                     (Some error) in
                   api (Reply "❌ Error processing request." None))
          end
  end.

End Admin.

(** ** src/bot/handlers/admin.ts, the command version *)
Module AdminCommands.

(** The handler of [/removeuser <userId>], behind [adminOnly]. *)
Definition removeuser_handler (ctx : Context) : Prog unit :=
  match ctx_message_text ctx with
  | None => Ret tt
  | Some text =>
      let args := split_on " " text in
      match nonempty (args !! 1%nat) with
      | None =>
          api (Reply ("⚠️ Usage: /removeuser <userId>" +:+ nl +:+ nl +:+
                      "Example: /removeuser 123") None)
      | Some userId =>
          match parseInt userId with
          | None =>
              api (Reply "❌ Invalid user ID. Please provide a numeric ID."
                         None)
          | Some id =>
              try_catch
                (let! user := db (findUserById id) in
                 match user with
                 | None =>
                     api (Reply ("❌ User with ID " +:+ pretty id +:+
                                 " not found.") None)
                 | Some user =>
                     do! db (deleteUser id) in
                     let name := Admin.display_name user in
                     do! api (Reply ("🗑️ User <b>" +:+ dq +:+ name +:+ dq
                                     +:+ "</b> (ID: <code>" +:+ pretty id
                                     +:+ "</code>) has been removed.")
                                    None) in
                     console_log ("[Admin] User " +:+ name +:+ " (ID: " +:+
                                  pretty id +:+ ") removed by admin")
                 end)
                (fun error =>
                   do! console_error "[Admin] Error removing user:"
                                     (Some error) in
                   api (Reply "❌ Error removing user." None))
          end
      end
  end.

Definition removeuser (env : Env) (ctx : Context) : Prog unit :=
  GroupGate.adminOnly env ctx (removeuser_handler ctx).

End AdminCommands.

(** ** The job scheduler *)
Module Scheduler.

(** Modelled from the spec: the observable actions of a tick (the
    runner is not among the sources): a call of the injected executor, a
    status update, a delete. *)
Inductive JobOp : Type :=
| Execute (job : Job)
| MarkJob (id : Z) (status : JobStatus) (executedAt : Z)
| DeleteJob (id : Z).

(** Modelled from the spec: the job table of the JobStore and the
    actions taken on it so far. *)
Record JobWorld : Type := mkJobWorld {
  jobs : list Job;
  job_ops : list JobOp
}.

(** Modelled from the spec: a job is due when its status is pending and
    dueAt <= now (README: [dueAt <= now()] and [status = pending]). *)
Definition due (now : Z) (j : Job) : Prop :=
  job_status j = JOB_PENDING /\ job_dueAt j <= now.

#[global] Instance due_dec now j : Decision (due now j).
Proof. unfold due. apply _. Defined.

(** Modelled from the spec: the job queries are not among the sources
    (only the [job] table of schema.ts is). Find-due selects the jobs
    with status pending and dueAt <= now. *)
Definition findDueJobs (now : Z) (js : list Job) : list Job :=
  filter (due now) js.

(** Modelled from the spec: a row that reached a terminal status at
    [now]. *)
Definition finalized (status : JobStatus) (now : Z) (j : Job) : Job :=
  mkJob (job_id j) (job_description j) (job_payload j) (job_dueAt j)
        (Some now) status (job_createdAt j).

(** Modelled from the spec: update-status of the job store, which sets
    the terminal status together with executedAt. *)
Definition updateJobStatus (id : Z) (status : JobStatus) (now : Z)
    (w : JobWorld) : JobWorld :=
  mkJobWorld
    (map (fun j => if decide (job_id j = id) then finalized status now j
                   else j) (jobs w))
    (job_ops w ++ [MarkJob id status now]).

(** Modelled from the spec: delete of the job store. *)
Definition deleteJob (id : Z) (w : JobWorld) : JobWorld :=
  mkJobWorld (filter (fun j => job_id j <> id) (jobs w))
             (job_ops w ++ [DeleteJob id]).

(** Modelled from the spec: steps 2 to 4 of the tick of the missing
    scheduler/runner.ts for one selected job. The injected executor is
    [executor]; [false] is a thrown error. On success the job is marked
    completed with executedAt = now and then deleted; on failure it is
    marked failed with executedAt = now and kept. *)
Definition runJob (executor : Job -> bool) (now : Z) (w : JobWorld)
    (j : Job) : JobWorld :=
  let w := mkJobWorld (jobs w) (job_ops w ++ [Execute j]) in
  if executor j then
    deleteJob (job_id j) (updateJobStatus (job_id j) JOB_COMPLETED now w)
  else updateJobStatus (job_id j) JOB_FAILED now w.

(** Modelled from the spec: the tick of the missing scheduler/runner.ts.
    It selects the due jobs once and handles them one after the other; a
    failing executor does not end the loop. *)
Definition tick (executor : Job -> bool) (now : Z) (w : JobWorld)
  : JobWorld :=
  foldl (runJob executor now) w (findDueJobs now (jobs w)).

End Scheduler.

(** ** Vocabulary of the statements *)
Module Statements.

(** Whether a keyboard carries a button for [action]. *)
Definition offers (action : string) (keyboard : list Button) : bool :=
  existsb (fun b => starts_with (action +:+ ":") (callback_data b))
          keyboard.

(** The object [{ allowed, pending, rejected }]. *)
Definition three_lists (allowed pending rejected : list ManagedUser)
  : gmap string (list ManagedUser) :=
  <["allowed" := allowed]>
    (<["pending" := pending]> (<["rejected" := rejected]> ∅)).

Definition has_status (st : Status) (u : ManagedUser) : Prop :=
  user_status u = st.

#[global] Instance has_status_dec st u : Decision (has_status st u).
Proof. unfold has_status. apply _. Defined.

(** The jobs a tick handed to the executor, in order. *)
Definition executed (ops : list Scheduler.JobOp) : list Job :=
  omap (fun op => match op with
                  | Scheduler.Execute j => Some j
                  | _ => None
                  end) ops.

(** The operations a tick records for one selected job. *)
Definition ops_of (executor : Job -> bool) (now : Z) (j : Job)
  : list Scheduler.JobOp :=
  Scheduler.Execute j ::
    (if executor j
     then [Scheduler.MarkJob (job_id j) JOB_COMPLETED now;
           Scheduler.DeleteJob (job_id j)]
     else [Scheduler.MarkJob (job_id j) JOB_FAILED now]).

(** A console line, as opposed to a Telegram call or a forward. *)
Definition is_logged (ev : Event) : Prop :=
  match ev with
  | Logged _ => True
  | _ => False
  end.

#[global] Instance is_logged_dec ev : Decision (is_logged ev).
Proof. destruct ev; simpl; apply _. Defined.

(** The row of [managed_user] that a lookup by telegram id returns. *)
Definition stored_user (s : Store) (telegramId : string)
  : option ManagedUser :=
  head (filter (by_telegramId telegramId) (users s)).

(** The telegram id of the sender of an event, as the handlers use it. *)
Definition sender_id (sender : Sender) : string := pretty (from_id sender).

Definition group_pending (g : ManagedGroup) : Prop :=
  group_status g = PENDING.

(** The update the current gate applies to a stored sender. *)
Definition allow_patch : UserPatch := mkPatch None None (Some ALLOWED) None.

(** The row of [managed_user] that a lookup by internal id returns. *)
Definition stored_user_by_id (s : Store) (id : Z) : option ManagedUser :=
  head (filter (by_id id) (users s)).

(** The answer every resolver gives to a requester other than the
    operator. *)
Definition unauthorized_answer : Event :=
  Sent (AnswerCallbackQuery (Some "⛔ Unauthorized") true).

(** What the operator sees of a successful approval from the
    notification: the edited message, the toast, and the console line. *)
Definition approval_report (user : ManagedUser) (telegramId : string)
  : list Event :=
  [Sent (EditMessageText (Discovery.approved_message user telegramId) None);
   Sent (AnswerCallbackQuery (Some "✅ User approved") false);
   Logged (ConsoleLog ("[Discovery] User " +:+ user_name user +:+ " (" +:+
                       telegramId +:+ ") approved"))].

(** What one approval of the row with internal id [id], done at time
    [t], makes of a row. *)
Definition approve_at (id t : Z) (r : ManagedUser) : ManagedUser :=
  if decide (by_id id r) then set_status ALLOWED t r else r.

(** A row with its [updatedAt] column blanked. *)
Definition forget_updatedAt (u : ManagedUser) : ManagedUser :=
  mkUser (user_id u) (user_telegramId u) (user_name u) (user_username u)
         (user_status u) (user_patToken u) (user_createdAt u) 0.

(** What the operator sees of a removal that took place. *)
Definition removal_report (user : ManagedUser) : list Event :=
  [Sent (EditMessageText (Admin.removed_message user) None);
   Logged (ConsoleLog ("[Admin] User " +:+ user_name user +:+ " (" +:+
                       user_telegramId user +:+ ") removed"))].

(** A removal is reported as done when the message is edited into the
    removed-user card. *)
Definition reports_removal (evs : list Event) : Prop :=
  exists user, Sent (EditMessageText (Admin.removed_message user) None) ∈ evs.

(** A call to Telegram, as opposed to console output or a forward. *)
Definition is_sent (ev : Event) : Prop :=
  match ev with
  | Sent _ => True
  | _ => False
  end.

#[global] Instance is_sent_dec ev : Decision (is_sent ev).
Proof. destruct ev; simpl; apply _. Defined.

(** The row the user discovery inserts for the sender of [ctx]. *)
Definition discovered_user (ctx : Context) (userId : string)
  : NewManagedUser :=
  mkNewUser userId (sender_name ctx "Unknown") (sender_username ctx)
            (Some PENDING) None.

(** The request the user discovery sends to the operator. *)
Definition user_request (env : Env) (ctx : Context) (userId : string)
  : ApiCall :=
  SendMessage (BOT_ADMIN_TELEGRAM_ID env)
    (GroupGate.user_request_text (sender_name ctx "Unknown")
                                 (sender_username ctx) userId)
    (GroupGate.approval_keyboard "user" userId).

(** Where a handler of the gate with discovery stands while it serves an
    event of an unknown sender in an allowed group: before the group
    lookup, before the user lookup, before the insert, before the
    request to the operator, before its last console line (after the
    request, or after a failed insert), or returned (having sent the
    request, or not). *)
Inductive Phase : Type :=
| LookupGroup | LookupUser | Create | Notify | LogDone | LogError
| FinishedSent | FinishedQuiet.

Definition user_discovery_logline (ctx : Context) (userId : string)
  : string :=
  "[User Discovery] New user " +:+ sender_name ctx "Unknown" +:+ " (" +:+
  userId +:+ ") added as pending".

(** The rest of the handler in each phase. *)
Definition prog_of (env : Env) (ctx : Context) (userId : string)
    (ph : Phase) : Prog unit :=
  match ph with
  | LookupGroup => GroupGate.accessControl env ctx
  | LookupUser =>
      let! user := db (findUserByTelegramId userId) in
      match user with
      | None => GroupGate.triggerUserDiscovery env ctx userId
      | Some user =>
          if decide (user_status user <> ALLOWED) then Ret tt else next
      end
  | Create => GroupGate.triggerUserDiscovery env ctx userId
  | Notify =>
      try_catch
        (do! api (user_request env ctx userId) in
         console_log (user_discovery_logline ctx userId))
        (fun error => console_error "[User Discovery] Error:" (Some error))
  | LogDone => console_log (user_discovery_logline ctx userId)
  | LogError =>
      console_error "[User Discovery] Error:"
                    (Some (UniqueViolation "managed_user.telegram_id"))
  | FinishedSent | FinishedQuiet => Ret tt
  end.

(** The handler has inserted the row. *)
Definition winner (ph : Phase) : bool :=
  match ph with
  | Notify | LogDone | FinishedSent => true
  | _ => false
  end.

(** The handler has sent the request. *)
Definition notified (ph : Phase) : bool :=
  match ph with
  | LogDone | FinishedSent => true
  | _ => false
  end.

(** The handler has not reached the insert yet. *)
Definition early (ph : Phase) : bool :=
  match ph with
  | LookupGroup | LookupUser | Create => true
  | _ => false
  end.

Definition returned (ph : Phase) : bool :=
  match ph with
  | FinishedSent | FinishedQuiet => true
  | _ => false
  end.

(** How many handlers satisfy [f]. *)
Definition tally {A : Type} (f : A -> bool) (phs : list A) : nat :=
  length (filter (fun ph => f ph = true) phs).

(** The store once the row of the sender has been inserted at time [t]. *)
Definition store_with (s0 : Store) (row : ManagedUser) : Store :=
  mkStore (users s0 ++ [row]) (groups s0) (user_seq s0 + 1) (group_seq s0).

(** What holds of the world and the handlers in flight at every moment
    of a concurrent user discovery started in [w0]. *)
Definition discovery_invariant (env : Env) (ctx : Context)
    (userId : string) (w0 w : World) (phs : list Phase) : Prop :=
  (tally winner phs <= 1)%nat
  /\ (tally winner phs = 0%nat -> store w = store w0
                                  /\ Forall (fun ph => early ph = true) phs)
  /\ (tally winner phs = 1%nat ->
        exists t, store w
                  = store_with (store w0)
                      (inserted_user (user_seq (store w0) + 1) t
                                     (discovered_user ctx userId)))
  /\ exists evs, trace w = trace w0 ++ evs
                 /\ filter is_sent evs
                    = replicate (tally notified phs)
                                (Sent (user_request env ctx userId)).

(** The group a lookup by telegram id returns. *)
Definition stored_group (s : Store) (telegramId : string)
  : option ManagedGroup :=
  head (filter (group_by_telegramId telegramId) (groups s)).

(** The row the group discovery inserts for the chat of [ctx]. *)
Definition discovered_group (ctx : Context) (chatId : string)
  : NewManagedGroup :=
  mkNewGroup chatId (or_else (ctx_chat ctx ≫= chat_title) "Unknown Group")
             (Some PENDING).

(** The request the group discovery sends to the operator. *)
Definition group_request (env : Env) (ctx : Context) (chatId : string)
  : ApiCall :=
  SendMessage (BOT_ADMIN_TELEGRAM_ID env)
    (GroupGate.group_request_text
       (or_else (ctx_chat ctx ≫= chat_title) "Unknown Group") chatId
       (sender_name ctx "Unknown") (sender_username ctx)
       (getUserTelegramId ctx))
    (GroupGate.approval_keyboard "group" chatId).

Definition group_discovery_logline (ctx : Context) (chatId : string)
  : string :=
  "[Group Discovery] New group " +:+
  or_else (ctx_chat ctx ≫= chat_title) "Unknown Group" +:+ " (" +:+
  chatId +:+ ") added as pending".

(** The catch block of the group discovery. *)
Definition group_discovery_catch (error : Error) : Prog unit :=
  console_error "[Group Discovery] Error:" (Some error).

(** Where a handler of the gate with discovery stands while it serves an
    event of an unknown sender in an unknown group: before the group
    lookup, before the insert of the group, before the insert of the
    sender, before the request to the operator, before its last console
    line (after the request, or after a failed insert), or returned
    (having sent the request, or not). *)
Inductive GroupPhase : Type :=
| GLookup | GCreateGroup | GCreateUser | GNotify | GLogDone | GLogError
| GFinishedSent | GFinishedQuiet.

(** The rest of the handler in each phase. *)
Definition group_prog_of (env : Env) (ctx : Context)
    (chatId userId : string) (ph : GroupPhase) : Prog unit :=
  match ph with
  | GLookup => GroupGate.accessControl env ctx
  | GCreateGroup => GroupGate.triggerGroupDiscovery env ctx chatId
  | GCreateUser =>
      try_catch
        (do! db (createUser (discovered_user ctx userId)) in
         do! api (group_request env ctx chatId) in
         console_log (group_discovery_logline ctx chatId))
        group_discovery_catch
  | GNotify =>
      try_catch
        (do! api (group_request env ctx chatId) in
         console_log (group_discovery_logline ctx chatId))
        group_discovery_catch
  | GLogDone => console_log (group_discovery_logline ctx chatId)
  | GLogError =>
      group_discovery_catch (UniqueViolation "managed_group.telegram_id")
  | GFinishedSent | GFinishedQuiet => Ret tt
  end.

(** The handler has inserted the group. *)
Definition gwinner (ph : GroupPhase) : bool :=
  match ph with
  | GCreateUser | GNotify | GLogDone | GFinishedSent => true
  | _ => false
  end.

(** The handler has inserted the group and not yet the sender. *)
Definition gcreating (ph : GroupPhase) : bool :=
  match ph with
  | GCreateUser => true
  | _ => false
  end.

Definition gnotified (ph : GroupPhase) : bool :=
  match ph with
  | GLogDone | GFinishedSent => true
  | _ => false
  end.

Definition gearly (ph : GroupPhase) : bool :=
  match ph with
  | GLookup | GCreateGroup => true
  | _ => false
  end.

Definition greturned (ph : GroupPhase) : bool :=
  match ph with
  | GFinishedSent | GFinishedQuiet => true
  | _ => false
  end.

(** The store once the row of the group has been inserted. *)
Definition store_with_group (s0 : Store) (row : ManagedGroup) : Store :=
  mkStore (users s0) (groups s0 ++ [row]) (user_seq s0) (group_seq s0 + 1).

(** What holds of the world and the handlers in flight at every moment
    of a concurrent group discovery started in [w0]. *)
Definition group_discovery_invariant (env : Env) (ctx : Context)
    (chatId userId : string) (w0 w : World) (phs : list GroupPhase)
  : Prop :=
  (tally gwinner phs <= 1)%nat
  /\ (tally gwinner phs = 0%nat ->
      store w = store w0 /\ Forall (fun ph => gearly ph = true) phs)
  /\ (tally gwinner phs = 1%nat ->
      exists t,
        let with_g :=
          store_with_group (store w0)
            (inserted_group (group_seq (store w0) + 1) t
                            (discovered_group ctx chatId)) in
        (tally gcreating phs = 1%nat /\ store w = with_g)
        \/ (tally gcreating phs = 0%nat
            /\ exists t',
                store w
                = store_with with_g
                    (inserted_user (user_seq (store w0) + 1) t'
                                   (discovered_user ctx userId))))
  /\ exists evs, trace w = trace w0 ++ evs
                 /\ filter is_sent evs
                    = replicate (tally gnotified phs)
                                (Sent (group_request env ctx chatId)).

(** The handler that has returned [r] or thrown. *)
Definition ended {A : Type} (r : Error + A) : Prog A :=
  match r with
  | inl e => Throw e
  | inr a => Ret a
  end.

End Statements.
Export Statements.

(** ** Concrete situations *)
Module Scenarios.

(** A run in which the store and Telegram always answer; the clock
    reads the number of awaits so far. *)
Definition env_ok : Env :=
  mkEnv "1000" (fun _ => false) (fun _ => false) (fun n => Z.of_nat n).

(** A run in which the store is unreachable. *)
Definition env_down : Env :=
  mkEnv "1000" (fun _ => true) (fun _ => false) (fun n => Z.of_nat n).

Definition sara : Sender := mkSender 42 "Sara" None.

Definition team_chat : Chat := mkChat (-100) ChatGroup (Some "Team").

(** A message of Sara in the group. *)
Definition group_event : Context :=
  mkContext (Some sara) (Some team_chat) None (Some "hello").

(** Sara pressing a button of the admin panel. *)
Definition panel_click : Context :=
  mkContext (Some sara) (Some (mkChat 42 ChatPrivate None))
            (Some "admin_remove_user:1") None.

Definition sara_row (status : Status) : ManagedUser :=
  mkUser 1 "42" "Sara" None status None 0 0.

Definition team_row (status : Status) : ManagedGroup :=
  mkGroup 1 "-100" "Team" status 0 0.

Definition world_of (us : list ManagedUser) (gs : list ManagedGroup)
  : World :=
  mkWorld (mkStore us gs (Z.of_nat (length us)) (Z.of_nat (length gs)))
          ∅ [] 0.

Definition empty_world : World := world_of [] [].

(** Sara is stored and waits for approval. *)
Definition pending_world : World := world_of [sara_row PENDING] [].

Definition office_row : ManagedGroup :=
  mkGroup 1 "-200" "Office" ALLOWED 0 0.

(** Sara is an approved user, known from the Office group; the Team
    group she now writes in is new. *)
Definition known_sender_world : World :=
  world_of [sara_row ALLOWED] [office_row].

Definition job_one : Job := mkJob 1 "offday reminder" None 50 None JOB_PENDING 0.
Definition job_two : Job := mkJob 2 "custom notification" None 60 None JOB_PENDING 0.
Definition job_later : Job := mkJob 3 "offday reminder" None 500 None JOB_PENDING 0.

Definition some_jobs : list Job := [job_one; job_two; job_later].

(** An executor that fails on job 2 only. *)
Definition picky_executor (j : Job) : bool := negb (Z.eqb (job_id j) 2).

End Scenarios.

(** ** src/db/queries/group.ts, the queries by internal id and the lists *)
Module GroupTable.

Definition group_by_id (id : Z) (g : ManagedGroup) : Prop := group_id g = id.

#[global] Instance group_by_id_dec i g : Decision (group_by_id i g).
Proof. unfold group_by_id. apply _. Defined.

(** [select ... where id = ? limit 1], then [result[0]]. *)
Definition findGroupById (id : Z) : Query (option ManagedGroup) :=
  fun _ s => inr (s, head (filter (group_by_id id) (groups s))).

Definition set_group_status (status : Status) (now : Z) (g : ManagedGroup)
  : ManagedGroup :=
  mkGroup (group_id g) (group_telegramId g) (group_title g) status
          (group_createdAt g) now.

(** [update ... set { status, updatedAt } where id = ? returning], then
    [result[0]], which is [undefined] when no row matched. *)
Definition updateGroupStatus (id : Z) (status : Status)
  : Query (option ManagedGroup) :=
  fun now s =>
    inr (mkStore (users s)
                 (map (fun g => if decide (group_by_id id g)
                                then set_group_status status now g else g)
                      (groups s))
                 (user_seq s) (group_seq s),
         head (map (set_group_status status now)
                   (filter (group_by_id id) (groups s)))).

Definition deleteGroup (id : Z) : Query unit :=
  fun _ s =>
    inr (mkStore (users s) (filter (fun g => ~ group_by_id id g) (groups s))
                 (user_seq s) (group_seq s), tt).

Definition group_status_asc (g h : ManagedGroup) : Prop :=
  (status_rank (group_status g) <= status_rank (group_status h))%nat.

#[global] Instance group_status_asc_dec g h : Decision (group_status_asc g h).
Proof. unfold group_status_asc. apply _. Defined.

Definition getAllGroups : Query (list ManagedGroup) :=
  fun _ s => inr (s, merge_sort group_status_asc (groups s)).

(** [grouped.<key>.push(group)]. *)
Definition push_group (key : string) (g : ManagedGroup)
    (grouped : gmap string (list ManagedGroup))
  : gmap string (list ManagedGroup) :=
  alter (fun l => (l ++ [g])%list) key grouped.

(** The body of the [for (const group of allGroups)] loop. *)
Definition place_group (grouped : gmap string (list ManagedGroup))
    (group : ManagedGroup) : gmap string (list ManagedGroup) :=
  if decide (group_status group = ALLOWED)
  then push_group "allowed" group grouped
  else if decide (group_status group = PENDING)
       then push_group "pending" group grouped
  else if decide (group_status group = REJECTED)
       then push_group "rejected" group grouped
  else grouped.

Definition empty_group_lists : gmap string (list ManagedGroup) :=
  <["allowed" := []]> (<["pending" := []]> (<["rejected" := []]> ∅)).

Definition getAllGroupsGroupedByStatus
  : Query (gmap string (list ManagedGroup)) :=
  fun _ s =>
    inr (s, foldl place_group empty_group_lists
                  (merge_sort group_status_asc (groups s))).

End GroupTable.
Export GroupTable.

(** ** src/bot/handlers/admin.ts, the commands and the add-user dialogue of
    the button panel *)
Module AdminPanel.

Import Admin.

Definition unauthorized_reply : ApiCall :=
  Reply "⛔ Unauthorized. This command is only for the super admin." None.

(** The handler of [/admin]: render the admin menu with buttons. *)
Definition admin_command (env : Env) (ctx : Context) : Prog unit :=
  do! console_log "[Admin] /admin command received" in
  if negb (chat_is ctx ChatPrivate) then
    console_log "[Admin] Not private chat"
  else
    let userId := getUserTelegramId ctx in
    if negb (bool_decide (userId = Some (BOT_ADMIN_TELEGRAM_ID env))) then
      do! console_log ("[Admin] Not admin, user: " +:+ render userId +:+
                       " admin: " +:+ BOT_ADMIN_TELEGRAM_ID env) in
      api unauthorized_reply
    else
      do! console_log "[Admin] Admin confirmed, showing menu" in
      api (Reply (panel_message "از دکمه‌های زیر استفاده کنید:")
                 (Some buildAdminMainMenuKeyboard)).

(** One status section of the list sent by [/users]. *)
Definition command_section (header : string) (us : list ManagedUser)
  : string :=
  match us with
  | [] => EmptyString
  | _ =>
      header +:+ nl +:+
      concat_lines
        (map (fun u => "• " +:+ display_name u +:+ nl +:+
                       "  🆔 <code>" +:+ user_telegramId u +:+ "</code>"
                       +:+ nl +:+ nl) us)
  end.

Definition users_command_message (grouped : gmap string (list ManagedUser))
  : string :=
  let message := "👥 <b>لیست کاربران</b>" +:+ nl +:+ nl in
  let message :=
    message +:+ command_section "✅ <b>فعال</b>" (bucket grouped "allowed") in
  let message :=
    message +:+
    command_section "⏳ <b>در انتظار</b>" (bucket grouped "pending") in
  let message :=
    message +:+
    command_section "❌ <b>رد شده</b>" (bucket grouped "rejected") in
  if (Nat.eqb (length (bucket grouped "allowed")) 0 &&
      Nat.eqb (length (bucket grouped "pending")) 0 &&
      Nat.eqb (length (bucket grouped "rejected")) 0)%bool
  then message +:+ "هیچ کاربری یافت نشد."
  else message.

Definition users_command_keyboard (grouped : gmap string (list ManagedUser))
  : list (list Button) :=
  concat (map user_rows (bucket grouped "pending" ++
                         bucket grouped "allowed" ++
                         bucket grouped "rejected")).

(** The handler of [/users]: list all users with action buttons. *)
Definition users_command (env : Env) (ctx : Context) : Prog unit :=
  do! console_log "[Admin] /users command received" in
  if negb (chat_is ctx ChatPrivate) then
    console_log "[Admin] Not private chat"
  else
    let userId := getUserTelegramId ctx in
    if negb (bool_decide (userId = Some (BOT_ADMIN_TELEGRAM_ID env))) then
      do! console_log "[Admin] Not admin" in
      api unauthorized_reply
    else
      try_catch
        (let! grouped := db getAllUsersGroupedByStatus in
         api (Reply (users_command_message grouped)
                    (Some (users_command_keyboard grouped))))
        (fun error =>
           do! console_error "[Admin] Error fetching users:" (Some error) in
           api (Reply "❌ Error fetching users." None)).

Definition added_message (telegramId text : string) : string :=
  "✅ کاربر با موفقیت افزوده شد:" +:+ nl +:+ nl +:+
  "🆔 <code>" +:+ telegramId +:+ "</code>" +:+ nl +:+ "👤 " +:+ text.

(** The handler registered with [bot.on("message:text")], which serves
    the add-user dialogue. [inputs] is the [adminPendingInputs] map as
    the handler finds it: the [get] comes before the first await. The
    try block yields [true] where the source returns from inside it. *)
Definition pending_text (env : Env) (ctx : Context)
    (inputs : gmap string PendingInput) : Prog unit :=
  match nonempty (getUserTelegramId ctx) with
  | None => Ret tt
  | Some telegramId =>
      if negb (bool_decide (telegramId = BOT_ADMIN_TELEGRAM_ID env))
      then Ret tt
      else
        match inputs !! telegramId with
        | None => Ret tt
        | Some pending =>
            match nonempty (ctx_message_text ctx) with
            | None => Ret tt
            | Some text =>
                if starts_with "/" text then
                  update_inputs (delete telegramId)
                else
                  match pending_step pending with
                  | StepTelegramId =>
                      do! update_inputs
                            (insert telegramId
                                    (mkPending StepName (Some text))) in
                      api (Reply "لطفاً نام کاربر را ارسال کنید:"
                                 (Some buildCancelKeyboard))
                  | StepName =>
                      match nonempty (pending_telegramId pending) with
                      | None =>
                          do! api (Reply "❌ خطا: شناسه تلگرام یافت نشد."
                                         None) in
                          update_inputs (delete telegramId)
                      | Some newId =>
                          let! returned :=
                            try_catch
                              (let! existingUser :=
                                 db (findUserByTelegramId newId) in
                               match existingUser with
                               | Some _ =>
                                   do! api (Reply "❌ کاربر با این شناسه تلگرام قبلاً وجود دارد." None) in
                                   do! update_inputs (delete telegramId) in
                                   Ret true
                               | None =>
                                   do! db (createUser
                                             (mkNewUser newId text None
                                                        (Some ALLOWED)
                                                        None)) in
                                   do! api (Reply (added_message newId text)
                                                  None) in
                                   Ret false
                               end)
                              (fun error =>
                                 do! console_error
                                       "[Admin] Error creating user:"
                                       (Some error) in
                                 do! api (Reply "❌ Error creating user."
                                                None) in
                                 Ret false) in
                          if (returned : bool) then Ret tt
                          else update_inputs (delete telegramId)
                      end
                  end
            end
        end
  end.

End AdminPanel.

(** ** src/bot/handlers/admin.ts, the other slash commands on users and
    groups *)
Module SlashCommands.

(** The handler of [/allowuser <userId>], behind [adminOnly]. *)
Definition allowuser_handler (ctx : Context) : Prog unit :=
  match ctx_message_text ctx with
  | None => Ret tt
  | Some text =>
      let args := split_on " " text in
      match nonempty (args !! 1%nat) with
      | None =>
          api (Reply ("⚠️ Usage: /allowuser <userId>" +:+ nl +:+ nl +:+
                      "Example: /allowuser 123") None)
      | Some userId =>
          match parseInt userId with
          | None =>
              api (Reply "❌ Invalid user ID. Please provide a numeric ID."
                         None)
          | Some id =>
              try_catch
                (let! user := db (findUserById id) in
                 match user with
                 | None =>
                     api (Reply ("❌ User with ID " +:+ pretty id +:+
                                 " not found.") None)
                 | Some user =>
                     do! db (updateUserStatus id ALLOWED) in
                     let name := Admin.display_name user in
                     do! api (Reply ("✅ User <b>" +:+ dq +:+ name +:+ dq
                                     +:+ "</b> (ID: <code>" +:+ pretty id
                                     +:+ "</code>) has been allowed.")
                                    None) in
                     console_log ("[Admin] User " +:+ name +:+ " (ID: " +:+
                                  pretty id +:+ ") allowed by admin")
                 end)
                (fun error =>
                   do! console_error "[Admin] Error allowing user:"
                                     (Some error) in
                   api (Reply "❌ Error allowing user." None))
          end
      end
  end.

(** The handler of [/rejectuser <userId>], behind [adminOnly]. *)
Definition rejectuser_handler (ctx : Context) : Prog unit :=
  match ctx_message_text ctx with
  | None => Ret tt
  | Some text =>
      let args := split_on " " text in
      match nonempty (args !! 1%nat) with
      | None =>
          api (Reply ("⚠️ Usage: /rejectuser <userId>" +:+ nl +:+ nl +:+
                      "Example: /rejectuser 123") None)
      | Some userId =>
          match parseInt userId with
          | None =>
              api (Reply "❌ Invalid user ID. Please provide a numeric ID."
                         None)
          | Some id =>
              try_catch
                (let! user := db (findUserById id) in
                 match user with
                 | None =>
                     api (Reply ("❌ User with ID " +:+ pretty id +:+
                                 " not found.") None)
                 | Some user =>
                     do! db (updateUserStatus id REJECTED) in
                     let name := Admin.display_name user in
                     do! api (Reply ("❌ User <b>" +:+ dq +:+ name +:+ dq
                                     +:+ "</b> (ID: <code>" +:+ pretty id
                                     +:+ "</code>) has been rejected.")
                                    None) in
                     console_log ("[Admin] User " +:+ name +:+ " (ID: " +:+
                                  pretty id +:+ ") rejected by admin")
                 end)
                (fun error =>
                   do! console_error "[Admin] Error rejecting user:"
                                     (Some error) in
                   api (Reply "❌ Error rejecting user." None))
          end
      end
  end.

(** The handler of [/allowgroup <groupId>], behind [adminOnly]. *)
Definition allowgroup_handler (ctx : Context) : Prog unit :=
  match ctx_message_text ctx with
  | None => Ret tt
  | Some text =>
      let args := split_on " " text in
      match nonempty (args !! 1%nat) with
      | None =>
          api (Reply ("⚠️ Usage: /allowgroup <groupId>" +:+ nl +:+ nl +:+
                      "Example: /allowgroup 123") None)
      | Some groupId =>
          match parseInt groupId with
          | None =>
              api (Reply "❌ Invalid group ID. Please provide a numeric ID."
                         None)
          | Some id =>
              try_catch
                (let! group := db (findGroupById id) in
                 match group with
                 | None =>
                     api (Reply ("❌ Group with ID " +:+ pretty id +:+
                                 " not found.") None)
                 | Some group =>
                     do! db (updateGroupStatus id ALLOWED) in
                     do! api (Reply ("✅ Group <b>" +:+ dq +:+
                                     group_title group +:+ dq
                                     +:+ "</b> (ID: <code>" +:+ pretty id
                                     +:+ "</code>) has been allowed.")
                                    None) in
                     console_log ("[Admin] Group " +:+ group_title group +:+
                                  " (ID: " +:+ pretty id +:+
                                  ") allowed by admin")
                 end)
                (fun error =>
                   do! console_error "[Admin] Error allowing group:"
                                     (Some error) in
                   api (Reply "❌ Error allowing group." None))
          end
      end
  end.

(** The handler of [/rejectgroup <groupId>], behind [adminOnly]. *)
Definition rejectgroup_handler (ctx : Context) : Prog unit :=
  match ctx_message_text ctx with
  | None => Ret tt
  | Some text =>
      let args := split_on " " text in
      match nonempty (args !! 1%nat) with
      | None =>
          api (Reply ("⚠️ Usage: /rejectgroup <groupId>" +:+ nl +:+ nl +:+
                      "Example: /rejectgroup 123") None)
      | Some groupId =>
          match parseInt groupId with
          | None =>
              api (Reply "❌ Invalid group ID. Please provide a numeric ID."
                         None)
          | Some id =>
              try_catch
                (let! group := db (findGroupById id) in
                 match group with
                 | None =>
                     api (Reply ("❌ Group with ID " +:+ pretty id +:+
                                 " not found.") None)
                 | Some group =>
                     do! db (updateGroupStatus id REJECTED) in
                     do! api (Reply ("❌ Group <b>" +:+ dq +:+
                                     group_title group +:+ dq
                                     +:+ "</b> (ID: <code>" +:+ pretty id
                                     +:+ "</code>) has been rejected.")
                                    None) in
                     console_log ("[Admin] Group " +:+ group_title group +:+
                                  " (ID: " +:+ pretty id +:+
                                  ") rejected by admin")
                 end)
                (fun error =>
                   do! console_error "[Admin] Error rejecting group:"
                                     (Some error) in
                   api (Reply "❌ Error rejecting group." None))
          end
      end
  end.

(** The handler of [/removegroup <groupId>], behind [adminOnly]. *)
Definition removegroup_handler (ctx : Context) : Prog unit :=
  match ctx_message_text ctx with
  | None => Ret tt
  | Some text =>
      let args := split_on " " text in
      match nonempty (args !! 1%nat) with
      | None =>
          api (Reply ("⚠️ Usage: /removegroup <groupId>" +:+ nl +:+ nl +:+
                      "Example: /removegroup 123") None)
      | Some groupId =>
          match parseInt groupId with
          | None =>
              api (Reply "❌ Invalid group ID. Please provide a numeric ID."
                         None)
          | Some id =>
              try_catch
                (let! group := db (findGroupById id) in
                 match group with
                 | None =>
                     api (Reply ("❌ Group with ID " +:+ pretty id +:+
                                 " not found.") None)
                 | Some group =>
                     do! db (deleteGroup id) in
                     do! api (Reply ("🗑️ Group <b>" +:+ dq +:+
                                     group_title group +:+ dq
                                     +:+ "</b> (ID: <code>" +:+ pretty id
                                     +:+ "</code>) has been removed.")
                                    None) in
                     console_log ("[Admin] Group " +:+ group_title group +:+
                                  " (ID: " +:+ pretty id +:+
                                  ") removed by admin")
                 end)
                (fun error =>
                   do! console_error "[Admin] Error removing group:"
                                     (Some error) in
                   api (Reply "❌ Error removing group." None))
          end
      end
  end.

(** The commands as [setupAdminHandlers] registers them. *)
Definition allowuser (env : Env) (ctx : Context) : Prog unit :=
  GroupGate.adminOnly env ctx (allowuser_handler ctx).

Definition rejectuser (env : Env) (ctx : Context) : Prog unit :=
  GroupGate.adminOnly env ctx (rejectuser_handler ctx).

Definition allowgroup (env : Env) (ctx : Context) : Prog unit :=
  GroupGate.adminOnly env ctx (allowgroup_handler ctx).

Definition rejectgroup (env : Env) (ctx : Context) : Prog unit :=
  GroupGate.adminOnly env ctx (rejectgroup_handler ctx).

Definition removegroup (env : Env) (ctx : Context) : Prog unit :=
  GroupGate.adminOnly env ctx (removegroup_handler ctx).

End SlashCommands.

(** ** Further vocabulary *)
Module Vocabulary.

(** Whether the character [c] occurs in [s]. *)
Fixpoint occurs (c : ascii) (s : string) : bool :=
  match s with
  | EmptyString => false
  | String a rest => Ascii.eqb a c || occurs c rest
  end.

(** The store a query leaves behind; a query that throws leaves the
    store as it was. *)
Definition after {R : Type} (q : Query R) (now : Z) (s : Store) : Store :=
  match q now s with
  | inr (s', _) => s'
  | inl _ => s
  end.


(** The constraints of [managed_user] in src/db/schema.ts: [telegram_id]
    is unique, [id] is the primary key, handed out by the autoincrement
    counter. *)
Definition keys_unique (s : Store) : Prop :=
  NoDup (user_telegramId <$> users s)
  /\ NoDup (user_id <$> users s)
  /\ Forall (fun u => user_id u <= user_seq s) (users s).

(** The object [{ allowed, pending, rejected }] of group lists. *)
Definition three_group_lists (allowed pending rejected : list ManagedGroup)
  : gmap string (list ManagedGroup) :=
  <["allowed" := allowed]>
    (<["pending" := pending]> (<["rejected" := rejected]> ∅)).

Definition group_has_status (st : Status) (g : ManagedGroup) : Prop :=
  group_status g = st.

#[global] Instance group_has_status_dec st g
  : Decision (group_has_status st g).
Proof. unfold group_has_status. apply _. Defined.

(** The row of [managed_group] that a lookup by internal id returns. *)
Definition stored_group_by_id (s : Store) (id : Z) : option ManagedGroup :=
  head (filter (group_by_id id) (groups s)).

(** Whom the gate with discovery serves in store [s]: the operator in a
    private chat; in a group or supergroup that is stored as allowed, a
    sender who is stored as allowed, or an update without a sender. *)
Definition admitted (env : Env) (s : Store) (ctx : Context) : bool :=
  match ctx_chat ctx with
  | None => false
  | Some chat =>
      match chat_type chat with
      | ChatPrivate => GroupGate.isAdmin env ctx
      | ChatGroup | ChatSupergroup =>
          bool_decide (group_status <$> stored_group s (pretty (chat_id chat))
                       = Some ALLOWED)
          && match ctx_from ctx with
             | None => true
             | Some sender =>
                 bool_decide (user_status <$> stored_user s (sender_id sender)
                              = Some ALLOWED)
             end
      | ChatChannel => false
      end
  end.

(** The requester is the configured operator. *)
Definition from_operator (env : Env) (ctx : Context) : Prop :=
  getUserTelegramId ctx = Some (BOT_ADMIN_TELEGRAM_ID env).

(** What the operator sees of a successful rejection from the
    notification. *)
Definition rejection_report (user : ManagedUser) (telegramId : string)
  : list Event :=
  [Sent (EditMessageText (Discovery.rejected_message user telegramId) None);
   Sent (AnswerCallbackQuery (Some "❌ User rejected") false);
   Logged (ConsoleLog ("[Discovery] User " +:+ user_name user +:+ " (" +:+
                       telegramId +:+ ") rejected"))].

Definition not_found_alert : Event :=
  Sent (AnswerCallbackQuery (Some "❌ User not found") true).

(** What the notification handler does about an exception. *)
Definition resolver_failure_report (e : Error) : list Event :=
  [Logged (ConsoleError "[Discovery Handler] Error:" (Some e));
   Sent (AnswerCallbackQuery (Some "❌ Error processing request") true)].

(** What a status update of the row with internal id [id], done at time
    [t], makes of a row. *)
Definition set_status_of (id : Z) (status : Status) (t : Z)
    (r : ManagedUser) : ManagedUser :=
  if decide (by_id id r) then set_status status t r else r.

(** The callback query of a press on button [b] by the sender of
    [ctx]. *)
Definition pressing (ctx : Context) (b : Button) : Context :=
  mkContext (ctx_from ctx) (ctx_chat ctx) (Some (callback_data b)) None.

(** The bare acknowledgement of a callback query. *)
Definition acknowledgement : Event := Sent (AnswerCallbackQuery None false).

Definition invalid_id_reply : Event :=
  Sent (Reply "❌ شناسه نامعتبر است." None).

(** A text message with the sender and the chat of [ctx]. *)
Definition saying (ctx : Context) (text : string) : Context :=
  mkContext (ctx_from ctx) (ctx_chat ctx) None (Some text).

(** The text handler of the add-user dialogue, as the dispatcher starts
    it in world [w]: it reads the pending inputs of that moment. *)
Definition on_text (env : Env) (ctx : Context) (w : World)
  : World * (Error + unit) :=
  run env (AdminPanel.pending_text env ctx (adminPendingInputs w)) w.

(** The callback handler of the panel on a press of button [b]. *)
Definition on_press (env : Env) (ctx : Context) (b : Button) (w : World)
  : World * (Error + unit) :=
  run env (Admin.admin_callback env (pressing ctx b)) w.

(** The two buttons of the dialogue. *)
Definition add_user_button : Button :=
  mkButton "➕ افزودن کاربر" Admin.ADD_USER.


(** A text the dialogue takes as an answer: not empty and not a
    command. *)
Definition answer_text (text : string) : Prop :=
  text <> EmptyString /\ starts_with "/" text = false.

(** The text of a slash command with a numeric argument. *)
Definition command_text (command : string) (id : Z) : string :=
  "/" +:+ command +:+ " " +:+ pretty id.

(** The slash commands of admin.ts on users and on groups, as
    registered behind [adminOnly]. *)
Definition user_commands : list (Env -> Context -> Prog unit) :=
  [SlashCommands.allowuser; SlashCommands.rejectuser;
   AdminCommands.removeuser].

Definition group_commands : list (Env -> Context -> Prog unit) :=
  [SlashCommands.allowgroup; SlashCommands.rejectgroup;
   SlashCommands.removegroup].

(** What a status update of the group with internal id [id], done at
    time [t], makes of a row. *)
Definition set_group_status_of (id : Z) (status : Status) (t : Z)
    (g : ManagedGroup) : ManagedGroup :=
  if decide (group_by_id id g) then set_group_status status t g else g.

(** What the callback handler of the panel does about an exception. *)
Definition panel_failure_report (e : Error) : list Event :=
  [Logged (ConsoleError "[Admin] Error handling callback:" (Some e));
   Sent (Reply "❌ Error processing request." None)].

End Vocabulary.
Export Vocabulary.

(** * Properties *)

(** ** Text and numbers *)
Section TextFacts.

Lemma pretty_N_go_length (x : N) (s : string) :
  (String.length s <= String.length (pretty_N_go x s))%nat.
Proof.
  revert s. induction (N.lt_wf_0 x) as [x _ IH]; intros s.
  destruct (decide (x = 0%N)) as [->|Hx].
  - by rewrite pretty_N_go_0.
  - rewrite pretty_N_go_step by lia.
    etrans; [|apply IH; apply N.div_lt; lia]. simpl. lia.
Qed.

Lemma pretty_Z_nonempty (z : Z) : pretty z <> EmptyString.
Proof.
  destruct z as [|p|p]; [done| |done].
  unfold pretty, pretty_Z, pretty, pretty_positive, pretty, pretty_N.
  case_decide; [done|].
  rewrite pretty_N_go_step by lia.
  intros Heq.
  pose proof (pretty_N_go_length (N.pos p `div` 10)
                (String (pretty_N_char (N.pos p `mod` 10)) EmptyString))
    as Hl.
  rewrite Heq in Hl. simpl in Hl. lia.
Qed.

Lemma nonempty_pretty (z : Z) : nonempty (Some (pretty z)) = Some (pretty z).
Proof.
  unfold nonempty.
  destruct (String.eqb_spec (pretty z) EmptyString) as [E|]; [|done].
  by destruct (pretty_Z_nonempty z).
Qed.

Lemma truthy_pretty (z : Z) : truthy (Some (pretty z)) = true.
Proof.
  unfold truthy.
  destruct (String.eqb_spec (pretty z) EmptyString) as [E|]; [|done].
  by destruct (pretty_Z_nonempty z).
Qed.

Example split_on_colon :
  split_on ":" "approve_user:42" = ["approve_user"; "42"].
Proof. reflexivity. Qed.

Example split_on_two_spaces :
  split_on " " "/removeuser  7" = ["/removeuser"; EmptyString; "7"].
Proof. reflexivity. Qed.

Example parseInt_digits : parseInt "42" = Some 42.
Proof. reflexivity. Qed.

Example parseInt_prefix : parseInt " -12abc" = Some (-12).
Proof. reflexivity. Qed.

Example parseInt_nan : parseInt "abc" = None.
Proof. reflexivity. Qed.

Example pretty_negative : pretty (-100) = "-100".
Proof. reflexivity. Qed.

End TextFacts.

(** ** The admin keyboard *)

(** C10. For every user id and status text, the action keyboard offers
    Approve exactly when the status is not allowed, Reject exactly when it
    is not rejected, and always offers Remove. *)
Theorem buildUserActionKeyboard_actions (userId : Z) (status : string) :
  let keyboard := Admin.buildUserActionKeyboard userId status in
  offers Admin.APPROVE_USER keyboard
    = negb (String.eqb status (StatusEnum ALLOWED))
  /\ offers Admin.REJECT_USER keyboard
    = negb (String.eqb status (StatusEnum REJECTED))
  /\ offers Admin.REMOVE_USER keyboard = true
  /\ Admin.remove_button userId ∈ keyboard.
Proof.
  unfold Admin.buildUserActionKeyboard.
  destruct (String.eqb status (StatusEnum ALLOWED)) eqn:Ea;
    destruct (String.eqb status (StatusEnum REJECTED)) eqn:Er;
    cbn -[pretty offers].
  all: repeat split; try (apply list_elem_of_In; simpl; tauto).
  all: cbv -[pretty]; reflexivity.
Qed.

(** ** Grouping the user table by status *)
Section Grouping.

Lemma group_one_three_lists (a p r : list ManagedUser) (u : ManagedUser) :
  group_one (three_lists a p r) u
  = three_lists (a ++ filter (has_status ALLOWED) [u])
                (p ++ filter (has_status PENDING) [u])
                (r ++ filter (has_status REJECTED) [u]).
Proof.
  unfold group_one, three_lists, push, has_status.
  destruct u as [i t n un st pt c up]; destruct st; simpl.
  all: rewrite ?filter_cons_True, ?filter_cons_False, ?filter_nil by done.
  all: rewrite ?app_nil_r.
  - rewrite alter_insert_ne, alter_insert_eq; done.
  - rewrite alter_insert_eq; done.
  - rewrite alter_insert_ne, alter_insert_ne, alter_insert_eq; done.
Qed.

Lemma foldl_group_one (l a p r : list ManagedUser) :
  foldl group_one (three_lists a p r) l
  = three_lists (a ++ filter (has_status ALLOWED) l)
                (p ++ filter (has_status PENDING) l)
                (r ++ filter (has_status REJECTED) l).
Proof.
  revert a p r. induction l as [|u l IH]; intros a p r.
  - by rewrite !filter_nil, !app_nil_r.
  - simpl foldl. rewrite group_one_three_lists, IH.
    rewrite <- !app_assoc, <- !filter_app. done.
Qed.

Lemma status_split (l : list ManagedUser) :
  filter (has_status ALLOWED) l ++ filter (has_status PENDING) l
    ++ filter (has_status REJECTED) l ≡ₚ l.
Proof.
  induction l as [|u l IH]; [done|].
  destruct (user_status u) eqn:E.
  - rewrite (filter_cons_False (has_status ALLOWED)),
      (filter_cons_True (has_status PENDING)),
      (filter_cons_False (has_status REJECTED))
      by (unfold has_status; congruence).
    simpl. by rewrite <- Permutation_middle, IH.
  - rewrite (filter_cons_True (has_status ALLOWED)),
      (filter_cons_False (has_status PENDING)),
      (filter_cons_False (has_status REJECTED))
      by (unfold has_status; congruence).
    simpl. by rewrite IH.
  - rewrite (filter_cons_False (has_status ALLOWED)),
      (filter_cons_False (has_status PENDING)),
      (filter_cons_True (has_status REJECTED))
      by (unfold has_status; congruence).
    rewrite app_assoc, <- Permutation_middle, <- app_assoc. by rewrite IH.
Qed.

End Grouping.

(** C9. For every state of the user table the grouped result is the object
    with exactly the keys allowed, pending and rejected; each list holds
    only users of its status, and the three lists together are a
    rearrangement of the stored users, so no user is dropped or
    duplicated. *)
Theorem getAllUsersGroupedByStatus_partition (now : Z) (s : Store) :
  exists allowed pending rejected : list ManagedUser,
    getAllUsersGroupedByStatus now s
      = inr (s, three_lists allowed pending rejected)
    /\ dom (three_lists allowed pending rejected)
       = ({["allowed"; "pending"; "rejected"]} : gset string)
    /\ Forall (has_status ALLOWED) allowed
    /\ Forall (has_status PENDING) pending
    /\ Forall (has_status REJECTED) rejected
    /\ allowed ++ pending ++ rejected ≡ₚ users s.
Proof.
  set (all := merge_sort status_asc (users s)).
  exists (filter (has_status ALLOWED) all), (filter (has_status PENDING) all),
         (filter (has_status REJECTED) all).
  split; [|split; [|repeat split]].
  - unfold getAllUsersGroupedByStatus, group_all, empty_groups.
    fold all. change (<["allowed":=[]]> _) with (three_lists [] [] []).
    by rewrite foldl_group_one.
  - unfold three_lists. rewrite !dom_insert_L, dom_empty_L. set_solver.
  - apply Forall_forall. intros u Hu. by apply list_elem_of_filter in Hu as [? _].
  - apply Forall_forall. intros u Hu. by apply list_elem_of_filter in Hu as [? _].
  - apply Forall_forall. intros u Hu. by apply list_elem_of_filter in Hu as [? _].
  - rewrite status_split. apply merge_sort_Permutation.
Qed.

(** ** The scheduler tick *)
Section Tick.

Import Scheduler.

Variable executor : Job -> bool.
Variable now : Z.

Lemma runJob_ops (w : JobWorld) (j : Job) :
  job_ops (runJob executor now w j) = job_ops w ++ ops_of executor now j.
Proof.
  unfold runJob, ops_of. destruct (executor j); simpl;
    by rewrite <- ?app_assoc.
Qed.

Lemma foldl_runJob_ops (sel : list Job) (w : JobWorld) :
  job_ops (foldl (runJob executor now) w sel)
  = job_ops w ++ concat (map (ops_of executor now) sel).
Proof.
  revert w. induction sel as [|j sel IH]; intros w; simpl.
  - by rewrite app_nil_r.
  - by rewrite IH, runJob_ops, <- app_assoc.
Qed.

Lemma executed_app (l k : list JobOp) :
  executed (l ++ k) = executed l ++ executed k.
Proof. apply omap_app. Qed.

Lemma executed_ops_of (sel : list Job) :
  executed (concat (map (ops_of executor now) sel)) = sel.
Proof.
  induction sel as [|j sel IH]; [done|].
  simpl. rewrite executed_app, IH.
  unfold ops_of. by destruct (executor j).
Qed.

(** A job with another id leaves a row alone. *)
Lemma runJob_keeps (w : JobWorld) (j x : Job) :
  job_id x <> job_id j -> x ∈ jobs w -> x ∈ jobs (runJob executor now w j).
Proof.
  intros Hne Hx. unfold runJob. destruct (executor j); simpl.
  - apply list_elem_of_filter. split; [done|].
    apply list_elem_of_fmap. exists x. by rewrite decide_False.
  - apply list_elem_of_fmap. exists x. by rewrite decide_False.
Qed.

Lemma foldl_runJob_keeps (sel : list Job) (w : JobWorld) (x : Job) :
  Forall (fun j => job_id x <> job_id j) sel ->
  x ∈ jobs w -> x ∈ jobs (foldl (runJob executor now) w sel).
Proof.
  revert w. induction sel as [|j sel IH]; intros w Hall Hx; [done|].
  inversion Hall; subst. simpl. apply IH; [done|]. by apply runJob_keeps.
Qed.

(** No step brings an id back. *)
Lemma runJob_absent (w : JobWorld) (j : Job) (id : Z) :
  Forall (fun x => job_id x <> id) (jobs w) ->
  Forall (fun x => job_id x <> id) (jobs (runJob executor now w j)).
Proof.
  intros Hall. unfold runJob. destruct (executor j); simpl.
  - apply Forall_forall. intros x Hx.
    apply list_elem_of_filter in Hx as [_ Hx].
    apply list_elem_of_fmap in Hx as (y & -> & Hy).
    rewrite Forall_forall in Hall. specialize (Hall y Hy).
    by case_decide.
  - apply Forall_forall. intros x Hx.
    apply list_elem_of_fmap in Hx as (y & -> & Hy).
    rewrite Forall_forall in Hall. specialize (Hall y Hy).
    by case_decide.
Qed.

Lemma foldl_runJob_absent (sel : list Job) (w : JobWorld) (id : Z) :
  Forall (fun x => job_id x <> id) (jobs w) ->
  Forall (fun x => job_id x <> id)
         (jobs (foldl (runJob executor now) w sel)).
Proof.
  revert w. induction sel as [|j sel IH]; intros w Hall; [done|].
  simpl. by apply IH, runJob_absent.
Qed.

Lemma runJob_success_deletes (w : JobWorld) (j : Job) :
  executor j = true ->
  Forall (fun x => job_id x <> job_id j) (jobs (runJob executor now w j)).
Proof.
  intros Hex. unfold runJob. rewrite Hex. simpl.
  apply Forall_forall. intros x Hx. by apply list_elem_of_filter in Hx as [? _].
Qed.

Lemma runJob_failure_marks (w : JobWorld) (j : Job) :
  executor j = false -> j ∈ jobs w ->
  finalized JOB_FAILED now j ∈ jobs (runJob executor now w j).
Proof.
  intros Hex Hj. unfold runJob. rewrite Hex. simpl.
  apply list_elem_of_fmap. exists j. by rewrite decide_True.
Qed.

Lemma ids_apart (l1 l2 : list Job) (j : Job) :
  NoDup (job_id <$> (l1 ++ j :: l2)) ->
  Forall (fun x => job_id j <> job_id x) l1
  /\ Forall (fun x => job_id j <> job_id x) l2.
Proof.
  rewrite fmap_app, fmap_cons. intros Hnd.
  apply NoDup_app in Hnd as (_ & Hcross & Hnd2).
  apply NoDup_cons in Hnd2 as [Hnot _].
  split; apply Forall_forall; intros x Hx Heq.
  - apply (Hcross (job_id x)); [by apply list_elem_of_fmap_2|].
    rewrite <- Heq. left.
  - apply Hnot. rewrite Heq. by apply list_elem_of_fmap_2.
Qed.

Lemma due_ids_NoDup (js : list Job) :
  NoDup (job_id <$> js) -> NoDup (job_id <$> findDueJobs now js).
Proof.
  intros Hnd. unfold findDueJobs.
  eapply sublist_NoDup; [exact Hnd|].
  apply fmap_sublist, sublist_filter.
Qed.

End Tick.

(** C8. In a tick at [now] over a job table with distinct ids, every job
    selected as due is handed to the executor, whatever happened to the
    jobs before it. If its executor succeeds the job is marked completed
    with executedAt = now, then deleted, and no row with its id remains.
    If its executor fails the job is marked failed with executedAt = now
    and that row is still in the table after the tick. *)
Theorem tick_finalizes_due_jobs (executor : Job -> bool) (now : Z)
    (js : list Job) (ops0 : list Scheduler.JobOp) (j : Job) :
  NoDup (job_id <$> js) ->
  j ∈ Scheduler.findDueJobs now js ->
  let w' := Scheduler.tick executor now (Scheduler.mkJobWorld js ops0) in
  executed (Scheduler.job_ops w')
    = executed ops0 ++ Scheduler.findDueJobs now js
  /\ (if executor j then
        (exists before after,
            Scheduler.job_ops w'
            = before ++ [Scheduler.Execute j;
                         Scheduler.MarkJob (job_id j) JOB_COMPLETED now;
                         Scheduler.DeleteJob (job_id j)] ++ after)
        /\ Forall (fun x => job_id x <> job_id j) (Scheduler.jobs w')
      else
        (exists before after,
            Scheduler.job_ops w'
            = before ++ [Scheduler.Execute j;
                         Scheduler.MarkJob (job_id j) JOB_FAILED now] ++ after)
        /\ Scheduler.finalized JOB_FAILED now j ∈ Scheduler.jobs w'
        /\ job_status (Scheduler.finalized JOB_FAILED now j) = JOB_FAILED
        /\ job_executedAt (Scheduler.finalized JOB_FAILED now j) = Some now).
Proof.
  intros Hnd Hj w'. subst w'. unfold Scheduler.tick. simpl.
  pose proof (due_ids_NoDup now js Hnd) as Hsel.
  assert (j ∈ js) as Hin by (by apply list_elem_of_filter in Hj as [_ ?]).
  apply list_elem_of_split in Hj as (l1 & l2 & Hsplit).
  rewrite Hsplit in Hsel |- *.
  apply ids_apart in Hsel as [H1 H2].
  split.
  - by rewrite foldl_runJob_ops, executed_app, executed_ops_of.
  - rewrite foldl_runJob_ops, map_app, concat_app. simpl.
    rewrite foldl_app. simpl.
    destruct (executor j) eqn:Hex.
    + split.
      * exists (ops0 ++ concat (map (ops_of executor now) l1)),
               (concat (map (ops_of executor now) l2)).
        simpl. by rewrite <- app_assoc.
      * apply foldl_runJob_absent. by apply runJob_success_deletes.
    + split; [|split; [|done]].
      * exists (ops0 ++ concat (map (ops_of executor now) l1)),
               (concat (map (ops_of executor now) l2)).
        simpl. by rewrite <- app_assoc.
      * apply foldl_runJob_keeps; [done|].
        apply runJob_failure_marks; [done|].
        by apply foldl_runJob_keeps.
Qed.

(** ** Running a handler *)

Ltac hsimpl := cbn -[pretty nonempty truthy String.append].

Ltac crunch :=
  repeat (hsimpl;
          match goal with
          | |- context [db_fault ?e ?n] => destruct (db_fault e n) eqn:?
          | |- context [api_fault ?e ?n] => destruct (api_fault e n) eqn:?
          | |- context [bool_decide ?P] => destruct (bool_decide P) eqn:?
          | |- context [decide ?P] => destruct (decide P)
          | |- context [head ?l] => destruct (head l) eqn:?
          | |- context [String.eqb ?a ?b] => destruct (String.eqb a b) eqn:?
          | |- context [nonempty ?o] => destruct (nonempty o) eqn:?
          | |- context [match ?q ?t ?s with inl _ => _ | inr _ => _ end] =>
              destruct (q t s) as [?|[? ?]] eqn:?
          end).

Section RunFacts.

Lemma since_app (w w' : World) (evs : list Event) :
  trace w' = trace w ++ evs -> since w w' = evs.
Proof. intros E. unfold since. rewrite E. apply drop_app_length. Qed.

Lemma since_refl_trace (w w' : World) :
  trace w' = trace w -> since w w' = [].
Proof. intros E. apply since_app. by rewrite app_nil_r. Qed.

Lemma group_like_chat (ctx : Context) :
  group_like ctx = true ->
  exists chat, ctx_chat ctx = Some chat
               /\ chat_is ctx ChatPrivate = false
               /\ getChatTelegramId ctx = Some (pretty (chat_id chat)).
Proof.
  unfold group_like, chat_is, getChatTelegramId.
  destruct (ctx_chat ctx) as [[cid ty title]|]; simpl; [|done].
  intros H. exists (mkChat cid ty title). split; [done|]. split; [|done].
  destruct ty; try done.
Qed.

Lemma sender_telegramId (ctx : Context) (sender : Sender) :
  ctx_from ctx = Some sender ->
  getUserTelegramId ctx = Some (sender_id sender).
Proof. intros E. unfold getUserTelegramId. by rewrite E. Qed.

Lemma stored_user_Exists (s : Store) (tid : string) (u : ManagedUser) :
  stored_user s tid = Some u -> Exists (by_telegramId tid) (users s).
Proof.
  unfold stored_user. intros H. apply head_Some_elem_of in H.
  apply list_elem_of_filter in H as [Hp Hin].
  apply Exists_exists. eauto.
Qed.

Lemma stored_user_None (s : Store) (tid : string) :
  stored_user s tid = None -> ~ Exists (by_telegramId tid) (users s).
Proof.
  unfold stored_user. intros H Hex.
  apply Exists_exists in Hex as (u & Hin & Hp).
  assert (u ∈ filter (by_telegramId tid) (users s)) as Hf
      by (by apply list_elem_of_filter).
  destruct (filter (by_telegramId tid) (users s)); [|done].
  by apply not_elem_of_nil in Hf.
Qed.

End RunFacts.

(** ** The current gate, src/bot/middleware.ts *)
Section CurrentGate.

Variable env : Env.
Variable w : World.
Variable ctx : Context.

Let w' : World := (run env (Middleware.accessControl ctx) w).1.

(** Every event reaches the downstream handlers, after console output
    at most. *)
Lemma current_gate_forwards :
  exists logs, since w w' = logs ++ [Forwarded] /\ Forall is_logged logs.
Proof.
  subst w'. unfold Middleware.accessControl.
  destruct (chat_is ctx ChatPrivate); [exists []; split; [|done]; by apply since_app|].
  destruct (truthy (getChatTelegramId ctx) && group_like ctx);
    [|exists []; split; [|done]; by apply since_app].
  crunch.
  all: try (exists []; split; [by apply since_app | done]).
  all: eexists [_]; split;
      [apply since_app; hsimpl; rewrite <- ?app_assoc; reflexivity|].
  all: by repeat constructor.
Qed.

Variable sender : Sender.
Hypothesis Hgroup : group_like ctx = true.
Hypothesis Hfrom : ctx_from ctx = Some sender.

Lemma current_gate_lookup_failure :
  db_fault env (opno w) = true ->
  run env (Middleware.accessControl ctx) w
  = (emit Forwarded
       (emit (Logged (ConsoleError "[AccessControl] Error:"
                                   (Some StoreUnavailable)))
             (bump w)), inr tt).
Proof.
  intros Hd.
  destruct (group_like_chat ctx Hgroup) as (chat & Hc & Hp & Hid).
  unfold Middleware.accessControl.
  rewrite Hp, Hid, Hgroup, truthy_pretty, (sender_telegramId ctx sender Hfrom).
  unfold sender_id. hsimpl. rewrite nonempty_pretty. hsimpl. by rewrite Hd.
Qed.

(** A stored sender that is not allowed is set to allowed. *)
Lemma current_gate_promotes (u : ManagedUser) :
  stored_user (store w) (sender_id sender) = Some u ->
  user_status u <> ALLOWED ->
  db_fault env (opno w) = false ->
  db_fault env (S (opno w)) = false ->
  users (store w')
  = map (fun r => if decide (by_telegramId (sender_id sender) r)
                  then apply_patch allow_patch (clock env (S (opno w))) r
                  else r) (users (store w)).
Proof.
  intros Hu Hst Hd0 Hd1. subst w'.
  destruct (group_like_chat ctx Hgroup) as (chat & Hc & Hp & Hid).
  unfold Middleware.accessControl.
  rewrite Hp, Hid, Hgroup, truthy_pretty, (sender_telegramId ctx sender Hfrom).
  unfold sender_id in *. hsimpl. rewrite nonempty_pretty. hsimpl. rewrite Hd0.
  unfold stored_user in Hu. hsimpl. rewrite Hu. hsimpl.
  destruct (decide (user_status u <> ALLOWED)); [|done].
  hsimpl. rewrite Hd1. done.
Qed.

(** A stored sender that is allowed stays as stored. *)
Lemma current_gate_keeps_allowed (u : ManagedUser) :
  stored_user (store w) (sender_id sender) = Some u ->
  user_status u = ALLOWED ->
  db_fault env (opno w) = false ->
  users (store w') = users (store w).
Proof.
  intros Hu Hst Hd0. subst w'.
  destruct (group_like_chat ctx Hgroup) as (chat & Hc & Hp & Hid).
  unfold Middleware.accessControl.
  rewrite Hp, Hid, Hgroup, truthy_pretty, (sender_telegramId ctx sender Hfrom).
  unfold sender_id in *. hsimpl. rewrite nonempty_pretty. hsimpl. rewrite Hd0.
  unfold stored_user in Hu. hsimpl. rewrite Hu. hsimpl.
  destruct (decide (user_status u <> ALLOWED)); done.
Qed.

(** An unknown sender is inserted with status allowed. *)
Lemma current_gate_creates_allowed :
  stored_user (store w) (sender_id sender) = None ->
  db_fault env (opno w) = false ->
  db_fault env (S (opno w)) = false ->
  users (store w')
  = users (store w) ++
      [inserted_user (user_seq (store w) + 1) (clock env (S (opno w)))
         (mkNewUser (sender_id sender) (sender_name ctx "Unknown")
                    (sender_username ctx) (Some ALLOWED) None)].
Proof.
  intros Hu Hd0 Hd1. subst w'.
  destruct (group_like_chat ctx Hgroup) as (chat & Hc & Hp & Hid).
  unfold Middleware.accessControl.
  rewrite Hp, Hid, Hgroup, truthy_pretty, (sender_telegramId ctx sender Hfrom).
  pose proof (stored_user_None _ _ Hu) as Hnex.
  unfold sender_id in *. hsimpl. rewrite nonempty_pretty. hsimpl. rewrite Hd0.
  unfold stored_user in Hu. hsimpl. rewrite Hu. hsimpl. rewrite Hd1.
  unfold createUser. hsimpl. rewrite bool_decide_eq_false_2 by done.
  done.
Qed.

End CurrentGate.

(** ** The gate with discovery, unnamed/part_007 *)

Ltac since_eval :=
  first
    [ rewrite since_refl_trace by reflexivity
    | erewrite since_app
        by (hsimpl; rewrite <- ?app_assoc; reflexivity) ].

Section DiscoveryGate.

Variable env : Env.
Variable w : World.
Variable ctx : Context.

Let w' : World := (run env (GroupGate.accessControl env ctx) w).1.

(** The gate only ever appends rows, and every row it appends is
    pending: no stored row is rewritten. *)
Lemma discovery_gate_appends_pending :
  exists (newUsers : list ManagedUser) (newGroups : list ManagedGroup),
    users (store w') = users (store w) ++ newUsers
    /\ groups (store w') = groups (store w) ++ newGroups
    /\ Forall (has_status PENDING) newUsers
    /\ Forall group_pending newGroups.
Proof.
  subst w'.
  unfold GroupGate.accessControl, GroupGate.triggerGroupDiscovery,
    GroupGate.triggerUserDiscovery, createGroup, createUser.
  destruct (chat_is ctx ChatPrivate).
  { destruct (GroupGate.isAdmin env ctx); exists [], [];
      by rewrite !app_nil_r. }
  destruct (group_like ctx);
    [|exists [], []; by rewrite !app_nil_r].
  crunch.
  all: first
    [ exists [], []; by rewrite !app_nil_r
    | eexists [_], []; rewrite !app_nil_r;
      repeat split; by repeat constructor
    | eexists [], [_]; rewrite !app_nil_r;
      repeat split; by repeat constructor
    | eexists [_], [_]; repeat split; by repeat constructor ].
Qed.

Variable sender : Sender.
Variable u : ManagedUser.
Hypothesis Hgroup : group_like ctx = true.
Hypothesis Hfrom : ctx_from ctx = Some sender.
Hypothesis Hstored : stored_user (store w) (sender_id sender) = Some u.
Hypothesis Hstatus : user_status u <> ALLOWED.

(** A stored sender that is not allowed gets nothing through: the event
    is not forwarded and no Telegram call is made. *)
Lemma discovery_gate_drops : Forall is_logged (since w w').
Proof.
  subst w'.
  destruct (group_like_chat ctx Hgroup) as (chat & Hc & Hp & Hid).
  pose proof (stored_user_Exists _ _ _ Hstored) as Hex.
  unfold stored_user, sender_id in *.
  unfold GroupGate.accessControl, GroupGate.triggerGroupDiscovery,
    GroupGate.triggerUserDiscovery, createGroup, createUser.
  rewrite Hp, Hgroup, Hid, nonempty_pretty,
    (sender_telegramId ctx sender Hfrom).
  unfold sender_id. rewrite nonempty_pretty.
  crunch.
  all: try (rewrite Hstored in *; simplify_eq).
  all: try match goal with
           | H : bool_decide (Exists _ _) = false |- _ =>
               apply bool_decide_eq_false_1 in H; done
           end.
  all: try done.
  all: since_eval; by repeat constructor.
Qed.

(** This gate does not catch a failing group lookup: the error leaves
    the handler and the event is not forwarded. *)
Lemma discovery_gate_lookup_failure :
  db_fault env (opno w) = true ->
  run env (GroupGate.accessControl env ctx) w
  = (bump w, inl StoreUnavailable).
Proof.
  intros Hd.
  destruct (group_like_chat ctx Hgroup) as (chat & Hc & Hp & Hid).
  unfold GroupGate.accessControl.
  rewrite Hp, Hgroup, Hid, nonempty_pretty. hsimpl. by rewrite Hd.
Qed.

End DiscoveryGate.

(** ** Resolving an approval request *)
Section Resolver.

Variable env : Env.
Variable w : World.

Lemma trigger_nonempty (data : string) :
  Admin.admin_trigger data = true -> nonempty (Some data) = Some data.
Proof. by destruct data. Qed.

Lemma approval_callback_unauthorized (ctx : Context) (data : string) :
  getUserTelegramId ctx <> Some (BOT_ADMIN_TELEGRAM_ID env) ->
  let w' := (run env (Discovery.approval_callback env ctx data) w).1 in
  store w' = store w
  /\ (api_fault env (opno w) = false -> since w w' = [unauthorized_answer]).
Proof.
  intros Hne. unfold Discovery.approval_callback.
  rewrite bool_decide_eq_false_2 by done. hsimpl.
  destruct (api_fault env (opno w)); hsimpl; split; try done.
  intros _. by apply since_app.
Qed.

Lemma admin_callback_unauthorized (ctx : Context) (data : string) :
  getUserTelegramId ctx <> Some (BOT_ADMIN_TELEGRAM_ID env) ->
  ctx_callback_data ctx = Some data ->
  Admin.admin_trigger data = true ->
  let w' := (run env (Admin.admin_callback env ctx) w).1 in
  store w' = store w
  /\ (api_fault env (opno w) = false -> since w w' = [unauthorized_answer]).
Proof.
  intros Hne Hdata Htrig. unfold Admin.admin_callback.
  rewrite Hdata, (trigger_nonempty _ Htrig).
  rewrite bool_decide_eq_false_2 by done. hsimpl.
  destruct (api_fault env (opno w)); hsimpl; split; try done.
  intros _. by apply since_app.
Qed.

End Resolver.

(** C5. A callback that asks to approve, reject or remove and does not come
    from the configured operator changes nothing in the identity store,
    in the notification handler of discovery.ts and in the admin panel
    handler of admin.ts alike; when the Telegram call goes through, the
    only thing either handler does is answer with the Unauthorized alert. *)
Theorem unauthorized_resolution_is_rejected (env : Env) (w : World)
    (ctx : Context) (data : string) :
  getUserTelegramId ctx <> Some (BOT_ADMIN_TELEGRAM_ID env) ->
  ctx_callback_data ctx = Some data ->
  Admin.admin_trigger data = true ->
  api_fault env (opno w) = false ->
  (forall data' : string,
      let w' := (run env (Discovery.approval_callback env ctx data') w).1 in
      store w' = store w /\ since w w' = [unauthorized_answer])
  /\ (let w' := (run env (Admin.admin_callback env ctx) w).1 in
      store w' = store w /\ since w w' = [unauthorized_answer]).
Proof.
  intros Hne Hdata Htrig Hapi. split.
  - intros data'.
    destruct (approval_callback_unauthorized env w ctx data' Hne) as [H1 H2].
    split; [done|]. by apply H2.
  - destruct (admin_callback_unauthorized env w ctx data Hne Hdata Htrig)
      as [H1 H2].
    split; [done|]. by apply H2.
Qed.

(** ** Approving twice *)
Section ApproveTwice.

Lemma head_filter_map {A : Type} (P : A -> Prop)
    `{!forall x, Decision (P x)} (f : A -> A) (l : list A) :
  (forall x, P (f x) <-> P x) ->
  head (filter P (map f l)) = f <$> head (filter P l).
Proof.
  intros HP. induction l as [|x l IH]; [done|].
  simpl map. rewrite !filter_cons.
  destruct (decide (P x)) as [Hx|Hx].
  - rewrite decide_True by (by apply HP). done.
  - rewrite decide_False by (by rewrite HP). done.
Qed.

Variable env : Env.
Hypothesis Hdb : forall n, db_fault env n = false.
Hypothesis Hapi : forall n, api_fault env n = false.

Lemma approve_once (w : World) (telegramId : string) (u : ManagedUser) :
  stored_user (store w) telegramId = Some u ->
  let w1 := (run env (Discovery.handleApproveUser telegramId) w).1 in
  since w w1 = approval_report u telegramId
  /\ users (store w1)
     = map (approve_at (user_id u) (clock env (S (opno w))))
           (users (store w))
  /\ opno w1 = (4 + opno w)%nat.
Proof.
  intros Hstored. unfold Discovery.handleApproveUser.
  unfold stored_user in Hstored.
  hsimpl. rewrite !Hdb. hsimpl. rewrite Hstored. hsimpl.
  rewrite !Hdb. hsimpl. rewrite !Hapi. hsimpl.
  split; [|done].
  apply since_app. hsimpl. by rewrite <- !app_assoc.
Qed.

Lemma approve_at_twice (id t1 t2 : Z) (r : ManagedUser) :
  approve_at id t2 (approve_at id t1 r) = approve_at id t2 r.
Proof.
  unfold approve_at. destruct (decide (by_id id r)) as [H|H].
  - by rewrite decide_True by done.
  - by rewrite decide_False by done.
Qed.

Lemma approve_at_forget (id t1 t2 : Z) (r : ManagedUser) :
  forget_updatedAt (approve_at id t1 r) = forget_updatedAt (approve_at id t2 r).
Proof. unfold approve_at. by destruct (decide (by_id id r)). Qed.

Lemma stored_after_approval (s : Store) (us : list ManagedUser)
    (telegramId : string) (u : ManagedUser) (t : Z) :
  stored_user s telegramId = Some u ->
  head (filter (by_telegramId telegramId)
               (map (approve_at (user_id u) t) (users s)))
  = Some (set_status ALLOWED t u).
Proof.
  intros H. rewrite head_filter_map.
  - unfold stored_user in H. rewrite H. simpl. unfold approve_at.
    by rewrite decide_True by done.
  - intros x. unfold approve_at, by_telegramId.
    by destruct (decide (by_id (user_id u) x)).
Qed.

End ApproveTwice.

(** C6, as the code has it. When the store and Telegram answer, approving
    the stored user X twice in a row reports success both times with the
    same edited message and the same toast, and leaves every row as one
    approval leaves it except for the updatedAt column of X, which each
    call overwrites with its own clock reading. *)
Theorem approve_twice_same_rows_later_updatedAt (env : Env) (w : World)
    (telegramId : string) (u : ManagedUser) :
  (forall n, db_fault env n = false) ->
  (forall n, api_fault env n = false) ->
  stored_user (store w) telegramId = Some u ->
  let w1 := (run env (Discovery.handleApproveUser telegramId) w).1 in
  let w2 := (run env (Discovery.handleApproveUser telegramId) w1).1 in
  since w w1 = approval_report u telegramId
  /\ since w1 w2 = approval_report u telegramId
  /\ users (store w1)
     = map (approve_at (user_id u) (clock env (1 + opno w)%nat))
           (users (store w))
  /\ users (store w2)
     = map (approve_at (user_id u) (clock env (5 + opno w)%nat))
           (users (store w))
  /\ map forget_updatedAt (users (store w2))
     = map forget_updatedAt (users (store w1)).
Proof.
  intros Hdb Hapi Hstored w1 w2.
  destruct (approve_once env Hdb Hapi w telegramId u Hstored)
    as (Hr1 & Hu1 & Hn1).
  fold w1 in Hr1, Hu1, Hn1.
  assert (stored_user (store w1) telegramId
          = Some (set_status ALLOWED (clock env (S (opno w))) u)) as Hstored1.
  { unfold stored_user. rewrite Hu1.
    by apply (stored_after_approval (store w) (users (store w))). }
  destruct (approve_once env Hdb Hapi w1 telegramId _ Hstored1)
    as (Hr2 & Hu2 & Hn2).
  fold w2 in Hr2, Hu2, Hn2.
  assert (users (store w2)
          = map (approve_at (user_id u) (clock env (5 + opno w)%nat))
                (users (store w))) as Hfinal.
  { rewrite Hu2, Hu1, map_map, Hn1. simpl user_id.
    apply map_ext. intros r. apply approve_at_twice. }
  repeat split; try done.
  rewrite Hfinal, Hu1, !map_map. apply map_ext. intros r.
  apply approve_at_forget.
Qed.

(** ** Removing a user *)
Section Remove.

Lemma filter_all {A : Type} (P : A -> Prop) `{!forall x, Decision (P x)}
    (l : list A) :
  Forall P l -> filter P l = l.
Proof.
  induction 1 as [|x l Hx _ IH]; [done|].
  by rewrite filter_cons_True, IH.
Qed.

Lemma remove_unique_row (l : list ManagedUser) (id : Z) (u : ManagedUser) :
  NoDup (user_id <$> l) ->
  head (filter (by_id id) l) = Some u ->
  exists l1 l2, l = l1 ++ u :: l2
                /\ filter (fun r => ~ by_id id r) l = l1 ++ l2.
Proof.
  induction l as [|x l IH]; [done|].
  rewrite fmap_cons. intros Hnd Hhead.
  apply NoDup_cons in Hnd as [Hx Hnd].
  rewrite filter_cons in Hhead.
  destruct (decide (by_id id x)) as [Hid|Hid].
  - simpl in Hhead. injection Hhead as ->.
    exists [], l. split; [done|].
    rewrite filter_cons_False by (by intros H; apply H).
    simpl. apply filter_all, Forall_forall. intros r Hr Hrid.
    apply Hx. unfold by_id in *. rewrite Hid, <- Hrid.
    by apply list_elem_of_fmap_2.
  - destruct (IH Hnd Hhead) as (l1 & l2 & -> & Hf).
    exists (x :: l1), l2. split; [done|].
    rewrite filter_cons_True by done. simpl. by rewrite Hf.
Qed.

Variable env : Env.
Variable w : World.
Variable id : Z.
Hypothesis Hdb : forall n, db_fault env n = false.
Hypothesis Hapi : forall n, api_fault env n = false.

Let w' : World := (run env (Admin.handleRemoveUser id) w).1.

Lemma remove_absent :
  stored_user_by_id (store w) id = None ->
  store w' = store w
  /\ since w w' = [Sent (Reply Admin.user_not_found None)].
Proof.
  intros Habs. subst w'. unfold Admin.handleRemoveUser.
  unfold stored_user_by_id in Habs.
  hsimpl. rewrite !Hdb. hsimpl. rewrite Habs. hsimpl. rewrite !Hapi. hsimpl.
  split; [done|]. by apply since_app.
Qed.

Lemma remove_present (u : ManagedUser) :
  stored_user_by_id (store w) id = Some u ->
  users (store w') = filter (fun r => ~ by_id id r) (users (store w))
  /\ groups (store w') = groups (store w)
  /\ since w w' = removal_report u.
Proof.
  intros Hu. subst w'. unfold Admin.handleRemoveUser.
  unfold stored_user_by_id in Hu.
  hsimpl. rewrite !Hdb. hsimpl. rewrite Hu. hsimpl.
  rewrite !Hdb. hsimpl. rewrite !Hapi. hsimpl.
  split; [done|]. split; [done|].
  apply since_app. hsimpl. by rewrite <- !app_assoc.
Qed.

Lemma not_found_is_no_removal :
  ~ reports_removal [Sent (Reply Admin.user_not_found None)].
Proof.
  intros [user H]. apply list_elem_of_singleton in H. discriminate.
Qed.

End Remove.

(** C7, as the code has it. When the store and Telegram answer, removing
    an id that has no row leaves the store as it is and is answered with
    the user-not-found reply, not with the removed-user card; removing the
    id of a stored row takes exactly that row out of the table, keeps
    every other row in place, and edits the message into the removed-user
    card. *)
Theorem remove_user_outcomes (env : Env) (w : World) (id : Z) :
  (forall n, db_fault env n = false) ->
  (forall n, api_fault env n = false) ->
  NoDup (user_id <$> users (store w)) ->
  let w' := (run env (Admin.handleRemoveUser id) w).1 in
  match stored_user_by_id (store w) id with
  | None =>
      store w' = store w
      /\ since w w' = [Sent (Reply Admin.user_not_found None)]
      /\ ~ reports_removal (since w w')
  | Some u =>
      (exists l1 l2, users (store w) = l1 ++ u :: l2
                     /\ users (store w') = l1 ++ l2)
      /\ groups (store w') = groups (store w)
      /\ since w w' = removal_report u
  end.
Proof.
  intros Hdb Hapi Hnd w'.
  destruct (stored_user_by_id (store w) id) as [u|] eqn:Hu.
  - destruct (remove_present env w id Hdb Hapi u Hu) as (Hus & Hgs & Hr).
    fold w' in Hus, Hgs, Hr. split; [|done].
    destruct (remove_unique_row _ _ _ Hnd Hu) as (l1 & l2 & H1 & H2).
    exists l1, l2. split; [done|]. by rewrite Hus.
  - destruct (remove_absent env w id Hdb Hapi Hu) as (Hs & Hr).
    fold w' in Hs, Hr. split; [done|]. split; [done|].
    rewrite Hr. apply not_found_is_no_removal.
Qed.

(** The command version leaves the store alone for a requester who is not
    the operator; it replies only in a private chat. *)
Lemma removeuser_command_unauthorized (env : Env) (w : World) (ctx : Context) :
  getUserTelegramId ctx <> Some (BOT_ADMIN_TELEGRAM_ID env) ->
  let w' := (run env (AdminCommands.removeuser env ctx) w).1 in
  store w' = store w
  /\ (chat_is ctx ChatPrivate = false -> since w w' = []).
Proof.
  intros Hne. unfold AdminCommands.removeuser, GroupGate.adminOnly,
    GroupGate.isAdmin.
  rewrite (bool_decide_eq_false_2 _ Hne).
  destruct (chat_is ctx ChatPrivate); hsimpl.
  - destruct (api_fault env (opno w)); hsimpl; by split.
  - split; [done|]. intros _. by apply since_refl_trace.
Qed.

(** The command version answers an absent id the same way. *)
Lemma removeuser_command_absent (env : Env) (w : World) (ctx : Context)
    (text arg : string) (id : Z) :
  db_fault env (opno w) = false ->
  api_fault env (S (opno w)) = false ->
  ctx_message_text ctx = Some text ->
  split_on " " text !! 1%nat = Some arg ->
  parseInt arg = Some id ->
  stored_user_by_id (store w) id = None ->
  let w' := (run env (AdminCommands.removeuser_handler ctx) w).1 in
  store w' = store w
  /\ since w w'
     = [Sent (Reply ("❌ User with ID " +:+ pretty id +:+ " not found.") None)].
Proof.
  intros Hdb Hapi Htext Harg Hparse Habs.
  unfold AdminCommands.removeuser_handler.
  rewrite Htext, Harg.
  assert (nonempty (Some arg) = Some arg) as ->
      by (destruct arg; [discriminate Hparse|done]).
  unfold stored_user_by_id in Habs.
  rewrite Hparse. hsimpl. rewrite Hdb. hsimpl. rewrite Habs. hsimpl.
  rewrite Hapi. hsimpl. split; [done|]. by apply since_app.
Qed.

(** ** The two gates compared *)

(** C1, as stated, fails on the current gate: Sara is stored as pending,
    writes in a group, and her message is forwarded. *)
Lemma pending_sender_is_forwarded :
  stored_user (store Scenarios.pending_world) (sender_id Scenarios.sara)
    = Some (Scenarios.sara_row PENDING)
  /\ group_like Scenarios.group_event = true
  /\ since Scenarios.pending_world
       (run Scenarios.env_ok (Middleware.accessControl Scenarios.group_event)
            Scenarios.pending_world).1
     = [Forwarded].
Proof. vm_compute. repeat split. Qed.

(** C1, as the code has it. For an event from a group-like chat whose
    sender is stored with a status other than allowed: the gate with
    discovery does not forward it and makes no Telegram call, it writes to
    the console at most; the current gate forwards it, and when the store
    answers it has set the sender to allowed first. *)
Theorem stored_unapproved_sender_at_the_gates (env : Env) (w : World)
    (ctx : Context) (sender : Sender) (u : ManagedUser) :
  group_like ctx = true ->
  ctx_from ctx = Some sender ->
  stored_user (store w) (sender_id sender) = Some u ->
  user_status u <> ALLOWED ->
  Forall is_logged
         (since w (run env (GroupGate.accessControl env ctx) w).1)
  /\ (let w' := (run env (Middleware.accessControl ctx) w).1 in
      (exists logs, since w w' = logs ++ [Forwarded] /\ Forall is_logged logs)
      /\ (db_fault env (opno w) = false ->
          db_fault env (S (opno w)) = false ->
          users (store w')
          = map (fun r => if decide (by_telegramId (sender_id sender) r)
                          then apply_patch allow_patch
                                           (clock env (S (opno w))) r
                          else r) (users (store w)))).
Proof.
  intros Hg Hf Hu Hst. split; [|split].
  - by apply (discovery_gate_drops env w ctx sender u).
  - apply current_gate_forwards.
  - intros H0 H1. by apply (current_gate_promotes env w ctx sender Hg Hf u).
Qed.

Lemma stored_unapproved_sender_at_the_gates_witness :
  Forall is_logged
         (since Scenarios.pending_world
            (run Scenarios.env_ok
                 (GroupGate.accessControl Scenarios.env_ok Scenarios.group_event)
                 Scenarios.pending_world).1)
  /\ exists logs,
      since Scenarios.pending_world
            (run Scenarios.env_ok
                 (Middleware.accessControl Scenarios.group_event)
                 Scenarios.pending_world).1
      = logs ++ [Forwarded] /\ Forall is_logged logs.
Proof.
  destruct (stored_unapproved_sender_at_the_gates Scenarios.env_ok
              Scenarios.pending_world Scenarios.group_event Scenarios.sara
              (Scenarios.sara_row PENDING))
    as (H1 & H2 & _); [reflexivity | reflexivity | reflexivity | discriminate |].
  exact (conj H1 H2).
Defined.

(** C3, as stated, fails on the current gate: an unknown sender is
    inserted with status allowed. *)
Lemma unknown_sender_is_created_allowed :
  stored_user (store Scenarios.empty_world) (sender_id Scenarios.sara) = None
  /\ group_like Scenarios.group_event = true
  /\ users (store (run Scenarios.env_ok
                       (Middleware.accessControl Scenarios.group_event)
                       Scenarios.empty_world).1)
     = [mkUser 1 "42" "Sara" None ALLOWED None 1 1]
  /\ ~ Forall (has_status PENDING)
        (users (store (run Scenarios.env_ok
                           (Middleware.accessControl Scenarios.group_event)
                           Scenarios.empty_world).1)).
Proof.
  repeat split; try (vm_compute; reflexivity).
  intros H. vm_compute in H. inversion H as [|r l Hr Hl]. discriminate Hr.
Qed.

(** C3, as the code has it. The gate with discovery only appends rows to
    the two identity tables, each with status pending, and rewrites no
    stored row. The current gate, for an event from a group-like chat
    while the store answers, inserts an unknown sender with status
    allowed, sets a stored sender that is not allowed to allowed, and
    leaves an allowed sender as stored. *)
Theorem first_sighting_status_at_the_gates (env : Env) (w : World)
    (ctx : Context) (sender : Sender) :
  group_like ctx = true ->
  ctx_from ctx = Some sender ->
  db_fault env (opno w) = false ->
  db_fault env (S (opno w)) = false ->
  (let w' := (run env (GroupGate.accessControl env ctx) w).1 in
   exists (newUsers : list ManagedUser) (newGroups : list ManagedGroup),
     users (store w') = users (store w) ++ newUsers
     /\ groups (store w') = groups (store w) ++ newGroups
     /\ Forall (has_status PENDING) newUsers
     /\ Forall group_pending newGroups)
  /\ (let w' := (run env (Middleware.accessControl ctx) w).1 in
      users (store w')
      = match stored_user (store w) (sender_id sender) with
        | None =>
            users (store w) ++
              [inserted_user (user_seq (store w) + 1) (clock env (S (opno w)))
                 (mkNewUser (sender_id sender) (sender_name ctx "Unknown")
                            (sender_username ctx) (Some ALLOWED) None)]
        | Some u =>
            if decide (user_status u = ALLOWED) then users (store w)
            else map (fun r =>
                        if decide (by_telegramId (sender_id sender) r)
                        then apply_patch allow_patch
                                         (clock env (S (opno w))) r
                        else r) (users (store w))
        end).
Proof.
  intros Hg Hf H0 H1. split.
  - apply discovery_gate_appends_pending.
  - hsimpl. destruct (stored_user (store w) (sender_id sender)) as [u|] eqn:Hu.
    + destruct (decide (user_status u = ALLOWED)) as [Ha|Ha].
      * by apply (current_gate_keeps_allowed env w ctx sender Hg Hf u).
      * by apply (current_gate_promotes env w ctx sender Hg Hf u).
    + by apply (current_gate_creates_allowed env w ctx sender Hg Hf).
Qed.

Lemma first_sighting_status_at_the_gates_witness :
  users (store (run Scenarios.env_ok
                    (Middleware.accessControl Scenarios.group_event)
                    Scenarios.empty_world).1)
  = [inserted_user 1 1 (mkNewUser "42" "Sara" None (Some ALLOWED) None)].
Proof.
  destruct (first_sighting_status_at_the_gates Scenarios.env_ok
              Scenarios.empty_world Scenarios.group_event Scenarios.sara)
    as [_ H]; [reflexivity | reflexivity | reflexivity | reflexivity |].
  exact H.
Defined.

(** C4, as stated, fails on the current gate: with the store unreachable
    the error is written to the console and the event is forwarded. *)
Lemma lookup_failure_is_forwarded :
  db_fault Scenarios.env_down (opno Scenarios.empty_world) = true
  /\ group_like Scenarios.group_event = true
  /\ since Scenarios.empty_world
       (run Scenarios.env_down (Middleware.accessControl Scenarios.group_event)
            Scenarios.empty_world).1
     = [Logged (ConsoleError "[AccessControl] Error:" (Some StoreUnavailable));
        Forwarded].
Proof. vm_compute. repeat split. Qed.

(** C4, as the code has it. For an event from a group-like chat with a
    sender, when the lookup of the sender fails because the store is
    unreachable, the current gate writes the error to the console, leaves
    the store as it is, and then forwards the event. *)
Theorem lookup_failure_logged_then_forwarded (env : Env) (w : World)
    (ctx : Context) (sender : Sender) :
  group_like ctx = true ->
  ctx_from ctx = Some sender ->
  db_fault env (opno w) = true ->
  let w' := (run env (Middleware.accessControl ctx) w).1 in
  store w' = store w
  /\ since w w'
     = [Logged (ConsoleError "[AccessControl] Error:" (Some StoreUnavailable));
        Forwarded].
Proof.
  intros Hg Hf Hd w'. subst w'.
  rewrite (current_gate_lookup_failure env w ctx sender Hg Hf Hd).
  split; [done|]. apply since_app. hsimpl. by rewrite <- app_assoc.
Qed.

Lemma lookup_failure_logged_then_forwarded_witness :
  store (run Scenarios.env_down
             (Middleware.accessControl Scenarios.group_event)
             Scenarios.empty_world).1
  = store Scenarios.empty_world
  /\ since Scenarios.empty_world
       (run Scenarios.env_down (Middleware.accessControl Scenarios.group_event)
            Scenarios.empty_world).1
     = [Logged (ConsoleError "[AccessControl] Error:" (Some StoreUnavailable));
        Forwarded].
Proof.
  apply (lookup_failure_logged_then_forwarded Scenarios.env_down
           Scenarios.empty_world Scenarios.group_event Scenarios.sara);
    reflexivity.
Defined.

(** ** Instances of the resolver, approval, removal and tick theorems *)

Lemma unauthorized_resolution_is_rejected_witness :
  (forall data' : string,
      let w' := (run Scenarios.env_ok
                     (Discovery.approval_callback Scenarios.env_ok
                        Scenarios.panel_click data')
                     Scenarios.pending_world).1 in
      store w' = store Scenarios.pending_world
      /\ since Scenarios.pending_world w' = [unauthorized_answer])
  /\ (let w' := (run Scenarios.env_ok
                     (Admin.admin_callback Scenarios.env_ok
                        Scenarios.panel_click)
                     Scenarios.pending_world).1 in
      store w' = store Scenarios.pending_world
      /\ since Scenarios.pending_world w' = [unauthorized_answer]).
Proof.
  apply (unauthorized_resolution_is_rejected Scenarios.env_ok
           Scenarios.pending_world Scenarios.panel_click
           "admin_remove_user:1").
  - vm_compute. discriminate.
  - reflexivity.
  - reflexivity.
  - reflexivity.
Defined.

(** C6, as stated, fails: the second approval writes the row again, so
    the store after two approvals is not the store after one. *)
Lemma second_approval_rewrites_the_row :
  let w1 := (run Scenarios.env_ok (Discovery.handleApproveUser "42")
                 Scenarios.pending_world).1 in
  let w2 := (run Scenarios.env_ok (Discovery.handleApproveUser "42") w1).1 in
  users (store w1) = [mkUser 1 "42" "Sara" None ALLOWED None 0 1]
  /\ users (store w2) = [mkUser 1 "42" "Sara" None ALLOWED None 0 5]
  /\ store w2 <> store w1.
Proof.
  repeat split; try (vm_compute; reflexivity).
  intros H. vm_compute in H. discriminate H.
Qed.

Lemma approve_twice_same_rows_later_updatedAt_witness :
  let w1 := (run Scenarios.env_ok (Discovery.handleApproveUser "42")
                 Scenarios.pending_world).1 in
  let w2 := (run Scenarios.env_ok (Discovery.handleApproveUser "42") w1).1 in
  since w1 w2 = approval_report (Scenarios.sara_row PENDING) "42"
  /\ map forget_updatedAt (users (store w2))
     = map forget_updatedAt (users (store w1)).
Proof.
  destruct (approve_twice_same_rows_later_updatedAt Scenarios.env_ok
              Scenarios.pending_world "42" (Scenarios.sara_row PENDING))
    as (_ & H2 & _ & _ & H5);
    [intros n; reflexivity | intros n; reflexivity | reflexivity |].
  exact (conj H2 H5).
Defined.

(** C7, as stated, fails: removing an id that has no row is answered
    with the user-not-found reply. *)
Lemma remove_of_absent_is_reported_not_found :
  let w' := (run Scenarios.env_ok (Admin.handleRemoveUser 7)
                 Scenarios.pending_world).1 in
  stored_user_by_id (store Scenarios.pending_world) 7 = None
  /\ since Scenarios.pending_world w' = [Sent (Reply "❌ کاربر یافت نشد." None)]
  /\ ~ reports_removal (since Scenarios.pending_world w').
Proof.
  repeat split; try (vm_compute; reflexivity).
  intros [user H]. vm_compute in H.
  apply list_elem_of_singleton in H. discriminate H.
Qed.

Lemma remove_user_outcomes_witness :
  let w' := (run Scenarios.env_ok (Admin.handleRemoveUser 1)
                 Scenarios.pending_world).1 in
  (exists l1 l2,
      users (store Scenarios.pending_world)
      = l1 ++ Scenarios.sara_row PENDING :: l2
      /\ users (store w') = l1 ++ l2)
  /\ since Scenarios.pending_world w'
     = removal_report (Scenarios.sara_row PENDING).
Proof.
  pose proof (remove_user_outcomes Scenarios.env_ok Scenarios.pending_world 1)
    as H.
  destruct H as (H1 & _ & H3);
    [intros n; reflexivity | intros n; reflexivity
    | vm_compute; apply NoDup_singleton |].
  exact (conj H1 H3).
Defined.

Lemma tick_finalizes_due_jobs_witness :
  let w' := Scheduler.tick Scenarios.picky_executor 100
              (Scheduler.mkJobWorld Scenarios.some_jobs []) in
  executed (Scheduler.job_ops w') = [Scenarios.job_one; Scenarios.job_two]
  /\ Scheduler.finalized JOB_FAILED 100 Scenarios.job_two ∈ Scheduler.jobs w'.
Proof.
  pose proof (tick_finalizes_due_jobs Scenarios.picky_executor 100
                Scenarios.some_jobs [] Scenarios.job_two) as H.
  destruct H as (H1 & _ & H3 & _).
  - apply (bool_decide_unpack _). vm_compute. reflexivity.
  - apply (bool_decide_unpack _). vm_compute. reflexivity.
  - exact (conj H1 H3).
Defined.

(** ** Every pool of handlers can run to the end *)
Section PoolTermination.

Variable env : Env.

Lemma pool_resume_middle (pre post : list (Prog unit)) (p p' : Prog unit)
    (w w' : World) :
  step env p w = Some (w', p') ->
  pool_step env (w, pre ++ p :: post) (w', pre ++ p' :: post).
Proof.
  intros Hstep.
  replace (pre ++ p' :: post)
    with (<[length pre := p']> (pre ++ p :: post)).
  - eapply pool_resume; [|exact Hstep]. by apply list_lookup_middle.
  - replace (length pre) with (length pre + 0)%nat by lia.
    by rewrite insert_app_r.
Qed.

Lemma pool_run_one (pre post : list (Prog unit)) (p : Prog unit) :
  forall w, exists w' p',
    finished p'
    /\ rtc (pool_step env) (w, pre ++ p :: post) (w', pre ++ p' :: post).
Proof.
  induction p as [a|e|R q k IHk h IHh|c k IHk h IHh|l k IHk|f k IHk|k IHk];
    intros w.
  - exists w, (Ret a). by split.
  - exists w, (Throw e). by split.
  - destruct (step env (Db q k h) w) as [[w1 p1]|] eqn:Hstep; [|
      simpl in Hstep; destruct (db_fault env (opno w)); [done|];
      by destruct (q (clock env (opno w)) (store w)) as [?|[? ?]]].
    assert (exists w' p', finished p'
              /\ rtc (pool_step env) (w1, pre ++ p1 :: post)
                     (w', pre ++ p' :: post)) as (w' & p' & Hf & Hrtc).
    { simpl in Hstep. destruct (db_fault env (opno w)).
      - injection Hstep as <- <-. apply IHh.
      - destruct (q (clock env (opno w)) (store w)) as [e|[s r]];
          injection Hstep as <- <-; [apply IHh|apply IHk]. }
    exists w', p'. split; [done|].
    eapply rtc_l; [|exact Hrtc]. by apply pool_resume_middle.
  - destruct (step env (Api c k h) w) as [[w1 p1]|] eqn:Hstep; [|
      simpl in Hstep; by destruct (api_fault env (opno w))].
    assert (exists w' p', finished p'
              /\ rtc (pool_step env) (w1, pre ++ p1 :: post)
                     (w', pre ++ p' :: post)) as (w' & p' & Hf & Hrtc).
    { simpl in Hstep. destruct (api_fault env (opno w));
        injection Hstep as <- <-; [apply IHh|apply IHk]. }
    exists w', p'. split; [done|].
    eapply rtc_l; [|exact Hrtc]. by apply pool_resume_middle.
  - destruct (IHk (emit (Logged l) w)) as (w' & p' & Hf & Hrtc).
    exists w', p'. split; [done|].
    eapply rtc_l; [|exact Hrtc]. by apply pool_resume_middle.
  - destruct (IHk (with_inputs (f (adminPendingInputs w)) w))
      as (w' & p' & Hf & Hrtc).
    exists w', p'. split; [done|].
    eapply rtc_l; [|exact Hrtc]. by apply pool_resume_middle.
  - destruct (IHk (emit Forwarded w)) as (w' & p' & Hf & Hrtc).
    exists w', p'. split; [done|].
    eapply rtc_l; [|exact Hrtc]. by apply pool_resume_middle.
Qed.

(** A handler run on its own is one of the orders of resumption. *)
Lemma run_is_resumptions (pre post : list (Prog unit)) (p : Prog unit) :
  forall w,
    rtc (pool_step env) (w, pre ++ p :: post)
        ((run env p w).1, pre ++ ended (run env p w).2 :: post).
Proof.
  induction p as [a|e|R q k IHk h IHh|c k IHk h IHh|l k IHk|f k IHk|k IHk];
    intros w; try done.
  - simpl run.
    destruct (db_fault env (opno w)) eqn:Hf;
      [|destruct (q (clock env (opno w)) (store w)) as [e|[s r]] eqn:Hq].
    + eapply rtc_l; [|apply IHh]. apply pool_resume_middle.
      simpl. by rewrite Hf.
    + eapply rtc_l; [|apply IHh]. apply pool_resume_middle.
      simpl. by rewrite Hf, Hq.
    + eapply rtc_l; [|apply IHk]. apply pool_resume_middle.
      simpl. by rewrite Hf, Hq.
  - simpl run. destruct (api_fault env (opno w)) eqn:Hf.
    + eapply rtc_l; [|apply IHh]. apply pool_resume_middle.
      simpl. by rewrite Hf.
    + eapply rtc_l; [|apply IHk]. apply pool_resume_middle.
      simpl. by rewrite Hf.
  - eapply rtc_l; [|apply IHk]. by apply pool_resume_middle.
  - eapply rtc_l; [|apply IHk]. by apply pool_resume_middle.
  - eapply rtc_l; [|apply IHk]. by apply pool_resume_middle.
Qed.

Lemma pool_finishes_from (todo : list (Prog unit)) :
  forall (done : list (Prog unit)) (w : World),
    Forall finished done ->
    exists w' ps', rtc (pool_step env) (w, done ++ todo) (w', ps')
                   /\ Forall finished ps'.
Proof.
  induction todo as [|p todo IH]; intros done w Hdone.
  - exists w, done. rewrite app_nil_r. by split.
  - destruct (pool_run_one done todo p w) as (w1 & p1 & Hf & Hrtc).
    destruct (IH (done ++ [p1]) w1) as (w' & ps' & Hrtc' & Hall).
    { apply Forall_app_2; [done|]. by constructor. }
    exists w', ps'. split; [|done].
    etrans; [exact Hrtc|]. by rewrite <- app_assoc in Hrtc'.
Qed.

(** Whatever handlers are in flight, some order of resumptions brings
    all of them to their end. *)
Lemma pool_finishes (ps : list (Prog unit)) (w : World) :
  exists w' ps', rtc (pool_step env) (w, ps) (w', ps')
                 /\ Forall finished ps'.
Proof. by apply (pool_finishes_from ps [] w). Qed.

End PoolTermination.

(** ** Counting handlers *)
Section Tally.

Context {A : Type}.

Lemma tally_insert (f : A -> bool) (phs : list A) (i : nat) (ph ph' : A) :
  phs !! i = Some ph ->
  (tally f (<[i := ph']> phs) + (if f ph then 1 else 0)
   = tally f phs + (if f ph' then 1 else 0))%nat.
Proof.
  unfold tally. revert i. induction phs as [|x phs IH]; intros i Hi; [done|].
  destruct i as [|i]; simpl in Hi.
  - injection Hi as ->. simpl. rewrite !filter_cons.
    destruct (f ph), (f ph'); simpl; repeat case_decide; simpl; try done; lia.
  - simpl. rewrite !filter_cons. specialize (IH i Hi).
    case_decide; simpl; lia.
Qed.

Lemma tally_replicate_false (f : A -> bool) (n : nat) (ph : A) :
  f ph = false -> tally f (replicate n ph) = 0%nat.
Proof.
  intros Hf. unfold tally. induction n as [|n IH]; [done|].
  simpl. rewrite filter_cons_False by (by rewrite Hf). done.
Qed.

Lemma tally_positive (f : A -> bool) (phs : list A) (i : nat) (ph : A) :
  phs !! i = Some ph -> f ph = true -> (1 <= tally f phs)%nat.
Proof.
  intros Hi Hf. pose proof (tally_insert f phs i ph ph Hi) as E.
  unfold tally in *. apply list_elem_of_lookup_2 in Hi.
  assert (ph ∈ filter (fun x => f x = true) phs) as Hin
      by (by apply list_elem_of_filter).
  destruct (filter (fun x => f x = true) phs); [|simpl; lia].
  by apply not_elem_of_nil in Hin.
Qed.

Lemma filter_sent_log (evs : list Event) (l : LogLine) :
  filter is_sent (evs ++ [Logged l]) = filter is_sent evs.
Proof.
  rewrite filter_app, filter_cons_False by (by intros []).
  by rewrite filter_nil, app_nil_r.
Qed.

Lemma filter_sent_call (evs : list Event) (c : ApiCall) :
  filter is_sent (evs ++ [Sent c]) = filter is_sent evs ++ [Sent c].
Proof. by rewrite filter_app, filter_cons_True by done. Qed.

Lemma finished_no_step (env : Env) (p : Prog unit) (w : World) :
  finished p -> step env p w = None.
Proof. by destruct p. Qed.

End Tally.

(** ** Concurrent discovery of one user *)
Section ConcurrentDiscovery.

Variable env : Env.
Variable ctx : Context.
Variable sender : Sender.
Variable chat : Chat.
Variable g : ManagedGroup.
Variable w0 : World.

Hypothesis Hdb : forall n, db_fault env n = false.
Hypothesis Hapi : forall n, api_fault env n = false.
Hypothesis Hadmin : BOT_ADMIN_TELEGRAM_ID env <> EmptyString.
Hypothesis Hgroup : group_like ctx = true.
Hypothesis Hchat : ctx_chat ctx = Some chat.
Hypothesis Hfrom : ctx_from ctx = Some sender.
Hypothesis Hstored : stored_group (store w0) (pretty (chat_id chat)) = Some g.
Hypothesis Hallowed : group_status g = ALLOWED.
Hypothesis Hnew : stored_user (store w0) (sender_id sender) = None.

Let userId : string := sender_id sender.
Let P : Phase -> Prog unit := prog_of env ctx userId.
Let row (t : Z) : ManagedUser :=
  inserted_user (user_seq (store w0) + 1) t (discovered_user ctx userId).

Lemma step_LookupGroup (w : World) :
  groups (store w) = groups (store w0) ->
  step env (P LookupGroup) w
  = Some (bump (with_store (store w) w), P LookupUser).
Proof.
  intros Hgs. subst P userId. unfold prog_of, GroupGate.accessControl.
  destruct (group_like_chat ctx Hgroup) as (chat' & Hc & Hp & Hid).
  rewrite Hchat in Hc. injection Hc as <-.
  rewrite Hp, Hgroup, Hid, nonempty_pretty,
    (sender_telegramId ctx sender Hfrom).
  unfold sender_id. rewrite nonempty_pretty.
  unfold stored_group in Hstored.
  hsimpl. rewrite Hdb, Hgs, Hstored. hsimpl.
  destruct (decide (group_status g <> ALLOWED)); [done|]. reflexivity.
Qed.

Lemma step_LookupUser_unknown (w : World) :
  stored_user (store w) userId = None ->
  step env (P LookupUser) w = Some (bump (with_store (store w) w), P Create).
Proof.
  intros Hu. subst P. unfold prog_of, stored_user in *.
  hsimpl. rewrite Hdb, Hu. reflexivity.
Qed.

Lemma step_LookupUser_pending (w : World) (r : ManagedUser) :
  stored_user (store w) userId = Some r ->
  user_status r = PENDING ->
  step env (P LookupUser) w
  = Some (bump (with_store (store w) w), P FinishedQuiet).
Proof.
  intros Hu Hst. subst P. unfold prog_of, stored_user in *.
  hsimpl. rewrite Hdb, Hu. hsimpl.
  destruct (decide (user_status r <> ALLOWED)) as [|Hn]; [done|].
  destruct Hn. by rewrite Hst.
Qed.

Lemma step_Create_first (w : World) :
  stored_user (store w) userId = None ->
  step env (P Create) w
  = Some (bump (with_store
                  (store_with (store w)
                     (inserted_user (user_seq (store w) + 1)
                                    (clock env (opno w))
                                    (discovered_user ctx userId))) w),
          P Notify).
Proof.
  intros Hu. pose proof (stored_user_None _ _ Hu) as Hnex.
  subst P. unfold prog_of, GroupGate.triggerUserDiscovery, createUser.
  hsimpl. rewrite Hdb. rewrite bool_decide_eq_false_2 by done. hsimpl.
  destruct (String.eqb_spec (BOT_ADMIN_TELEGRAM_ID env) EmptyString);
    [done|]. reflexivity.
Qed.

Lemma step_Create_taken (w : World) :
  Exists (by_telegramId userId) (users (store w)) ->
  step env (P Create) w = Some (bump w, P LogError).
Proof.
  intros Hex.
  subst P. unfold prog_of, GroupGate.triggerUserDiscovery, createUser.
  hsimpl. rewrite Hdb. rewrite bool_decide_eq_true_2 by done. reflexivity.
Qed.

Lemma step_Notify (w : World) :
  step env (P Notify) w
  = Some (bump (emit (Sent (user_request env ctx userId)) w), P LogDone).
Proof. subst P. unfold prog_of. hsimpl. by rewrite Hapi. Qed.

Lemma step_LogDone (w : World) :
  step env (P LogDone) w
  = Some (emit (Logged (ConsoleLog (user_discovery_logline ctx userId))) w,
          P FinishedSent).
Proof. reflexivity. Qed.

Lemma step_LogError (w : World) :
  step env (P LogError) w
  = Some (emit (Logged (ConsoleError "[User Discovery] Error:"
                  (Some (UniqueViolation "managed_user.telegram_id")))) w,
          P FinishedQuiet).
Proof. reflexivity. Qed.

Lemma tally_returned (phs : list Phase) :
  Forall (fun ph => returned ph = true) phs ->
  tally notified phs = tally winner phs.
Proof.
  unfold tally. induction 1 as [|ph phs Hph _ IH]; [done|].
  rewrite !filter_cons. destruct ph; try discriminate Hph; simpl.
  - by rewrite IH.
  - done.
Qed.

Lemma stored_after_insert (t : Z) :
  stored_user (store_with (store w0) (row t)) userId = Some (row t).
Proof.
  pose proof Hnew as Hn.
  unfold stored_user, userId in *. unfold store_with. cbn [users].
  rewrite filter_app.
  destruct (filter (by_telegramId (sender_id sender)) (users (store w0)))
    eqn:E; [|discriminate Hn].
  rewrite filter_cons_True; [done|reflexivity].
Qed.

(** One resumption of one handler keeps the invariant. *)
Lemma discovery_step (w w' : World) (phs : list Phase) (i : nat)
    (ph : Phase) (p' : Prog unit) :
  discovery_invariant env ctx userId w0 w phs ->
  phs !! i = Some ph ->
  step env (P ph) w = Some (w', p') ->
  exists ph', p' = P ph'
              /\ discovery_invariant env ctx userId w0 w' (<[i := ph']> phs).
Proof.
  intros (Hle & H0 & H1 & evs & Htr & Hsent) Hi Hstep.
  assert (forall ph', winner ph' = winner ph -> notified ph' = notified ph ->
                      tally winner (<[i := ph']> phs) = tally winner phs
                      /\ tally notified (<[i := ph']> phs)
                         = tally notified phs) as Hsame.
  { intros ph' Hw Hn.
    pose proof (tally_insert winner phs i ph ph' Hi) as Ew.
    pose proof (tally_insert notified phs i ph ph' Hi) as En.
    rewrite Hw in Ew. rewrite Hn in En. lia. }
  destruct (decide (tally winner phs = 0%nat)) as [Hz|Hnz].
  - destruct (H0 Hz) as [Hst Hearly].
    pose proof (Forall_lookup_1 _ _ _ _ Hearly Hi) as Hph.
    assert (stored_user (store w) userId = None) as Hu
        by (by rewrite Hst).
    destruct ph; try discriminate Hph.
    + rewrite step_LookupGroup in Hstep by (by rewrite Hst).
      injection Hstep as <- <-. exists LookupUser. split; [done|].
      destruct (Hsame LookupUser eq_refl eq_refl) as [Ew En].
      unfold discovery_invariant. rewrite Ew, En.
      split; [done|split; [|split]].
      * intros _. split; [exact Hst|by apply Forall_insert].
      * intros ?. lia.
      * by exists evs.
    + rewrite step_LookupUser_unknown in Hstep by done.
      injection Hstep as <- <-. exists Create. split; [done|].
      destruct (Hsame Create eq_refl eq_refl) as [Ew En].
      unfold discovery_invariant. rewrite Ew, En.
      split; [done|split; [|split]].
      * intros _. split; [exact Hst|by apply Forall_insert].
      * intros ?. lia.
      * by exists evs.
    + rewrite step_Create_first in Hstep by done.
      injection Hstep as <- <-. exists Notify. split; [done|].
      pose proof (tally_insert winner phs i Create Notify Hi) as Ew.
      pose proof (tally_insert notified phs i Create Notify Hi) as En.
      simpl in Ew, En.
      unfold discovery_invariant. split; [lia|split; [|split]].
      * intros ?. lia.
      * intros _. exists (clock env (opno w)). simpl. by rewrite Hst.
      * exists evs. split; [done|].
        replace (tally notified (<[i:=Notify]> phs))
          with (tally notified phs) by lia. done.
  - assert (tally winner phs = 1%nat) as Hone by lia.
    destruct (H1 Hone) as [t Hst].
    assert (stored_user (store w) userId = Some (row t)) as Hu
        by (rewrite Hst; apply stored_after_insert).
    destruct ph.
    + rewrite step_LookupGroup in Hstep by (by rewrite Hst).
      injection Hstep as <- <-. exists LookupUser. split; [done|].
      destruct (Hsame LookupUser eq_refl eq_refl) as [Ew En].
      unfold discovery_invariant. rewrite Ew, En.
      split; [done|split; [|split]].
      * intros ?. lia.
      * intros _. by exists t.
      * by exists evs.
    + rewrite (step_LookupUser_pending w (row t)) in Hstep by done.
      injection Hstep as <- <-. exists FinishedQuiet. split; [done|].
      destruct (Hsame FinishedQuiet eq_refl eq_refl) as [Ew En].
      unfold discovery_invariant. rewrite Ew, En.
      split; [done|split; [|split]].
      * intros ?. lia.
      * intros _. by exists t.
      * by exists evs.
    + rewrite step_Create_taken in Hstep
        by (by apply stored_user_Exists with (row t)).
      injection Hstep as <- <-. exists LogError. split; [done|].
      destruct (Hsame LogError eq_refl eq_refl) as [Ew En].
      unfold discovery_invariant. rewrite Ew, En.
      split; [done|split; [|split]].
      * intros ?. lia.
      * intros _. by exists t.
      * by exists evs.
    + rewrite step_Notify in Hstep.
      injection Hstep as <- <-. exists LogDone. split; [done|].
      pose proof (tally_insert winner phs i Notify LogDone Hi) as Ew.
      pose proof (tally_insert notified phs i Notify LogDone Hi) as En.
      simpl in Ew, En.
      unfold discovery_invariant. split; [lia|split; [|split]].
      * intros ?. lia.
      * intros _. by exists t.
      * exists (evs ++ [Sent (user_request env ctx userId)]). split.
        { simpl. by rewrite Htr, <- app_assoc. }
        rewrite filter_sent_call, Hsent.
        replace (tally notified (<[i:=LogDone]> phs))
          with (S (tally notified phs)) by lia.
        by rewrite replicate_S_end.
    + rewrite step_LogDone in Hstep.
      injection Hstep as <- <-. exists FinishedSent. split; [done|].
      destruct (Hsame FinishedSent eq_refl eq_refl) as [Ew En].
      unfold discovery_invariant. rewrite Ew, En.
      split; [done|split; [|split]].
      * intros ?. lia.
      * intros _. by exists t.
      * eexists. split; [simpl; by rewrite Htr, <- app_assoc|].
        by rewrite filter_sent_log.
    + rewrite step_LogError in Hstep.
      injection Hstep as <- <-. exists FinishedQuiet. split; [done|].
      destruct (Hsame FinishedQuiet eq_refl eq_refl) as [Ew En].
      unfold discovery_invariant. rewrite Ew, En.
      split; [done|split; [|split]].
      * intros ?. lia.
      * intros _. by exists t.
      * eexists. split; [simpl; by rewrite Htr, <- app_assoc|].
        by rewrite filter_sent_log.
    + discriminate Hstep.
    + discriminate Hstep.
Qed.

Lemma returned_of_finished (ph : Phase) :
  finished (P ph) -> returned ph = true.
Proof.
  intros Hf. pose proof (finished_no_step env _ w0 Hf) as Hstep.
  destruct ph; try done.
  by rewrite step_LookupGroup in Hstep.
Qed.

Lemma discovery_start (n : nat) :
  discovery_invariant env ctx userId w0 w0 (replicate n LookupGroup).
Proof.
  unfold discovery_invariant.
  rewrite !tally_replicate_false by done.
  split; [lia|split; [|split]].
  - intros _. split; [done|]. by apply Forall_replicate.
  - intros ?. lia.
  - exists []. by rewrite app_nil_r.
Qed.

(** The invariant holds in every configuration the pool can reach. *)
Lemma discovery_reachable (n : nat) (cfg : World * list (Prog unit)) :
  rtc (pool_step env)
      (w0, replicate n (GroupGate.accessControl env ctx)) cfg ->
  exists phs, cfg.2 = P <$> phs
              /\ length phs = n
              /\ discovery_invariant env ctx userId w0 cfg.1 phs.
Proof.
  intros Hrtc. revert cfg Hrtc. apply rtc_ind_r.
  - exists (replicate n LookupGroup). simpl.
    split; [by rewrite fmap_replicate|].
    split; [by rewrite length_replicate|]. apply discovery_start.
  - intros cfg cfg' _ Hstep (phs & Hps & Hlen & Hinv).
    destruct Hstep as [i w w' ps p p' Hi Hstep]. simpl in *. subst ps.
    apply list_lookup_fmap_Some in Hi as (ph & -> & Hph).
    destruct (discovery_step w w' phs i ph p' Hinv Hph Hstep)
      as (ph' & -> & Hinv').
    exists (<[i := ph']> phs).
    split; [by rewrite list_fmap_insert|].
    split; [by rewrite length_insert|done].
Qed.

(** Once every handler has returned, exactly one row has been inserted
    and exactly one request has been sent. *)
Lemma discovery_outcome (n : nat) (w' : World) (ps' : list (Prog unit)) :
  (0 < n)%nat ->
  rtc (pool_step env)
      (w0, replicate n (GroupGate.accessControl env ctx)) (w', ps') ->
  Forall finished ps' ->
  (exists t, store w' = store_with (store w0) (row t))
  /\ filter is_sent (since w0 w') = [Sent (user_request env ctx userId)].
Proof.
  intros Hn Hrtc Hfin.
  destruct (discovery_reachable n _ Hrtc)
    as (phs & Hps & Hlen & Hle & H0 & H1 & evs & Htr & Hsent).
  simpl in *. subst ps'.
  assert (Forall (fun ph => returned ph = true) phs) as Hret.
  { rewrite Forall_fmap in Hfin. eapply Forall_impl; [exact Hfin|].
    intros ph Hph. by apply returned_of_finished. }
  assert (tally winner phs = 1%nat) as Hone.
  { destruct (decide (tally winner phs = 0%nat)) as [Hz|]; [|lia].
    destruct (H0 Hz) as [_ Hearly].
    destruct phs as [|ph phs]; [simpl in Hlen; lia|].
    inversion Hearly as [|? ? He _]; inversion Hret as [|? ? Hr _]; subst.
    by destruct ph. }
  split; [by apply H1|].
  rewrite (since_app w0 w' evs Htr), Hsent, (tally_returned phs Hret), Hone.
  done.
Qed.

End ConcurrentDiscovery.

(** X15. The user discovery, in full. Let an allowed group be stored, let the
    sender of an event in it be unknown, and let n >= 1 handlers for that
    event be in flight at once, with the store and Telegram answering.
    Then some order of resumptions brings all handlers to their end, and
    whichever order does so, exactly one row has been inserted for the
    sender (status pending) and exactly one request has been sent to the
    operator. *)
Theorem user_discovery_notifies_once (env : Env) (ctx : Context)
    (sender : Sender) (chat : Chat) (g : ManagedGroup) (w0 : World)
    (n : nat) :
  (forall k, db_fault env k = false) ->
  (forall k, api_fault env k = false) ->
  BOT_ADMIN_TELEGRAM_ID env <> EmptyString ->
  group_like ctx = true ->
  ctx_chat ctx = Some chat ->
  ctx_from ctx = Some sender ->
  stored_group (store w0) (pretty (chat_id chat)) = Some g ->
  group_status g = ALLOWED ->
  stored_user (store w0) (sender_id sender) = None ->
  (0 < n)%nat ->
  let pool := replicate n (GroupGate.accessControl env ctx) in
  (exists w' ps', rtc (pool_step env) (w0, pool) (w', ps')
                  /\ Forall finished ps')
  /\ (forall w' ps',
        rtc (pool_step env) (w0, pool) (w', ps') ->
        Forall finished ps' ->
        (exists t,
            store w'
            = store_with (store w0)
                (inserted_user (user_seq (store w0) + 1) t
                               (discovered_user ctx (sender_id sender))))
        /\ filter is_sent (since w0 w')
           = [Sent (user_request env ctx (sender_id sender))]).
Proof.
  intros Hdb Hapi Hadmin Hgroup Hchat Hfrom Hstored Hallowed Hnew Hn pool.
  split; [apply pool_finishes|].
  intros w' ps' Hrtc Hfin.
  by apply (discovery_outcome env ctx sender chat g w0 Hdb Hapi Hadmin Hgroup
              Hchat Hfrom Hstored Hallowed Hnew n w' ps').
Qed.

(** ** Concurrent discovery of one group *)
Section ConcurrentGroupDiscovery.

Variable env : Env.
Variable ctx : Context.
Variable sender : Sender.
Variable chat : Chat.
Variable w0 : World.

Hypothesis Hdb : forall n, db_fault env n = false.
Hypothesis Hapi : forall n, api_fault env n = false.
Hypothesis Hadmin : BOT_ADMIN_TELEGRAM_ID env <> EmptyString.
Hypothesis Hgroup : group_like ctx = true.
Hypothesis Hchat : ctx_chat ctx = Some chat.
Hypothesis Hfrom : ctx_from ctx = Some sender.
Hypothesis Hnewgroup : stored_group (store w0) (pretty (chat_id chat)) = None.
Hypothesis Hnew : stored_user (store w0) (sender_id sender) = None.

Let chatId : string := pretty (chat_id chat).
Let userId : string := sender_id sender.
Let P : GroupPhase -> Prog unit := group_prog_of env ctx chatId userId.
Let grow (t : Z) : ManagedGroup :=
  inserted_group (group_seq (store w0) + 1) t (discovered_group ctx chatId).
Let urow (t : Z) : ManagedUser :=
  inserted_user (user_seq (store w0) + 1) t (discovered_user ctx userId).

Lemma gate_unfolds :
  GroupGate.accessControl env ctx
  = (let! group := db (findGroupByTelegramId chatId) in
     match group with
     | None => GroupGate.triggerGroupDiscovery env ctx chatId
     | Some group =>
         if decide (group_status group <> ALLOWED) then Ret tt
         else
           let! user := db (findUserByTelegramId userId) in
           match user with
           | None => GroupGate.triggerUserDiscovery env ctx userId
           | Some user =>
               if decide (user_status user <> ALLOWED) then Ret tt
               else next
           end
     end).
Proof.
  unfold GroupGate.accessControl.
  destruct (group_like_chat ctx Hgroup) as (chat' & Hc & Hp & Hid).
  rewrite Hchat in Hc. injection Hc as <-.
  rewrite Hp, Hgroup, Hid, nonempty_pretty,
    (sender_telegramId ctx sender Hfrom).
  unfold sender_id. by rewrite nonempty_pretty.
Qed.

Lemma gstep_Lookup_unknown (w : World) :
  stored_group (store w) chatId = None ->
  step env (P GLookup) w
  = Some (bump (with_store (store w) w), P GCreateGroup).
Proof.
  intros Hg. subst P. unfold group_prog_of. rewrite gate_unfolds.
  unfold stored_group in Hg. hsimpl. by rewrite Hdb, Hg.
Qed.

Lemma gstep_Lookup_pending (w : World) (r : ManagedGroup) :
  stored_group (store w) chatId = Some r ->
  group_status r = PENDING ->
  step env (P GLookup) w
  = Some (bump (with_store (store w) w), P GFinishedQuiet).
Proof.
  intros Hg Hst. subst P. unfold group_prog_of. rewrite gate_unfolds.
  unfold stored_group in Hg. hsimpl. rewrite Hdb, Hg. hsimpl.
  destruct (decide (group_status r <> ALLOWED)) as [|Hn]; [done|].
  destruct Hn. by rewrite Hst.
Qed.

Lemma gstep_CreateGroup_first (w : World) :
  stored_group (store w) chatId = None ->
  step env (P GCreateGroup) w
  = Some (bump (with_store
                  (store_with_group (store w)
                     (inserted_group (group_seq (store w) + 1)
                                     (clock env (opno w))
                                     (discovered_group ctx chatId))) w),
          P GCreateUser).
Proof.
  intros Hg.
  assert (~ Exists (group_by_telegramId chatId) (groups (store w))) as Hnex.
  { unfold stored_group in Hg. intros Hex.
    apply Exists_exists in Hex as (r & Hin & Hp).
    assert (r ∈ filter (group_by_telegramId chatId) (groups (store w)))
      as Hf by (by apply list_elem_of_filter).
    destruct (filter (group_by_telegramId chatId) (groups (store w)));
      [|done]. by apply not_elem_of_nil in Hf. }
  subst P. unfold group_prog_of, GroupGate.triggerGroupDiscovery, createGroup.
  rewrite (sender_telegramId ctx sender Hfrom).
  unfold sender_id. rewrite nonempty_pretty.
  hsimpl. rewrite Hdb. rewrite bool_decide_eq_false_2 by done. hsimpl.
  destruct (String.eqb_spec (BOT_ADMIN_TELEGRAM_ID env) EmptyString);
    [done|].
  unfold group_request, discovered_user, userId, sender_id.
  rewrite (sender_telegramId ctx sender Hfrom). reflexivity.
Qed.

Lemma gstep_CreateGroup_taken (w : World) :
  Exists (group_by_telegramId chatId) (groups (store w)) ->
  step env (P GCreateGroup) w = Some (bump w, P GLogError).
Proof.
  intros Hex.
  subst P. unfold group_prog_of, GroupGate.triggerGroupDiscovery, createGroup.
  hsimpl. rewrite Hdb. rewrite bool_decide_eq_true_2 by done. reflexivity.
Qed.

Lemma gstep_CreateUser (w : World) :
  stored_user (store w) userId = None ->
  step env (P GCreateUser) w
  = Some (bump (with_store
                  (store_with (store w)
                     (inserted_user (user_seq (store w) + 1)
                                    (clock env (opno w))
                                    (discovered_user ctx userId))) w),
          P GNotify).
Proof.
  intros Hu. pose proof (stored_user_None _ _ Hu) as Hnex.
  subst P. unfold group_prog_of, createUser.
  hsimpl. rewrite Hdb. rewrite bool_decide_eq_false_2 by done. reflexivity.
Qed.

Lemma gstep_Notify (w : World) :
  step env (P GNotify) w
  = Some (bump (emit (Sent (group_request env ctx chatId)) w), P GLogDone).
Proof. subst P. unfold group_prog_of. hsimpl. by rewrite Hapi. Qed.

Lemma gstep_LogDone (w : World) :
  step env (P GLogDone) w
  = Some (emit (Logged (ConsoleLog (group_discovery_logline ctx chatId))) w,
          P GFinishedSent).
Proof. reflexivity. Qed.

Lemma gstep_LogError (w : World) :
  step env (P GLogError) w
  = Some (emit (Logged (ConsoleError "[Group Discovery] Error:"
                  (Some (UniqueViolation "managed_group.telegram_id")))) w,
          P GFinishedQuiet).
Proof. reflexivity. Qed.

Lemma gtally_returned (phs : list GroupPhase) :
  Forall (fun ph => greturned ph = true) phs ->
  tally gnotified phs = tally gwinner phs /\ tally gcreating phs = 0%nat.
Proof.
  unfold tally. induction 1 as [|ph phs Hph _ [IH1 IH2]]; [done|].
  rewrite !filter_cons. destruct ph; try discriminate Hph; simpl.
  - by rewrite IH1, IH2.
  - done.
Qed.

Lemma gtally_early (phs : list GroupPhase) :
  Forall (fun ph => gearly ph = true) phs -> tally gcreating phs = 0%nat.
Proof.
  unfold tally. induction 1 as [|ph phs Hph _ IH]; [done|].
  rewrite !filter_cons. by destruct ph; try discriminate Hph; simpl.
Qed.

Lemma stored_group_after (t : Z) (s : Store) :
  groups s = groups (store w0) ++ [grow t] ->
  head (filter (group_by_telegramId chatId) (groups s)) = Some (grow t)
  /\ Exists (group_by_telegramId chatId) (groups s).
Proof.
  intros ->. pose proof Hnewgroup as Hn. unfold stored_group in Hn.
  fold chatId in Hn. split.
  - rewrite filter_app.
    destruct (filter (group_by_telegramId chatId) (groups (store w0)))
      eqn:E; [|discriminate Hn].
    rewrite filter_cons_True; [done|reflexivity].
  - apply Exists_app. right. by constructor.
Qed.

(** One resumption of one handler keeps the invariant. *)
Lemma group_discovery_step (w w' : World) (phs : list GroupPhase) (i : nat)
    (ph : GroupPhase) (p' : Prog unit) :
  group_discovery_invariant env ctx chatId userId w0 w phs ->
  phs !! i = Some ph ->
  step env (P ph) w = Some (w', p') ->
  exists ph', p' = P ph'
              /\ group_discovery_invariant env ctx chatId userId w0 w'
                   (<[i := ph']> phs).
Proof.
  intros (Hle & H0 & H1 & evs & Htr & Hsent) Hi Hstep.
  assert (forall ph', gwinner ph' = gwinner ph ->
                      gnotified ph' = gnotified ph ->
                      gcreating ph' = gcreating ph ->
                      tally gwinner (<[i := ph']> phs) = tally gwinner phs
                      /\ tally gnotified (<[i := ph']> phs)
                         = tally gnotified phs
                      /\ tally gcreating (<[i := ph']> phs)
                         = tally gcreating phs) as Hsame.
  { intros ph' Hw Hn Hc.
    pose proof (tally_insert gwinner phs i ph ph' Hi) as Ew.
    pose proof (tally_insert gnotified phs i ph ph' Hi) as En.
    pose proof (tally_insert gcreating phs i ph ph' Hi) as Ec.
    rewrite Hw in Ew. rewrite Hn in En. rewrite Hc in Ec. lia. }
  destruct (decide (tally gwinner phs = 0%nat)) as [Hz|Hnz].
  - destruct (H0 Hz) as [Hst Hearly].
    pose proof (Forall_lookup_1 _ _ _ _ Hearly Hi) as Hph.
    pose proof (gtally_early phs Hearly) as Hc0.
    assert (stored_group (store w) chatId = None) as Hg
        by (by rewrite Hst).
    destruct ph; try discriminate Hph.
    + rewrite gstep_Lookup_unknown in Hstep by done.
      injection Hstep as <- <-. exists GCreateGroup. split; [done|].
      destruct (Hsame GCreateGroup eq_refl eq_refl eq_refl) as (Ew & En & Ec).
      unfold group_discovery_invariant. rewrite Ew, En.
      split; [done|split; [|split]].
      * intros _. split; [exact Hst|by apply Forall_insert].
      * intros ?. lia.
      * by exists evs.
    + rewrite gstep_CreateGroup_first in Hstep by done.
      injection Hstep as <- <-. exists GCreateUser. split; [done|].
      pose proof (tally_insert gwinner phs i GCreateGroup GCreateUser Hi)
        as Ew.
      pose proof (tally_insert gnotified phs i GCreateGroup GCreateUser Hi)
        as En.
      pose proof (tally_insert gcreating phs i GCreateGroup GCreateUser Hi)
        as Ec.
      simpl in Ew, En, Ec.
      unfold group_discovery_invariant. split; [lia|split; [|split]].
      * intros ?. lia.
      * intros _. exists (clock env (opno w)). left.
        split; [lia|]. simpl. by rewrite Hst.
      * exists evs. split; [done|].
        replace (tally gnotified (<[i:=GCreateUser]> phs))
          with (tally gnotified phs) by lia. done.
  - assert (tally gwinner phs = 1%nat) as Hone by lia.
    destruct (H1 Hone) as [t Hcases].
    assert (groups (store w) = groups (store w0) ++ [grow t]) as Hgs.
    { destruct Hcases as [[_ ->]|(_ & t' & ->)]; reflexivity. }
    destruct (stored_group_after t (store w) Hgs) as [Hfound Hex].
    assert (forall ph',
               gwinner ph' = gwinner ph -> gnotified ph' = gnotified ph ->
               gcreating ph' = gcreating ph ->
               forall w1 evs1,
                 store w1 = store w -> trace w1 = trace w0 ++ evs1 ->
                 filter is_sent evs1 = filter is_sent evs ->
                 group_discovery_invariant env ctx chatId userId w0 w1
                   (<[i := ph']> phs)) as Hkeep.
    { intros ph' Hw Hn Hc w1 evs1 Hst1 Htr1 Hsent1.
      destruct (Hsame ph' Hw Hn Hc) as (Ew & En & Ec).
      unfold group_discovery_invariant. rewrite Ew, En, Ec.
      split; [done|split; [|split]].
      - intros ?. lia.
      - intros _. exists t. by rewrite Hst1.
      - exists evs1. split; [done|]. by rewrite Hsent1. }
    destruct ph.
    + rewrite (gstep_Lookup_pending w (grow t)) in Hstep by done.
      injection Hstep as <- <-. exists GFinishedQuiet. split; [done|].
      by apply (Hkeep GFinishedQuiet eq_refl eq_refl eq_refl _ evs).
    + rewrite gstep_CreateGroup_taken in Hstep by done.
      injection Hstep as <- <-. exists GLogError. split; [done|].
      by apply (Hkeep GLogError eq_refl eq_refl eq_refl _ evs).
    + pose proof (tally_positive gcreating phs i GCreateUser Hi eq_refl)
        as Hpos.
      destruct Hcases as [[Hc1 Hst]|(Hc0 & _)]; [|lia].
      assert (stored_user (store w) userId = None) as Hu
          by (by rewrite Hst).
      rewrite gstep_CreateUser in Hstep by done.
      injection Hstep as <- <-. exists GNotify. split; [done|].
      pose proof (tally_insert gwinner phs i GCreateUser GNotify Hi) as Ew.
      pose proof (tally_insert gnotified phs i GCreateUser GNotify Hi)
        as En.
      pose proof (tally_insert gcreating phs i GCreateUser GNotify Hi)
        as Ec.
      simpl in Ew, En, Ec.
      unfold group_discovery_invariant. split; [lia|split; [|split]].
      * intros ?. lia.
      * intros _. exists t. right. split; [lia|].
        exists (clock env (opno w)). simpl. by rewrite Hst.
      * exists evs. split; [done|].
        replace (tally gnotified (<[i:=GNotify]> phs))
          with (tally gnotified phs) by lia. done.
    + rewrite gstep_Notify in Hstep.
      injection Hstep as <- <-. exists GLogDone. split; [done|].
      pose proof (tally_insert gwinner phs i GNotify GLogDone Hi) as Ew.
      pose proof (tally_insert gnotified phs i GNotify GLogDone Hi) as En.
      pose proof (tally_insert gcreating phs i GNotify GLogDone Hi) as Ec.
      simpl in Ew, En, Ec.
      unfold group_discovery_invariant. split; [lia|split; [|split]].
      * intros ?. lia.
      * intros _. exists t.
        replace (tally gcreating (<[i:=GLogDone]> phs))
          with (tally gcreating phs) by lia. exact Hcases.
      * exists (evs ++ [Sent (group_request env ctx chatId)]). split.
        { simpl. by rewrite Htr, <- app_assoc. }
        rewrite filter_sent_call, Hsent.
        replace (tally gnotified (<[i:=GLogDone]> phs))
          with (S (tally gnotified phs)) by lia.
        by rewrite replicate_S_end.
    + rewrite gstep_LogDone in Hstep.
      injection Hstep as <- <-. exists GFinishedSent. split; [done|].
      apply (Hkeep GFinishedSent eq_refl eq_refl eq_refl _
               (evs ++ [Logged (ConsoleLog
                                  (group_discovery_logline ctx chatId))]));
        [done|simpl; by rewrite Htr, <- app_assoc|apply filter_sent_log].
    + rewrite gstep_LogError in Hstep.
      injection Hstep as <- <-. exists GFinishedQuiet. split; [done|].
      eapply (Hkeep GFinishedQuiet eq_refl eq_refl eq_refl);
        [done|simpl; by rewrite Htr, <- app_assoc|apply filter_sent_log].
    + discriminate Hstep.
    + discriminate Hstep.
Qed.

Lemma greturned_of_finished (ph : GroupPhase) :
  finished (P ph) -> greturned ph = true.
Proof.
  intros Hf. pose proof (finished_no_step env _ w0 Hf) as Hstep.
  destruct ph; try done.
  by rewrite gstep_Lookup_unknown in Hstep.
Qed.

Lemma group_discovery_start (n : nat) :
  group_discovery_invariant env ctx chatId userId w0 w0
                            (replicate n GLookup).
Proof.
  unfold group_discovery_invariant.
  rewrite !tally_replicate_false by done.
  split; [lia|split; [|split]].
  - intros _. split; [done|]. by apply Forall_replicate.
  - intros ?. lia.
  - exists []. by rewrite app_nil_r.
Qed.

(** The invariant holds in every configuration the pool can reach. *)
Lemma group_discovery_reachable (n : nat)
    (cfg : World * list (Prog unit)) :
  rtc (pool_step env)
      (w0, replicate n (GroupGate.accessControl env ctx)) cfg ->
  exists phs, cfg.2 = P <$> phs
              /\ length phs = n
              /\ group_discovery_invariant env ctx chatId userId w0
                   cfg.1 phs.
Proof.
  intros Hrtc. revert cfg Hrtc. apply rtc_ind_r.
  - exists (replicate n GLookup). simpl.
    split; [by rewrite fmap_replicate|].
    split; [by rewrite length_replicate|]. apply group_discovery_start.
  - intros cfg cfg' _ Hstep (phs & Hps & Hlen & Hinv).
    destruct Hstep as [i w w' ps p p' Hi Hstep]. simpl in *. subst ps.
    apply list_lookup_fmap_Some in Hi as (ph & -> & Hph).
    destruct (group_discovery_step w w' phs i ph p' Hinv Hph Hstep)
      as (ph' & -> & Hinv').
    exists (<[i := ph']> phs).
    split; [by rewrite list_fmap_insert|].
    split; [by rewrite length_insert|done].
Qed.

(** Once every handler has returned, one row has been inserted for the
    group, one for the sender, and exactly one request has been sent. *)
Lemma group_discovery_outcome (n : nat) (w' : World)
    (ps' : list (Prog unit)) :
  (0 < n)%nat ->
  rtc (pool_step env)
      (w0, replicate n (GroupGate.accessControl env ctx)) (w', ps') ->
  Forall finished ps' ->
  (exists t t', store w'
                = store_with (store_with_group (store w0) (grow t))
                             (urow t'))
  /\ filter is_sent (since w0 w') = [Sent (group_request env ctx chatId)].
Proof.
  intros Hn Hrtc Hfin.
  destruct (group_discovery_reachable n _ Hrtc)
    as (phs & Hps & Hlen & Hle & H0 & H1 & evs & Htr & Hsent).
  simpl in *. subst ps'.
  assert (Forall (fun ph => greturned ph = true) phs) as Hret.
  { rewrite Forall_fmap in Hfin. eapply Forall_impl; [exact Hfin|].
    intros ph Hph. by apply greturned_of_finished. }
  destruct (gtally_returned phs Hret) as [Hnw Hc0].
  assert (tally gwinner phs = 1%nat) as Hone.
  { destruct (decide (tally gwinner phs = 0%nat)) as [Hz|]; [|lia].
    destruct (H0 Hz) as [_ Hearly].
    destruct phs as [|ph phs]; [simpl in Hlen; lia|].
    inversion Hearly as [|? ? He _]; inversion Hret as [|? ? Hr _]; subst.
    by destruct ph. }
  split.
  - destruct (H1 Hone) as [t [[Hc1 _]|(_ & t' & Hst)]]; [lia|].
    by exists t, t'.
  - rewrite (since_app w0 w' evs Htr), Hsent, Hnw, Hone. done.
Qed.

End ConcurrentGroupDiscovery.

(** X16. The group discovery when the sender is new as well. Let neither the
    group of an event nor its sender be stored, and let n >= 1 handlers
    for that event be in flight at once, with the store and Telegram
    answering. Then some order of resumptions brings all handlers to
    their end, and whichever order does so, exactly one row has been
    inserted for the group and one for the sender (both pending), and
    exactly one request has been sent to the operator. *)
Theorem group_discovery_notifies_once (env : Env) (ctx : Context)
    (sender : Sender) (chat : Chat) (w0 : World) (n : nat) :
  (forall k, db_fault env k = false) ->
  (forall k, api_fault env k = false) ->
  BOT_ADMIN_TELEGRAM_ID env <> EmptyString ->
  group_like ctx = true ->
  ctx_chat ctx = Some chat ->
  ctx_from ctx = Some sender ->
  stored_group (store w0) (pretty (chat_id chat)) = None ->
  stored_user (store w0) (sender_id sender) = None ->
  (0 < n)%nat ->
  let pool := replicate n (GroupGate.accessControl env ctx) in
  (exists w' ps', rtc (pool_step env) (w0, pool) (w', ps')
                  /\ Forall finished ps')
  /\ (forall w' ps',
        rtc (pool_step env) (w0, pool) (w', ps') ->
        Forall finished ps' ->
        (exists t t',
            store w'
            = store_with
                (store_with_group (store w0)
                   (inserted_group (group_seq (store w0) + 1) t
                      (discovered_group ctx (pretty (chat_id chat)))))
                (inserted_user (user_seq (store w0) + 1) t'
                   (discovered_user ctx (sender_id sender))))
        /\ filter is_sent (since w0 w')
           = [Sent (group_request env ctx (pretty (chat_id chat)))]).
Proof.
  intros Hdb Hapi Hadmin Hgroup Hchat Hfrom Hnewgroup Hnew Hn pool.
  split; [apply pool_finishes|].
  intros w' ps' Hrtc Hfin.
  by apply (group_discovery_outcome env ctx sender chat w0 Hdb Hapi Hadmin
              Hgroup Hchat Hfrom Hnewgroup Hnew n w' ps').
Qed.

(** ** A new group whose sender is already stored *)

Lemma schedule_reachable (env : Env) (turns : list nat)
    (cfg : World * list (Prog unit)) :
  rtc (pool_step env) cfg (schedule env turns cfg).
Proof.
  revert cfg. induction turns as [|i turns IH]; intros [w ps]; [done|].
  unfold schedule in *. simpl foldl. unfold resume at 2. simpl.
  destruct (ps !! i) as [p|] eqn:Hi; [|apply IH].
  destruct (step env p w) as [[w' p']|] eqn:Hstep; [|apply IH].
  eapply rtc_l; [|apply IH]. by eapply pool_resume.
Qed.

(** C2, at the input where the code departs from it. Sara is a stored,
    allowed user, known from the Office group, and writes twice in the
    Team group, which the bot has not seen. Whether
    the two handlers run one after the other or take turns at every await,
    both return, one pending row for the group has been inserted, and no
    request at all has been sent to the operator: the insert of the stored
    sender throws inside the try block before the request is reached. *)
Theorem new_group_of_stored_sender_is_not_announced :
  let p := GroupGate.accessControl Scenarios.env_ok Scenarios.group_event in
  let w0 := Scenarios.known_sender_world in
  let w2 := (run Scenarios.env_ok p (run Scenarios.env_ok p w0).1).1 in
  let cfg := schedule Scenarios.env_ok [0; 1; 0; 1; 0; 1; 0]%nat (w0, [p; p]) in
  stored_group (store w0) "-100" = None
  /\ groups (store w2)
     = [Scenarios.office_row; mkGroup 2 "-100" "Team" PENDING 1 1]
  /\ filter is_sent (trace w2) = []
  /\ map is_finished cfg.2 = [true; true]
  /\ groups (store cfg.1)
     = [Scenarios.office_row; mkGroup 2 "-100" "Team" PENDING 2 2]
  /\ trace cfg.1
     = [Logged (ConsoleError "[Group Discovery] Error:"
                  (Some (UniqueViolation "managed_group.telegram_id")));
        Logged (ConsoleError "[Group Discovery] Error:"
                  (Some (UniqueViolation "managed_user.telegram_id")))]
  /\ filter is_sent (trace cfg.1) = [].
Proof. vm_compute. repeat split. Qed.

(** An instance of the user discovery: the group is allowed, Sara is
    unknown, two handlers are in flight. *)
Lemma user_discovery_notifies_once_witness :
  let w0 := Scenarios.world_of [] [Scenarios.team_row ALLOWED] in
  let pool := replicate 2 (GroupGate.accessControl Scenarios.env_ok
                                                   Scenarios.group_event) in
  (exists w' ps', rtc (pool_step Scenarios.env_ok) (w0, pool) (w', ps')
                  /\ Forall finished ps')
  /\ (forall w' ps',
        rtc (pool_step Scenarios.env_ok) (w0, pool) (w', ps') ->
        Forall finished ps' ->
        filter is_sent (since w0 w')
        = [Sent (user_request Scenarios.env_ok Scenarios.group_event "42")]).
Proof.
  intros w0 pool.
  destruct (user_discovery_notifies_once Scenarios.env_ok Scenarios.group_event
              Scenarios.sara Scenarios.team_chat (Scenarios.team_row ALLOWED)
              w0 2) as [Hex H];
    try reflexivity; try (intros k; reflexivity); try discriminate; try lia.
  split; [exact Hex|]. intros w' ps' Hrtc Hfin.
  by destruct (H w' ps' Hrtc Hfin) as [_ Hsent].
Defined.

(** An instance of the group discovery: neither the group nor Sara is
    stored, three handlers are in flight. *)
Lemma group_discovery_notifies_once_witness :
  let pool := replicate 3 (GroupGate.accessControl Scenarios.env_ok
                                                   Scenarios.group_event) in
  (exists w' ps',
      rtc (pool_step Scenarios.env_ok) (Scenarios.empty_world, pool) (w', ps')
      /\ Forall finished ps')
  /\ (forall w' ps',
        rtc (pool_step Scenarios.env_ok) (Scenarios.empty_world, pool)
            (w', ps') ->
        Forall finished ps' ->
        filter is_sent (since Scenarios.empty_world w')
        = [Sent (group_request Scenarios.env_ok Scenarios.group_event "-100")]).
Proof.
  intros pool.
  destruct (group_discovery_notifies_once Scenarios.env_ok
              Scenarios.group_event Scenarios.sara Scenarios.team_chat
              Scenarios.empty_world 3) as [Hex H];
    try reflexivity; try (intros k; reflexivity); try discriminate; try lia.
  split; [exact Hex|]. intros w' ps' Hrtc Hfin.
  by destruct (H w' ps' Hrtc Hfin) as [_ Hsent].
Defined.

(** ** Numerals and separators *)
Section Numerals.

Lemma digit_of_pretty_N_char (d : N) :
  (d < 10)%N -> digit_of (pretty_N_char d) = Some (Z.of_N d).
Proof.
  intros Hd.
  assert (d = 0 \/ d = 1 \/ d = 2 \/ d = 3 \/ d = 4 \/ d = 5 \/ d = 6
          \/ d = 7 \/ d = 8 \/ d = 9)%N as H by lia.
  repeat (destruct H as [->|H]; [reflexivity|]). by subst.
Qed.

(** Reading back the digits that [pretty_N_go] puts in front of [s]. *)
Lemma leading_digits_pretty_N_go (x : N) :
  (0 < x)%N ->
  exists n : nat, forall (acc : option Z) (s : string),
    leading_digits acc (pretty_N_go x s)
    = leading_digits (Some (10 ^ Z.of_nat n * default 0 acc + Z.of_N x)) s.
Proof.
  induction (N.lt_wf_0 x) as [x _ IH]. intros Hx.
  destruct (decide (x `div` 10 = 0)%N) as [Hz|Hz].
  - exists 1%nat. intros acc s.
    rewrite pretty_N_go_step by done. rewrite Hz, pretty_N_go_0.
    simpl leading_digits.
    rewrite digit_of_pretty_N_char by (apply N.mod_lt; lia).
    f_equal. f_equal.
    assert (x `mod` 10 = x)%N as ->.
    { apply N.mod_small. apply N.div_small_iff in Hz; [done|lia]. }
    change (10 ^ Z.of_nat 1) with 10. done.
  - assert (x `div` 10 < x)%N as Hlt by (apply N.div_lt; [done|reflexivity]).
    assert (0 < x `div` 10)%N as Hpos by (by apply N.neq_0_lt_0).
    destruct (IH (x `div` 10)%N Hlt Hpos) as [n Hn].
    exists (S n). intros acc s.
    rewrite pretty_N_go_step by done. rewrite Hn.
    simpl leading_digits.
    rewrite digit_of_pretty_N_char by (apply N.mod_lt; lia).
    f_equal. f_equal. simpl default.
    rewrite Nat2Z.inj_succ, Z.pow_succ_r by lia.
    pose proof (N.div_mod x 10 ltac:(lia)) as Hdm.
    rewrite N2Z.inj_div. rewrite N2Z.inj_mod.
    pose proof (Z.div_mod (Z.of_N x) 10 ltac:(lia)) as Hzdm.
    change (Z.of_N 10) with 10. lia.
Qed.

Lemma pretty_N_go_head (x : N) (s : string) :
  (0 < x)%N ->
  exists c rest, pretty_N_go x s = String c rest /\ digit_of c <> None.
Proof.
  revert s. induction (N.lt_wf_0 x) as [x _ IH]. intros s Hx.
  rewrite pretty_N_go_step by done.
  destruct (decide (x `div` 10 = 0)%N) as [Hz|Hz].
  - rewrite Hz, pretty_N_go_0. eexists _, _. split; [done|].
    by rewrite digit_of_pretty_N_char by (apply N.mod_lt; lia).
  - apply IH; [apply N.div_lt; [done|reflexivity]|by apply N.neq_0_lt_0].
Qed.

Lemma digit_not_space (c : ascii) :
  digit_of c <> None -> is_space c = false.
Proof.
  unfold digit_of, is_space. intros H.
  destruct (Nat.leb 48 (nat_of_ascii c) && Nat.leb (nat_of_ascii c) 57)%bool
    eqn:E; [|done].
  apply andb_true_iff in E as [E1 E2].
  apply Nat.leb_le in E1. apply Nat.leb_le in E2.
  apply orb_false_iff. split.
  - apply Nat.eqb_neq. lia.
  - apply andb_false_iff. right. apply Nat.leb_gt. lia.
Qed.

Lemma parseInt_digits_first (c : ascii) (rest : string) :
  digit_of c <> None ->
  parseInt (String c rest) = leading_digits None (String c rest).
Proof.
  intros Hc. unfold parseInt. simpl skip_spaces.
  rewrite (digit_not_space c Hc).
  destruct (Ascii.eqb_spec c "-") as [->|Hm]; [by destruct Hc|].
  destruct (Ascii.eqb_spec c "+") as [->|Hp]; [by destruct Hc|].
  destruct c as [[] [] [] [] [] [] [] []]; try reflexivity;
    by (destruct Hm || destruct Hp).
Qed.

(** [parseInt(String(n), 10) === n]. *)
Lemma parseInt_pretty (z : Z) : parseInt (pretty z) = Some z.
Proof.
  destruct z as [|p|p]; [done| |].
  - unfold pretty, pretty_Z, pretty, pretty_positive, pretty, pretty_N.
    rewrite decide_False by done.
    destruct (pretty_N_go_head (N.pos p) EmptyString) as (c & rest & E & Hc);
      [lia|].
    rewrite E, parseInt_digits_first by done. rewrite <- E.
    destruct (leading_digits_pretty_N_go (N.pos p)) as [n Hn]; [lia|].
    rewrite Hn. simpl. f_equal. lia.
  - unfold pretty, pretty_Z, pretty, pretty_positive, pretty, pretty_N.
    rewrite decide_False by done.
    change (parseInt ("-" +:+ ?s)) with (Z.opp <$> leading_digits None s).
    destruct (leading_digits_pretty_N_go (N.pos p)) as [n Hn]; [lia|].
    unfold parseInt. simpl skip_spaces.
    change (is_space "-") with false. cbv iota.
    rewrite Hn. simpl. f_equal. lia.
Qed.

Lemma split_on_nonempty (sep : ascii) (s : string) : split_on sep s <> [].
Proof.
  destruct s as [|c s]; [done|]. simpl.
  destruct (Ascii.eqb c sep); [done|]. by destruct (split_on sep s).
Qed.

(** A text without the separator is one piece. *)
Lemma split_on_absent (sep : ascii) (s : string) :
  occurs sep s = false -> split_on sep s = [s].
Proof.
  induction s as [|c s IH]; [done|]. simpl.
  intros H. apply orb_false_iff in H as [Hc Hs].
  by rewrite Hc, IH.
Qed.

(** The first piece ends at the first separator. *)
Lemma split_on_app (sep : ascii) (a b : string) :
  occurs sep a = false ->
  split_on sep (a +:+ String sep b) = a :: split_on sep b.
Proof.
  induction a as [|c a IH]; simpl.
  - intros _. by rewrite Ascii.eqb_refl.
  - intros H. apply orb_false_iff in H as [Hc Ha].
    by rewrite Hc, IH.
Qed.

Lemma occurs_pretty_N_go (c : ascii) (x : N) (s : string) :
  digit_of c = None -> occurs c s = false ->
  occurs c (pretty_N_go x s) = false.
Proof.
  intros Hc. revert s. induction (N.lt_wf_0 x) as [x _ IH]. intros s Hs.
  destruct (decide (x = 0)%N) as [->|Hx]; [by rewrite pretty_N_go_0|].
  rewrite pretty_N_go_step by (by apply N.neq_0_lt_0).
  apply IH; [apply N.div_lt; [by apply N.neq_0_lt_0|reflexivity]|].
  simpl. rewrite Hs, orb_false_r.
  destruct (Ascii.eqb_spec (pretty_N_char (x `mod` 10)) c) as [E|]; [|done].
  rewrite <- E, digit_of_pretty_N_char in Hc; [done|].
  by apply N.mod_lt.
Qed.

(** A decimal numeral holds digits and at most a minus sign. *)
Lemma occurs_pretty (c : ascii) (z : Z) :
  digit_of c = None -> c <> "-"%char -> occurs c (pretty z) = false.
Proof.
  intros Hc Hm. destruct z as [|p|p].
  - change (pretty 0) with "0". unfold occurs.
    destruct (Ascii.eqb_spec "0" c) as [E|]; [by subst c|done].
  - unfold pretty, pretty_Z, pretty, pretty_positive, pretty, pretty_N.
    rewrite decide_False by done. by apply occurs_pretty_N_go.
  - unfold pretty, pretty_Z, pretty, pretty_positive, pretty, pretty_N.
    rewrite decide_False by done.
    change (occurs c ("-" +:+ ?s)) with (Ascii.eqb "-" c || occurs c s).
    destruct (Ascii.eqb_spec "-" c) as [E|]; [by destruct Hm|].
    by apply occurs_pretty_N_go.
Qed.

Lemma split_colon_pretty (z : Z) : split_on ":" (pretty z) = [pretty z].
Proof. by apply split_on_absent, occurs_pretty. Qed.

Lemma split_space_pretty (z : Z) : split_on " " (pretty z) = [pretty z].
Proof. by apply split_on_absent, occurs_pretty. Qed.

Lemma starts_with_slash_pretty (z : Z) : starts_with "/" (pretty z) = false.
Proof.
  pose proof (occurs_pretty "/" z eq_refl ltac:(done)) as H.
  destruct (pretty z) as [|c s]; [done|]. cbn [occurs starts_with] in *.
  apply orb_false_iff in H as [H _]. rewrite Ascii.eqb_sym in H.
  by rewrite H.
Qed.

End Numerals.

(** ** Rows and their keys *)
Section Keys.

Context {A K : Type} (key : A -> K).

Variable P : A -> Prop.
Context `{!forall x, Decision (P x)}.
Variable k : K.
Hypothesis HP : forall x, P x <-> key x = k.

Lemma head_filter_absent (l : list A) :
  head (filter P l) = None <-> Forall (fun x => ~ P x) l.
Proof.
  induction l as [|x l IH]; [done|].
  rewrite filter_cons. destruct (decide (P x)) as [Hx|Hx]; simpl.
  - split; [done|]. intros Hall. inversion Hall; subst. done.
  - rewrite IH. split; [by constructor|]. intros Hall. by inversion Hall.
Qed.

(** The only row with a key is the one a lookup by that key returns. *)
Lemma head_filter_unique (l : list A) (u : A) :
  NoDup (key <$> l) -> u ∈ l -> key u = k ->
  head (filter P l) = Some u.
Proof.
  induction l as [|x l IH]; [by intros _ Hin; apply not_elem_of_nil in Hin|].
  rewrite fmap_cons. intros Hnd Hin Hk.
  apply NoDup_cons in Hnd as [Hx Hnd].
  rewrite filter_cons. apply elem_of_cons in Hin as [->|Hin].
  - by rewrite decide_True by (by apply HP).
  - rewrite decide_False; [by apply IH|].
    intros Hpx. apply HP in Hpx. apply Hx. rewrite Hpx, <- Hk.
    by apply list_elem_of_fmap_2.
Qed.

(** Where a lookup finds its row, and that no other row has the key. *)
Lemma head_filter_split (l : list A) (u : A) :
  NoDup (key <$> l) -> head (filter P l) = Some u ->
  exists l1 l2, l = l1 ++ u :: l2
                /\ Forall (fun x => ~ P x) l1 /\ Forall (fun x => ~ P x) l2.
Proof.
  induction l as [|x l IH]; [done|].
  rewrite fmap_cons. intros Hnd Hhead.
  apply NoDup_cons in Hnd as [Hx Hnd].
  rewrite filter_cons in Hhead.
  destruct (decide (P x)) as [Hpx|Hpx].
  - simpl in Hhead. injection Hhead as ->.
    exists [], l. split; [done|]. split; [done|].
    apply Forall_forall. intros r Hr Hpr. apply Hx.
    apply HP in Hpx. apply HP in Hpr. rewrite Hpx, <- Hpr.
    by apply list_elem_of_fmap_2.
  - destruct (IH Hnd Hhead) as (l1 & l2 & -> & H1 & H2).
    exists (x :: l1), l2. split; [done|]. split; [by constructor|done].
Qed.

Lemma map_if_untouched (f : A -> A) (l : list A) :
  Forall (fun x => ~ P x) l ->
  map (fun x => if decide (P x) then f x else x) l = l.
Proof.
  induction 1 as [|x l Hx _ IH]; [done|].
  simpl. by rewrite decide_False, IH.
Qed.

Lemma filter_none (l : list A) :
  Forall (fun x => ~ P x) l -> filter P l = [].
Proof.
  induction 1 as [|x l Hx _ IH]; [done|].
  by rewrite filter_cons_False.
Qed.

Lemma filter_not_all (l : list A) :
  Forall (fun x => ~ P x) l -> filter (fun x => ~ P x) l = l.
Proof.
  induction 1 as [|x l Hx _ IH]; [done|].
  by rewrite filter_cons_True, IH.
Qed.

End Keys.

Section UserTable.

Lemma store_eta (s : Store) :
  mkStore (users s) (groups s) (user_seq s) (group_seq s) = s.
Proof. by destruct s. Qed.

Lemma fmap_map_if {K : Type} (key : ManagedUser -> K)
    (sel : ManagedUser -> Prop) `{!forall u, Decision (sel u)}
    (f : ManagedUser -> ManagedUser) (l : list ManagedUser) :
  (forall u, key (f u) = key u) ->
  key <$> map (fun u => if decide (sel u) then f u else u) l = key <$> l.
Proof.
  intros Hf. induction l as [|u l IH]; [done|].
  simpl map. rewrite !fmap_cons, IH. f_equal.
  by destruct (decide (sel u)).
Qed.

Lemma update_where_keys_unique (sel : ManagedUser -> Prop)
    `{!forall u, Decision (sel u)} (f : ManagedUser -> ManagedUser)
    (s : Store) :
  (forall u, user_id (f u) = user_id u) ->
  (forall u, user_telegramId (f u) = user_telegramId u) ->
  keys_unique s -> keys_unique (update_where sel f s).1.
Proof.
  intros Hid Htid (Ht & Hi & Hseq). unfold keys_unique, update_where.
  cbn [fst users user_seq].
  rewrite (fmap_map_if user_telegramId), (fmap_map_if user_id) by done.
  split; [done|]. split; [done|].
  apply Forall_forall. intros u Hu.
  apply list_elem_of_fmap in Hu as (v & -> & Hv).
  rewrite Forall_forall in Hseq. specialize (Hseq v Hv).
  destruct (decide (sel v)); [by rewrite Hid|done].
Qed.

Lemma createUser_keys_unique (user : NewManagedUser) (now : Z) (s : Store) :
  keys_unique s -> keys_unique (after (createUser user) now s).
Proof.
  intros (Ht & Hi & Hseq). unfold after, createUser.
  destruct (bool_decide_reflect
              (Exists (by_telegramId (nu_telegramId user)) (users s)))
    as [Hex|Hex]; [done|].
  unfold keys_unique. cbn [users user_seq].
  rewrite !fmap_app. cbn [fmap list_fmap inserted_user user_telegramId user_id].
  split; [|split].
  - apply NoDup_app. split; [done|]. split; [|apply NoDup_singleton].
    intros t Hin Hin'. apply list_elem_of_singleton in Hin'. subst t.
    apply Hex. apply list_elem_of_fmap in Hin as (u & Hu & Hin).
    apply Exists_exists. by exists u.
  - apply NoDup_app. split; [done|]. split; [|apply NoDup_singleton].
    intros i Hin Hin'. apply list_elem_of_singleton in Hin'. subst i.
    apply list_elem_of_fmap in Hin as (u & Hu & Hin).
    rewrite Forall_forall in Hseq. specialize (Hseq u Hin). lia.
  - apply Forall_app. split.
    + eapply Forall_impl; [exact Hseq|]. intros u Hu. simpl in Hu. lia.
    + constructor; [simpl; lia|done].
Qed.

Lemma deleteUser_keys_unique (id : Z) (now : Z) (s : Store) :
  keys_unique s -> keys_unique (after (deleteUser id) now s).
Proof.
  intros (Ht & Hi & Hseq). unfold after, deleteUser, keys_unique.
  cbn [users user_seq]. split; [|split].
  - eapply sublist_NoDup; [exact Ht|]. apply fmap_sublist, sublist_filter.
  - eapply sublist_NoDup; [exact Hi|]. apply fmap_sublist, sublist_filter.
  - apply Forall_forall. intros u Hu.
    apply list_elem_of_filter in Hu as [_ Hu].
    rewrite Forall_forall in Hseq. by apply Hseq.
Qed.

End UserTable.

(** X1. The write queries of src/db/queries/user.ts keep the user table within
    the constraints of the schema: telegram ids stay unique, internal ids
    stay unique, and no id runs ahead of the autoincrement counter. *)
Theorem user_writes_keep_keys_unique (now : Z) (s : Store) :
  keys_unique s ->
  (forall user, keys_unique (after (createUser user) now s))
  /\ (forall id status, keys_unique (after (updateUserStatus id status) now s))
  /\ (forall id patToken,
        keys_unique (after (updateUserPatToken id patToken) now s))
  /\ (forall telegramId data,
        keys_unique (after (updateUserByTelegramId telegramId data) now s))
  /\ (forall id, keys_unique (after (deleteUser id) now s)).
Proof.
  intros Hs. split; [|split; [|split; [|split]]].
  - intros user. by apply createUser_keys_unique.
  - intros id status. by apply update_where_keys_unique.
  - intros id patToken. by apply update_where_keys_unique.
  - intros telegramId data. by apply update_where_keys_unique.
  - intros id. by apply deleteUser_keys_unique.
Qed.

Lemma user_writes_keep_keys_unique_witness :
  keys_unique (store Scenarios.pending_world)
  /\ keys_unique
       (after (createUser (mkNewUser "43" "Omid" None None None)) 5
              (store Scenarios.pending_world)).
Proof.
  assert (keys_unique (store Scenarios.pending_world)) as H.
  { unfold keys_unique. simpl. split; [|split].
    - apply NoDup_singleton.
    - apply NoDup_singleton.
    - constructor; [simpl; lia|done]. }
  split; [exact H|].
  apply (user_writes_keep_keys_unique 5 (store Scenarios.pending_world) H).
Defined.

Section UserLookups.

Lemma by_telegramId_key (t : string) (u : ManagedUser) :
  by_telegramId t u <-> user_telegramId u = t.
Proof. done. Qed.

Lemma by_id_key (id : Z) (u : ManagedUser) : by_id id u <-> user_id u = id.
Proof. done. Qed.

Lemma stored_user_elem (s : Store) (t : string) (u : ManagedUser) :
  stored_user s t = Some u -> u ∈ users s /\ user_telegramId u = t.
Proof.
  unfold stored_user. intros H. apply head_Some_elem_of in H.
  by apply list_elem_of_filter in H as [? ?].
Qed.

Lemma stored_user_by_id_elem (s : Store) (id : Z) (u : ManagedUser) :
  stored_user_by_id s id = Some u -> u ∈ users s /\ user_id u = id.
Proof.
  unfold stored_user_by_id. intros H. apply head_Some_elem_of in H.
  by apply list_elem_of_filter in H as [? ?].
Qed.

Lemma filter_by_id_fresh (l : list ManagedUser) (seq id : Z) :
  Forall (fun u => user_id u <= seq) l -> seq < id ->
  filter (by_id id) l = [].
Proof.
  intros Hall Hlt. apply (filter_none (by_id id)).
  eapply Forall_impl; [exact Hall|]. intros u Hu Hid.
  unfold by_id in Hid. simpl in Hu. lia.
Qed.

Lemma filter_by_id_delete (l : list ManagedUser) (id j : Z) :
  j <> id ->
  filter (by_id j) (filter (fun u => ~ by_id id u) l) = filter (by_id j) l.
Proof.
  intros Hne. induction l as [|u l IH]; [done|].
  rewrite (filter_cons (fun u => ~ by_id id u)).
  destruct (decide (~ by_id id u)) as [Hu|Hu].
  - rewrite !filter_cons, IH. done.
  - rewrite IH. rewrite (filter_cons_False (by_id j)); [done|].
    unfold by_id in *. intros Hj. apply Hu. intros Hid. congruence.
Qed.

Lemma filter_delete_twice (l : list ManagedUser) (id : Z) :
  filter (fun u => ~ by_id id u) (filter (fun u => ~ by_id id u) l)
  = filter (fun u => ~ by_id id u) l.
Proof.
  apply (filter_all (fun u => ~ by_id id u)).
  apply Forall_forall. intros u Hu. by apply list_elem_of_filter in Hu as [? _].
Qed.

End UserLookups.

(** X2. createUser and the two lookups of src/db/queries/user.ts. An insert
    whose telegram id is already stored throws the unique violation;
    otherwise it returns the new row, both lookups find exactly that row
    afterwards, and the lookup of every other telegram id answers as
    before. *)
Theorem createUser_lookup_round_trip (now : Z) (s : Store)
    (user : NewManagedUser) :
  keys_unique s ->
  match stored_user s (nu_telegramId user) with
  | Some _ =>
      createUser user now s = inl (UniqueViolation "managed_user.telegram_id")
  | None =>
      exists row : ManagedUser,
        let s' := after (createUser user) now s in
        createUser user now s = inr (s', row)
        /\ user_telegramId row = nu_telegramId user
        /\ user_name row = nu_name user
        /\ user_status row = default PENDING (nu_status user)
        /\ stored_user s' (nu_telegramId user) = Some row
        /\ stored_user_by_id s' (user_id row) = Some row
        /\ (forall t, t <> nu_telegramId user ->
                      stored_user s' t = stored_user s t)
  end.
Proof.
  intros (Ht & Hi & Hseq).
  destruct (stored_user s (nu_telegramId user)) as [u|] eqn:Hu.
  - unfold createUser.
    by rewrite bool_decide_eq_true_2 by (by eapply stored_user_Exists).
  - pose proof (stored_user_None _ _ Hu) as Hnex.
    exists (inserted_user (user_seq s + 1) now user).
    unfold after, createUser. rewrite bool_decide_eq_false_2 by done.
    cbn zeta. split; [done|]. split; [done|]. split; [done|]. split; [done|].
    unfold stored_user, stored_user_by_id in *. cbn [users].
    apply (head_filter_absent (by_telegramId (nu_telegramId user))) in Hu.
    split; [|split].
    + rewrite filter_app, (filter_none _ _ Hu).
      by rewrite filter_cons_True by done.
    + rewrite filter_app, (filter_by_id_fresh _ (user_seq s)) by (done || simpl; lia).
      by rewrite filter_cons_True by done.
    + intros t Hne. rewrite filter_app.
      rewrite (filter_cons_False (by_telegramId t)) by (by intros E; apply Hne).
      by rewrite filter_nil, app_nil_r.
Qed.

Lemma createUser_lookup_round_trip_witness :
  keys_unique (store Scenarios.pending_world)
  /\ exists row : ManagedUser,
       stored_user
         (after (createUser (mkNewUser "43" "Omid" None None None)) 5
                (store Scenarios.pending_world)) "43" = Some row
       /\ user_status row = PENDING.
Proof.
  assert (keys_unique (store Scenarios.pending_world)) as H.
  { unfold keys_unique. simpl. split; [|split].
    - apply NoDup_singleton.
    - apply NoDup_singleton.
    - constructor; [simpl; lia|done]. }
  split; [exact H|].
  pose proof (createUser_lookup_round_trip 5 (store Scenarios.pending_world)
                (mkNewUser "43" "Omid" None None None) H) as Hrt.
  assert (stored_user (store Scenarios.pending_world) "43" = None) as Hnone
      by reflexivity.
  cbn [nu_telegramId nu_status] in Hrt. rewrite Hnone in Hrt.
  destruct Hrt as (row & _ & _ & _ & Hst & Hl & _).
  exists row. split; [exact Hl|exact Hst].
Defined.

(** X3. Under the constraints of the schema the two lookups of
    src/db/queries/user.ts name the same row: a row is what its telegram
    id finds exactly when it is what its internal id finds. The resolvers
    of discovery.ts find by telegram id and then update by internal id. *)
Theorem lookups_by_either_key_agree (s : Store) (u : ManagedUser) :
  keys_unique s ->
  stored_user s (user_telegramId u) = Some u
  <-> stored_user_by_id s (user_id u) = Some u.
Proof.
  intros (Ht & Hi & _). split; intros H.
  - apply stored_user_elem in H as [Hin _].
    by apply (head_filter_unique user_id (by_id (user_id u)) (user_id u)).
  - apply stored_user_by_id_elem in H as [Hin _].
    by apply (head_filter_unique user_telegramId
                (by_telegramId (user_telegramId u)) (user_telegramId u)).
Qed.

Lemma lookups_by_either_key_agree_witness :
  stored_user (store Scenarios.pending_world) "42"
  = Some (Scenarios.sara_row PENDING)
  <-> stored_user_by_id (store Scenarios.pending_world) 1
      = Some (Scenarios.sara_row PENDING).
Proof.
  apply (lookups_by_either_key_agree (store Scenarios.pending_world)
           (Scenarios.sara_row PENDING)).
  unfold keys_unique. simpl. split; [|split].
  - apply NoDup_singleton.
  - apply NoDup_singleton.
  - constructor; [simpl; lia|done].
Defined.

(** X4. updateUserStatus of src/db/queries/user.ts. For an id without a row it
    changes nothing and returns no row (the declared result type has no
    undefined); for a stored id it returns the row with the new status and
    a fresh updatedAt, puts it in the place of the old one, and leaves
    every other row and the group table as they were. *)
Theorem updateUserStatus_touches_one_row (now : Z) (s : Store) (id : Z)
    (status : Status) :
  NoDup (user_id <$> users s) ->
  let s' := after (updateUserStatus id status) now s in
  match stored_user_by_id s id with
  | None => updateUserStatus id status now s = inr (s, None)
  | Some u =>
      updateUserStatus id status now s
      = inr (s', Some (set_status status now u))
      /\ (exists l1 l2, users s = l1 ++ u :: l2
                        /\ users s' = l1 ++ set_status status now u :: l2)
      /\ stored_user_by_id s' id = Some (set_status status now u)
      /\ groups s' = groups s
  end.
Proof.
  intros Hnd s'. subst s'. unfold after, updateUserStatus, update_where.
  unfold stored_user_by_id.
  destruct (head (filter (by_id id) (users s))) as [u|] eqn:Hu.
  - destruct (head_filter_split user_id (by_id id) id (by_id_key id)
                _ _ Hnd Hu) as (l1 & l2 & Hl & H1 & H2).
    assert (by_id id u) as Hid.
    { apply head_Some_elem_of in Hu. by apply list_elem_of_filter in Hu as [? _]. }
    assert (map (fun r => if decide (by_id id r) then set_status status now r
                          else r) (users s)
            = l1 ++ set_status status now u :: l2) as Hmap.
    { rewrite Hl, map_app. simpl map.
      rewrite (map_if_untouched (by_id id) _ l1 H1),
        (map_if_untouched (by_id id) _ l2 H2).
      by rewrite decide_True by done. }
    cbn [users groups]. split; [|split; [|split]].
    + f_equal. f_equal.
      destruct (filter (by_id id) (users s)); [done|].
      simpl in Hu. by injection Hu as ->.
    + exists l1, l2. by split.
    + rewrite Hmap, filter_app, (filter_none (by_id id) l1 H1).
      by rewrite filter_cons_True by done.
    + done.
  - apply (head_filter_absent (by_id id)) in Hu.
    rewrite (map_if_untouched (by_id id) _ _ Hu),
      (filter_none (by_id id) _ Hu).
    by rewrite store_eta.
Qed.

Lemma updateUserStatus_touches_one_row_witness :
  stored_user_by_id
    (after (updateUserStatus 1 REJECTED) 9 (store Scenarios.pending_world)) 1
  = Some (set_status REJECTED 9 (Scenarios.sara_row PENDING)).
Proof.
  assert (NoDup (user_id <$> users (store Scenarios.pending_world))) as H
      by (simpl; apply NoDup_singleton).
  pose proof (updateUserStatus_touches_one_row 9
                (store Scenarios.pending_world) 1 REJECTED H) as Hrt.
  simpl in Hrt. destruct Hrt as (_ & _ & Hl & _). exact Hl.
Defined.

(** X5. deleteUser of src/db/queries/user.ts. After the delete no row has the
    id, the lookup of every other id answers as before, a second delete
    changes nothing, and so does the delete of an id that has no row. *)
Theorem deleteUser_then_lookup (now : Z) (s : Store) (id : Z) :
  let s' := after (deleteUser id) now s in
  stored_user_by_id s' id = None
  /\ (forall j, j <> id -> stored_user_by_id s' j = stored_user_by_id s j)
  /\ after (deleteUser id) now s' = s'
  /\ (stored_user_by_id s id = None -> s' = s).
Proof.
  unfold after, deleteUser, stored_user_by_id. cbn [users].
  split; [|split; [|split]].
  - apply (head_filter_absent (by_id id)).
    apply Forall_forall. intros u Hu. by apply list_elem_of_filter in Hu as [? _].
  - intros j Hne. by rewrite filter_by_id_delete.
  - cbn [users groups user_seq group_seq]. by rewrite filter_delete_twice.
  - intros Habs. apply (head_filter_absent (by_id id)) in Habs.
    rewrite (filter_not_all (by_id id) _ Habs). apply store_eta.
Qed.

(** ** Lists in status order *)
Section StatusOrder.

Context {A : Type} (status : A -> Status).

Let asc (x y : A) : Prop :=
  (status_rank (status x) <= status_rank (status y))%nat.

Let has (st : Status) (x : A) : Prop := status x = st.

Context `{!forall st x, Decision (has st x)}.

(** A list in status order is its allowed rows, then its pending rows,
    then its rejected rows. *)
Lemma sorted_is_three_runs (l : list A) :
  StronglySorted asc l ->
  filter (has ALLOWED) l ++ filter (has PENDING) l ++ filter (has REJECTED) l
  = l.
Proof.
  induction 1 as [|x l Hs IH Hall]; [done|].
  destruct (status x) eqn:E.
  - assert (filter (has ALLOWED) l = []) as Hnone.
    { apply (filter_none (has ALLOWED)).
      eapply Forall_impl; [exact Hall|]. intros y Hy Hal.
      unfold asc, has in *. rewrite E, Hal in Hy. simpl in Hy. lia. }
    rewrite Hnone in IH.
    rewrite (filter_cons_False (has ALLOWED)),
      (filter_cons_True (has PENDING)),
      (filter_cons_False (has REJECTED)), Hnone
      by (unfold has; congruence).
    simpl in *. by rewrite IH.
  - rewrite (filter_cons_True (has ALLOWED)),
      (filter_cons_False (has PENDING)),
      (filter_cons_False (has REJECTED))
      by (unfold has; congruence).
    simpl. by rewrite IH.
  - assert (filter (has ALLOWED) l = []) as Hnone.
    { apply (filter_none (has ALLOWED)).
      eapply Forall_impl; [exact Hall|]. intros y Hy Hal.
      unfold asc, has in *. rewrite E, Hal in Hy. simpl in Hy. lia. }
    assert (filter (has PENDING) l = []) as Hnone'.
    { apply (filter_none (has PENDING)).
      eapply Forall_impl; [exact Hall|]. intros y Hy Hal.
      unfold asc, has in *. rewrite E, Hal in Hy. simpl in Hy. lia. }
    rewrite Hnone, Hnone' in IH.
    rewrite (filter_cons_False (has ALLOWED)),
      (filter_cons_False (has PENDING)),
      (filter_cons_True (has REJECTED)), Hnone, Hnone'
      by (unfold has; congruence).
    simpl in *. by rewrite IH.
Qed.

End StatusOrder.

Section SortedTables.

#[local] Instance status_asc_total : Total status_asc.
Proof. intros u v. unfold status_asc. lia. Qed.

#[local] Instance status_asc_trans : Transitive status_asc.
Proof. intros u v x. unfold status_asc. lia. Qed.

#[local] Instance group_status_asc_total : Total group_status_asc.
Proof. intros u v. unfold group_status_asc. lia. Qed.

#[local] Instance group_status_asc_trans : Transitive group_status_asc.
Proof. intros u v x. unfold group_status_asc. lia. Qed.

Lemma users_sorted (l : list ManagedUser) :
  StronglySorted status_asc (merge_sort status_asc l).
Proof. apply StronglySorted_merge_sort; apply _. Qed.

Lemma groups_sorted (l : list ManagedGroup) :
  StronglySorted group_status_asc (merge_sort group_status_asc l).
Proof. apply StronglySorted_merge_sort; apply _. Qed.

Lemma place_group_three_lists (a p r : list ManagedGroup)
    (g : ManagedGroup) :
  place_group (three_group_lists a p r) g
  = three_group_lists (a ++ filter (group_has_status ALLOWED) [g])
                      (p ++ filter (group_has_status PENDING) [g])
                      (r ++ filter (group_has_status REJECTED) [g]).
Proof.
  unfold place_group, three_group_lists, push_group, group_has_status.
  destruct g as [i t n st c up]; destruct st; simpl.
  all: rewrite ?filter_cons_True, ?filter_cons_False, ?filter_nil by done.
  all: rewrite ?app_nil_r.
  - rewrite alter_insert_ne, alter_insert_eq; done.
  - rewrite alter_insert_eq; done.
  - rewrite alter_insert_ne, alter_insert_ne, alter_insert_eq; done.
Qed.

Lemma foldl_place_group (l a p r : list ManagedGroup) :
  foldl place_group (three_group_lists a p r) l
  = three_group_lists (a ++ filter (group_has_status ALLOWED) l)
                      (p ++ filter (group_has_status PENDING) l)
                      (r ++ filter (group_has_status REJECTED) l).
Proof.
  revert a p r. induction l as [|g l IH]; intros a p r.
  - by rewrite !filter_nil, !app_nil_r.
  - simpl foldl. rewrite place_group_three_lists, IH.
    rewrite <- !app_assoc, <- !filter_app. done.
Qed.

End SortedTables.

(** X6. getAllUsers and getAllUsersGroupedByStatus of src/db/queries/user.ts
    read the table the same way: the list that getAllUsers returns is the
    allowed list, then the pending list, then the rejected list of the
    grouped result, and it is a rearrangement of the stored rows. *)
Theorem getAllUsers_is_the_three_lists_in_order (now : Z) (s : Store) :
  exists allowed pending rejected : list ManagedUser,
    getAllUsersGroupedByStatus now s
      = inr (s, three_lists allowed pending rejected)
    /\ getAllUsers now s = inr (s, allowed ++ pending ++ rejected)
    /\ allowed ++ pending ++ rejected ≡ₚ users s.
Proof.
  set (all := merge_sort status_asc (users s)).
  exists (filter (has_status ALLOWED) all), (filter (has_status PENDING) all),
         (filter (has_status REJECTED) all).
  assert (filter (has_status ALLOWED) all ++ filter (has_status PENDING) all
            ++ filter (has_status REJECTED) all = all) as Hruns
      by apply (sorted_is_three_runs user_status), users_sorted.
  split; [|split].
  - unfold getAllUsersGroupedByStatus, group_all, empty_groups.
    fold all. change (<["allowed":=[]]> _) with (three_lists [] [] []).
    by rewrite foldl_group_one.
  - unfold getAllUsers. fold all. by rewrite Hruns.
  - rewrite Hruns. apply merge_sort_Permutation.
Qed.

(** X7. getAllGroupsGroupedByStatus and getAllGroups of the group queries. The
    grouped result is the object with exactly the keys allowed, pending
    and rejected; each list holds only groups of its status; the three
    lists one after the other are the list getAllGroups returns, which is
    a rearrangement of the stored groups: no group is dropped or listed
    twice. *)
Theorem getAllGroupsGroupedByStatus_partition (now : Z) (s : Store) :
  exists allowed pending rejected : list ManagedGroup,
    getAllGroupsGroupedByStatus now s
      = inr (s, three_group_lists allowed pending rejected)
    /\ dom (three_group_lists allowed pending rejected)
       = ({["allowed"; "pending"; "rejected"]} : gset string)
    /\ Forall (group_has_status ALLOWED) allowed
    /\ Forall (group_has_status PENDING) pending
    /\ Forall (group_has_status REJECTED) rejected
    /\ getAllGroups now s = inr (s, allowed ++ pending ++ rejected)
    /\ allowed ++ pending ++ rejected ≡ₚ groups s.
Proof.
  set (all := merge_sort group_status_asc (groups s)).
  exists (filter (group_has_status ALLOWED) all),
         (filter (group_has_status PENDING) all),
         (filter (group_has_status REJECTED) all).
  assert (filter (group_has_status ALLOWED) all
            ++ filter (group_has_status PENDING) all
            ++ filter (group_has_status REJECTED) all = all) as Hruns
      by apply (sorted_is_three_runs group_status), groups_sorted.
  split; [|split; [|split; [|split; [|split; [|split]]]]].
  - unfold getAllGroupsGroupedByStatus, empty_group_lists.
    fold all. change (<["allowed":=[]]> _) with (three_group_lists [] [] []).
    by rewrite foldl_place_group.
  - unfold three_group_lists. rewrite !dom_insert_L, dom_empty_L. set_solver.
  - apply Forall_forall. intros u Hu. by apply list_elem_of_filter in Hu as [? _].
  - apply Forall_forall. intros u Hu. by apply list_elem_of_filter in Hu as [? _].
  - apply Forall_forall. intros u Hu. by apply list_elem_of_filter in Hu as [? _].
  - unfold getAllGroups. fold all. by rewrite Hruns.
  - rewrite Hruns. apply merge_sort_Permutation.
Qed.

(** ** Whom the gate with discovery serves *)

Ltac since_in H :=
  first
    [ rewrite since_refl_trace in H by reflexivity
    | erewrite since_app in H
        by (hsimpl; rewrite <- ?app_assoc; reflexivity) ].

Ltac not_in_trace H :=
  repeat (apply elem_of_cons in H as [H|H]; [discriminate H|]);
  by apply not_elem_of_nil in H.

Ltac gsimpl :=
  cbn -[pretty nonempty truthy String.append
        GroupGate.triggerGroupDiscovery GroupGate.triggerUserDiscovery].

Section Admission.

Variable env : Env.
Variable ctx : Context.

Lemma since_same_trace (w w1 x : World) :
  trace w1 = trace w -> since w x = since w1 x.
Proof. unfold since. by intros ->. Qed.

Lemma group_discovery_never_forwards (chatId : string) (w : World) :
  Forwarded ∉
    since w (run env (GroupGate.triggerGroupDiscovery env ctx chatId) w).1.
Proof.
  unfold GroupGate.triggerGroupDiscovery, createGroup, createUser.
  crunch.
  all: intros H; since_in H; not_in_trace H.
Qed.

Lemma user_discovery_never_forwards (userId : string) (w : World) :
  Forwarded ∉
    since w (run env (GroupGate.triggerUserDiscovery env ctx userId) w).1.
Proof.
  unfold GroupGate.triggerUserDiscovery, createUser.
  crunch.
  all: intros H; since_in H; not_in_trace H.
Qed.

Lemma admitted_private (s : Store) :
  chat_is ctx ChatPrivate = true ->
  admitted env s ctx = GroupGate.isAdmin env ctx.
Proof.
  unfold chat_is, admitted.
  destruct (ctx_chat ctx) as [[cid ty title]|]; [|done].
  by destruct ty.
Qed.

Lemma admitted_elsewhere (s : Store) :
  chat_is ctx ChatPrivate = false -> group_like ctx = false ->
  admitted env s ctx = false.
Proof.
  unfold chat_is, group_like, chat_is, admitted.
  destruct (ctx_chat ctx) as [[cid ty title]|]; [|done].
  by destruct ty.
Qed.

Lemma admitted_group (s : Store) :
  group_like ctx = true ->
  exists chat,
    ctx_chat ctx = Some chat
    /\ chat_is ctx ChatPrivate = false
    /\ getChatTelegramId ctx = Some (pretty (chat_id chat))
    /\ admitted env s ctx
       = bool_decide (group_status <$> stored_group s (pretty (chat_id chat))
                      = Some ALLOWED)
         && match ctx_from ctx with
            | None => true
            | Some sender =>
                bool_decide
                  (user_status <$> stored_user s (sender_id sender)
                   = Some ALLOWED)
            end.
Proof.
  unfold chat_is, group_like, chat_is, admitted, getChatTelegramId.
  destruct (ctx_chat ctx) as [[cid ty title]|]; [|done].
  intros H. exists (mkChat cid ty title). by destruct ty.
Qed.

Variable w : World.

Let w' : World := (run env (GroupGate.accessControl env ctx) w).1.

Lemma gate_forwards_admitted :
  Forwarded ∈ since w w' ->
  admitted env (store w) ctx = true /\ store w' = store w.
Proof.
  subst w'. unfold GroupGate.accessControl.
  destruct (chat_is ctx ChatPrivate) eqn:Hp.
  { rewrite admitted_private by done.
    destruct (GroupGate.isAdmin env ctx); [by intros _|].
    intros H; since_in H; not_in_trace H. }
  destruct (group_like ctx) eqn:Hg;
    [|intros H; since_in H; not_in_trace H].
  destruct (admitted_group (store w) Hg) as (chat & Hc & _ & Hid & ->).
  rewrite Hid, nonempty_pretty. unfold stored_group, stored_user.
  gsimpl. destruct (db_fault env (opno w)) eqn:Hd0;
    [intros H; since_in H; not_in_trace H|].
  destruct (head (filter (group_by_telegramId (pretty (chat_id chat)))
                         (groups (store w)))) as [g|] eqn:Hgr; gsimpl.
  2:{ intros H.
      rewrite (since_same_trace w (bump (with_store (store w) w))) in H
        by reflexivity.
      by apply group_discovery_never_forwards in H. }
  destruct (decide (group_status g <> ALLOWED)) as [Hst|Hst];
    [intros H; since_in H; not_in_trace H|].
  assert (group_status g = ALLOWED) as Hal
      by (destruct (group_status g); try done; by destruct Hst).
  rewrite bool_decide_eq_true_2 by (simpl; by rewrite Hal).
  unfold getUserTelegramId.
  destruct (ctx_from ctx) as [sender|]; gsimpl; [|by intros _].
  rewrite nonempty_pretty. gsimpl.
  destruct (db_fault env (S (opno w))) eqn:Hd1;
    [intros H; since_in H; not_in_trace H|].
  unfold sender_id.
  destruct (head (filter (by_telegramId (pretty (from_id sender)))
                         (users (store w)))) as [u|] eqn:Hu; gsimpl.
  2:{ intros H.
      rewrite (since_same_trace w
                 (bump (with_store (store w)
                          (bump (with_store (store w) w))))) in H
        by reflexivity.
      by apply user_discovery_never_forwards in H. }
  destruct (decide (user_status u <> ALLOWED)) as [Hus|Hus];
    [intros H; since_in H; not_in_trace H|].
  assert (user_status u = ALLOWED) as Hual
      by (destruct (user_status u); try done; by destruct Hus).
  intros _. split; [|done].
  rewrite bool_decide_eq_true_2; [done|]. simpl. by rewrite Hual.
Qed.

Lemma gate_admits :
  admitted env (store w) ctx = true ->
  db_fault env (opno w) = false ->
  db_fault env (S (opno w)) = false ->
  since w w' = [Forwarded].
Proof.
  subst w'. unfold GroupGate.accessControl.
  destruct (chat_is ctx ChatPrivate) eqn:Hp.
  { rewrite admitted_private by done. intros -> _ _. by apply since_app. }
  destruct (group_like ctx) eqn:Hg;
    [|by rewrite admitted_elsewhere].
  destruct (admitted_group (store w) Hg) as (chat & Hc & _ & Hid & ->).
  rewrite Hid, nonempty_pretty. unfold stored_group, stored_user.
  intros Hadm Hd0 Hd1. apply andb_true_iff in Hadm as [Hgr Hus].
  apply bool_decide_eq_true_1 in Hgr.
  gsimpl. rewrite Hd0.
  destruct (head (filter (group_by_telegramId (pretty (chat_id chat)))
                         (groups (store w)))) as [g|]; [|done].
  simpl in Hgr. injection Hgr as Hgr. gsimpl.
  rewrite decide_False by (by intros H; apply H).
  unfold getUserTelegramId.
  destruct (ctx_from ctx) as [sender|]; gsimpl; [|by apply since_app].
  rewrite nonempty_pretty. gsimpl. rewrite Hd1.
  apply bool_decide_eq_true_1 in Hus. unfold sender_id in Hus.
  destruct (head (filter (by_telegramId (pretty (from_id sender)))
                         (users (store w)))) as [u|]; [|done].
  simpl in Hus. injection Hus as Hus. gsimpl.
  rewrite decide_False by (by intros H; apply H).
  by apply since_app.
Qed.

End Admission.

(** X8. The gate with discovery (accessControl of unnamed/part_007) forwards
    only whom it serves, whatever fails: if an event is forwarded, then it
    came from the operator in a private chat, or from a group stored as
    allowed and a sender stored as allowed (or without a sender), and the
    store is as it was. When the two lookups answer, every such event is
    forwarded, and just forwarded. *)
Theorem discovery_gate_forwards_exactly_the_admitted (env : Env) (w : World)
    (ctx : Context) :
  let w' := (run env (GroupGate.accessControl env ctx) w).1 in
  (Forwarded ∈ since w w' ->
   admitted env (store w) ctx = true /\ store w' = store w)
  /\ (admitted env (store w) ctx = true ->
      db_fault env (opno w) = false ->
      db_fault env (S (opno w)) = false ->
      since w w' = [Forwarded]).
Proof.
  split.
  - apply gate_forwards_admitted.
  - apply gate_admits.
Qed.

Lemma discovery_gate_forwards_exactly_the_admitted_witness :
  admitted Scenarios.env_ok (store Scenarios.known_sender_world)
           (mkContext (Some Scenarios.sara)
                      (Some (mkChat (-200) ChatGroup (Some "Office")))
                      None (Some "hello")) = true
  /\ since Scenarios.known_sender_world
       (run Scenarios.env_ok
            (GroupGate.accessControl Scenarios.env_ok
               (mkContext (Some Scenarios.sara)
                          (Some (mkChat (-200) ChatGroup (Some "Office")))
                          None (Some "hello")))
            Scenarios.known_sender_world).1
     = [Forwarded].
Proof.
  split; [reflexivity|].
  apply (discovery_gate_forwards_exactly_the_admitted Scenarios.env_ok
           Scenarios.known_sender_world
           (mkContext (Some Scenarios.sara)
                      (Some (mkChat (-200) ChatGroup (Some "Office")))
                      None (Some "hello"))); reflexivity.
Defined.

(** ** The current gate, again *)
Section CurrentGateOutcome.

Variable env : Env.
Variable w : World.
Variable ctx : Context.

Lemma current_gate_returns :
  (run env (Middleware.accessControl ctx) w).2 = inr tt.
Proof.
  unfold Middleware.accessControl.
  destruct (chat_is ctx ChatPrivate); [done|].
  destruct (truthy (getChatTelegramId ctx) && group_like ctx); [|done].
  crunch. all: done.
Qed.

Lemma current_gate_keeps_groups :
  groups (store (run env (Middleware.accessControl ctx) w).1)
  = groups (store w).
Proof.
  unfold Middleware.accessControl, createUser.
  destruct (chat_is ctx ChatPrivate); [done|].
  destruct (truthy (getChatTelegramId ctx) && group_like ctx); [|done].
  crunch. all: done.
Qed.

Variable sender : Sender.
Hypothesis Hdb : forall n, db_fault env n = false.
Hypothesis Hgroup : group_like ctx = true.
Hypothesis Hfrom : ctx_from ctx = Some sender.

Lemma current_gate_unfolds (x : World) :
  run env (Middleware.accessControl ctx) x
  = run env
      (do! try_catch
             (let! user := db (findUserByTelegramId (sender_id sender)) in
              match user with
              | None =>
                  do! db (createUser
                            (mkNewUser (sender_id sender)
                               (sender_name ctx "Unknown")
                               (sender_username ctx) (Some ALLOWED) None)) in
                  Ret tt
              | Some user =>
                  if decide (user_status user <> ALLOWED) then
                    do! db (updateUserByTelegramId (sender_id sender)
                              allow_patch) in
                    Ret tt
                  else Ret tt
              end)
             (fun error => console_error "[AccessControl] Error:" (Some error))
       in next) x.
Proof.
  destruct (group_like_chat ctx Hgroup) as (chat & Hc & Hp & Hid).
  unfold Middleware.accessControl.
  rewrite Hp, Hid, Hgroup, truthy_pretty, (sender_telegramId ctx sender Hfrom).
  unfold sender_id. by rewrite nonempty_pretty.
Qed.

Let w1 : World := (run env (Middleware.accessControl ctx) w).1.

Lemma current_gate_leaves_sender_allowed :
  exists u, stored_user (store w1) (sender_id sender) = Some u
            /\ user_status u = ALLOWED.
Proof.
  subst w1. rewrite current_gate_unfolds. unfold stored_user.
  hsimpl. rewrite Hdb. hsimpl.
  destruct (head (filter (by_telegramId (sender_id sender))
                         (users (store w)))) as [u|] eqn:Hu; hsimpl.
  - destruct (decide (user_status u <> ALLOWED)) as [Hst|Hst]; hsimpl.
    + rewrite Hdb. hsimpl.
      assert (by_telegramId (sender_id sender) u) as Hsel.
      { apply head_Some_elem_of in Hu.
        by apply list_elem_of_filter in Hu as [? _]. }
      rewrite head_filter_map
        by (intros x; by destruct (decide (by_telegramId (sender_id sender) x))).
      rewrite Hu. cbn [fmap option_fmap option_map].
      rewrite decide_True by done.
      eexists. split; [reflexivity|reflexivity].
    + exists u. split; [done|].
      destruct (user_status u); try done; by destruct Hst.
  - rewrite Hdb. unfold createUser. hsimpl.
    rewrite bool_decide_eq_false_2
      by (by apply (stored_user_None (store w))).
    hsimpl. rewrite filter_app.
    apply (head_filter_absent (by_telegramId (sender_id sender))) in Hu.
    rewrite (filter_none _ _ Hu).
    rewrite filter_cons_True by done.
    eexists. split; [reflexivity|reflexivity].
Qed.

Lemma current_gate_allowed_is_fixed (x : World) (u : ManagedUser) :
  stored_user (store x) (sender_id sender) = Some u ->
  user_status u = ALLOWED ->
  store (run env (Middleware.accessControl ctx) x).1 = store x.
Proof.
  intros Hu Hst. rewrite current_gate_unfolds. unfold stored_user in Hu.
  hsimpl. rewrite Hdb. hsimpl. rewrite Hu. hsimpl.
  by rewrite decide_False by (by intros H; apply H).
Qed.

End CurrentGateOutcome.

(** X9. The current gate (accessControl of src/bot/middleware.ts) is fail-open
    in every case: whatever the store does, the handler returns without an
    exception, has forwarded the event exactly once, after console output
    at most, has made no Telegram call and has left the group table
    alone. *)
Theorem current_gate_always_forwards_once (env : Env) (w : World)
    (ctx : Context) :
  let r := run env (Middleware.accessControl ctx) w in
  r.2 = inr tt
  /\ (exists logs, since w r.1 = logs ++ [Forwarded] /\ Forall is_logged logs)
  /\ groups (store r.1) = groups (store w).
Proof.
  split; [|split].
  - apply current_gate_returns.
  - apply current_gate_forwards.
  - apply current_gate_keeps_groups.
Qed.

(** X10. The current gate settles after one event: when the store answers, a
    group event of a sender leaves that sender stored as allowed, whatever
    was stored before, and the next event of the same sender changes
    nothing in the store. *)
Theorem current_gate_settles_after_one_event (env : Env) (w : World)
    (ctx : Context) (sender : Sender) :
  (forall n, db_fault env n = false) ->
  group_like ctx = true ->
  ctx_from ctx = Some sender ->
  let w1 := (run env (Middleware.accessControl ctx) w).1 in
  let w2 := (run env (Middleware.accessControl ctx) w1).1 in
  (exists u, stored_user (store w1) (sender_id sender) = Some u
             /\ user_status u = ALLOWED)
  /\ store w2 = store w1.
Proof.
  intros Hdb Hg Hf w1 w2.
  destruct (current_gate_leaves_sender_allowed env w ctx sender Hdb Hg Hf)
    as (u & Hu & Hst).
  split; [by exists u|].
  by apply (current_gate_allowed_is_fixed env ctx sender Hdb Hg Hf w1 u).
Qed.

Lemma current_gate_settles_after_one_event_witness :
  let w1 := (run Scenarios.env_ok
                 (Middleware.accessControl Scenarios.group_event)
                 Scenarios.pending_world).1 in
  let w2 := (run Scenarios.env_ok
                 (Middleware.accessControl Scenarios.group_event) w1).1 in
  (exists u, stored_user (store w1) (sender_id Scenarios.sara) = Some u
             /\ user_status u = ALLOWED)
  /\ store w2 = store w1.
Proof.
  apply (current_gate_settles_after_one_event Scenarios.env_ok
           Scenarios.pending_world Scenarios.group_event Scenarios.sara);
    reflexivity.
Defined.

(** ** Decisions from the notification *)
Section TryCatch.

Variable env : Env.

(** A try block runs its body; the catch clause runs where the body
    threw. *)
Lemma run_try_catch {A : Type} (p : Prog A) (h : Error -> Prog A)
    (w : World) :
  run env (try_catch p h) w
  = match run env p w with
    | (w', inr a) => (w', inr a)
    | (w', inl e) => run env (h e) w'
    end.
Proof.
  revert w. induction p as [a|e|R q k IHk h0 IHh|c k IHk h0 IHh|l k IHk
                            |f k IHk|k IHk]; intros w; simpl; try done.
  - destruct (db_fault env (opno w)); [apply IHh|].
    destruct (q (clock env (opno w)) (store w)) as [e|[s r]];
      [apply IHh|apply IHk].
  - destruct (api_fault env (opno w)); [apply IHh|apply IHk].
Qed.

End TryCatch.

Section Decisions.

Variable env : Env.
Hypothesis Hdb : forall n, db_fault env n = false.
Hypothesis Hapi : forall n, api_fault env n = false.

Lemma reject_once (w : World) (telegramId : string) (u : ManagedUser) :
  stored_user (store w) telegramId = Some u ->
  let w1 := (run env (Discovery.handleRejectUser telegramId) w).1 in
  since w w1 = rejection_report u telegramId
  /\ users (store w1)
     = map (set_status_of (user_id u) REJECTED (clock env (S (opno w))))
           (users (store w))
  /\ groups (store w1) = groups (store w).
Proof.
  intros Hstored. unfold Discovery.handleRejectUser.
  unfold stored_user in Hstored.
  hsimpl. rewrite !Hdb. hsimpl. rewrite Hstored. hsimpl.
  rewrite !Hdb. hsimpl. rewrite !Hapi. hsimpl.
  split; [|done].
  apply since_app. hsimpl. by rewrite <- !app_assoc.
Qed.

Lemma resolve_absent (w : World) (telegramId : string) :
  stored_user (store w) telegramId = None ->
  run env (Discovery.handleRejectUser telegramId) w
  = run env (Discovery.handleApproveUser telegramId) w
  /\ let w1 := (run env (Discovery.handleRejectUser telegramId) w).1 in
     store w1 = store w /\ since w w1 = [not_found_alert].
Proof.
  intros Habs. unfold Discovery.handleRejectUser, Discovery.handleApproveUser.
  unfold stored_user in Habs.
  hsimpl. rewrite !Hdb. hsimpl. rewrite Habs. hsimpl. rewrite !Hapi. hsimpl.
  split; [done|]. split; [done|]. by apply since_app.
Qed.

Lemma stored_after_update (s : Store) (telegramId : string)
    (u : ManagedUser) (status : Status) (t : Z) :
  stored_user s telegramId = Some u ->
  head (filter (by_telegramId telegramId)
               (map (set_status_of (user_id u) status t) (users s)))
  = Some (set_status status t u).
Proof.
  intros H. rewrite head_filter_map.
  - unfold stored_user in H. rewrite H. simpl. unfold set_status_of.
    by rewrite decide_True by done.
  - intros x. unfold set_status_of, by_telegramId.
    by destruct (decide (by_id (user_id u) x)).
Qed.

End Decisions.

(** X11. handleRejectUser of src/bot/handlers/discovery.ts. When the store and
    Telegram answer: for a telegram id without a row the store stays as it
    is and the operator gets the user-not-found alert; for a stored id the
    row found is what the lookup returns afterwards, with status rejected
    and a fresh updatedAt, only rows with its internal id are rewritten,
    the group table is left alone, and the operator sees the edited
    message, the toast and the console line of a rejection. *)
Theorem rejection_from_the_notification (env : Env) (w : World)
    (telegramId : string) :
  (forall n, db_fault env n = false) ->
  (forall n, api_fault env n = false) ->
  let w' := (run env (Discovery.handleRejectUser telegramId) w).1 in
  match stored_user (store w) telegramId with
  | None => store w' = store w /\ since w w' = [not_found_alert]
  | Some u =>
      stored_user (store w') telegramId
      = Some (set_status REJECTED (clock env (S (opno w))) u)
      /\ users (store w')
         = map (set_status_of (user_id u) REJECTED (clock env (S (opno w))))
               (users (store w))
      /\ groups (store w') = groups (store w)
      /\ since w w' = rejection_report u telegramId
  end.
Proof.
  intros Hdb Hapi w'.
  destruct (stored_user (store w) telegramId) as [u|] eqn:Hu.
  - destruct (reject_once env Hdb Hapi w telegramId u Hu) as (Hr & Hus & Hgs).
    fold w' in Hr, Hus, Hgs. split; [|done].
    unfold stored_user. rewrite Hus. by apply stored_after_update.
  - by destruct (resolve_absent env Hdb Hapi w telegramId Hu) as (_ & ? & ?).
Qed.

Lemma rejection_from_the_notification_witness :
  stored_user
    (store (run Scenarios.env_ok (Discovery.handleRejectUser "42")
                Scenarios.pending_world).1) "42"
  = Some (set_status REJECTED 1 (Scenarios.sara_row PENDING)).
Proof.
  pose proof (rejection_from_the_notification Scenarios.env_ok
                Scenarios.pending_world "42"
                (fun n => eq_refl) (fun n => eq_refl)) as H.
  assert (stored_user (store Scenarios.pending_world) "42"
          = Some (Scenarios.sara_row PENDING)) as Hs by reflexivity.
  cbv zeta in H. rewrite Hs in H. destruct H as (H & _). exact H.
Defined.

(** X12. The resolvers of src/bot/handlers/discovery.ts compose: when the store
    and Telegram answer, a rejection after an approval leaves the user
    rejected, and an approval after a rejection leaves the user allowed;
    the later decision stands. *)
Theorem the_later_decision_stands (env : Env) (w : World)
    (telegramId : string) (u : ManagedUser) :
  (forall n, db_fault env n = false) ->
  (forall n, api_fault env n = false) ->
  stored_user (store w) telegramId = Some u ->
  let approve := Discovery.handleApproveUser telegramId in
  let reject := Discovery.handleRejectUser telegramId in
  user_status
    <$> stored_user (store (run env reject (run env approve w).1).1) telegramId
  = Some REJECTED
  /\ user_status
       <$> stored_user (store (run env approve (run env reject w).1).1)
                       telegramId
     = Some ALLOWED.
Proof.
  intros Hdb Hapi Hu approve reject. split.
  - destruct (approve_once env Hdb Hapi w telegramId u Hu) as (_ & Hus & _).
    fold approve in Hus.
    assert (stored_user (store (run env approve w).1) telegramId
            = Some (set_status ALLOWED (clock env (S (opno w))) u)) as Hu1.
    { unfold stored_user. rewrite Hus.
      by apply (stored_after_approval (store w) (users (store w))). }
    destruct (reject_once env Hdb Hapi _ telegramId _ Hu1) as (_ & Hus2 & _).
    fold reject in Hus2. unfold stored_user. rewrite Hus2.
    by rewrite (stored_after_update _ _ _ _ _ Hu1).
  - destruct (reject_once env Hdb Hapi w telegramId u Hu) as (_ & Hus & _).
    fold reject in Hus.
    assert (stored_user (store (run env reject w).1) telegramId
            = Some (set_status REJECTED (clock env (S (opno w))) u)) as Hu1.
    { unfold stored_user. rewrite Hus. by apply stored_after_update. }
    destruct (approve_once env Hdb Hapi _ telegramId _ Hu1) as (_ & Hus2 & _).
    fold approve in Hus2. unfold stored_user. rewrite Hus2.
    by rewrite (stored_after_approval _ (users (store (run env reject w).1))
                  _ _ _ Hu1).
Qed.

Lemma the_later_decision_stands_witness :
  user_status
    <$> stored_user
          (store (run Scenarios.env_ok (Discovery.handleRejectUser "42")
                      (run Scenarios.env_ok (Discovery.handleApproveUser "42")
                           Scenarios.pending_world).1).1) "42"
  = Some REJECTED.
Proof.
  by destruct (the_later_decision_stands Scenarios.env_ok
                 Scenarios.pending_world "42" (Scenarios.sara_row PENDING)
                 (fun n => eq_refl) (fun n => eq_refl) eq_refl) as [H _].
Defined.

Section Containment.

Variable env : Env.
Variable w : World.
Variable ctx : Context.
Hypothesis Hop : from_operator env ctx.
Hypothesis Hapi : forall n, api_fault env n = false.

Lemma notification_handler_returns (data : string) :
  (run env (Discovery.approval_callback env ctx data) w).2 = inr tt.
Proof.
  unfold Discovery.approval_callback, Discovery.handleApproveUser,
    Discovery.handleRejectUser.
  rewrite bool_decide_eq_true_2 by done.
  cbn [negb]. cbv zeta.
  destruct (String.eqb (default EmptyString (head (split_on ":" data)))
                       "approve_user").
  - hsimpl. destruct (db_fault env (opno w)); hsimpl; rewrite ?Hapi;
      hsimpl; [done|].
    destruct (head _); hsimpl.
    + destruct (db_fault env (S (opno w))); hsimpl; rewrite ?Hapi; hsimpl;
        rewrite ?Hapi; done.
    + rewrite ?Hapi. done.
  - destruct (String.eqb (default EmptyString (head (split_on ":" data)))
                         "reject_user"); [|done].
    hsimpl. destruct (db_fault env (opno w)); hsimpl; rewrite ?Hapi;
      hsimpl; [done|].
    destruct (head _); hsimpl.
    + destruct (db_fault env (S (opno w))); hsimpl; rewrite ?Hapi; hsimpl;
        rewrite ?Hapi; done.
    + rewrite ?Hapi. done.
Qed.

Variable data : string.
Variable telegramId : string.
Hypothesis Hdata :
  data = "approve_user:" +:+ telegramId \/ data = "reject_user:" +:+ telegramId.

Let w' : World := (run env (Discovery.approval_callback env ctx data) w).1.

Lemma notification_lookup_failure :
  db_fault env (opno w) = true ->
  store w' = store w
  /\ since w w' = resolver_failure_report StoreUnavailable.
Proof.
  intros Hd. subst w'.
  unfold Discovery.approval_callback, Discovery.handleApproveUser,
    Discovery.handleRejectUser.
  rewrite bool_decide_eq_true_2 by done.
  cbn [negb]. cbv zeta.
  destruct Hdata as [-> | ->].
  - change ("approve_user:" +:+ telegramId)
      with ("approve_user" +:+ String ":" telegramId).
    rewrite split_on_app by reflexivity.
    hsimpl. rewrite Hd. hsimpl. rewrite Hapi. hsimpl.
    split; [done|]. apply since_app. hsimpl. by rewrite <- !app_assoc.
  - change ("reject_user:" +:+ telegramId)
      with ("reject_user" +:+ String ":" telegramId).
    rewrite split_on_app by reflexivity.
    hsimpl. rewrite Hd. hsimpl. rewrite Hapi. hsimpl.
    split; [done|]. apply since_app. hsimpl. by rewrite <- !app_assoc.
Qed.

Lemma notification_update_failure (u : ManagedUser) :
  occurs ":" telegramId = false ->
  stored_user (store w) telegramId = Some u ->
  db_fault env (opno w) = false ->
  db_fault env (S (opno w)) = true ->
  store w' = store w
  /\ since w w' = resolver_failure_report StoreUnavailable.
Proof.
  intros Hocc Hu Hd0 Hd1. subst w'.
  unfold Discovery.approval_callback, Discovery.handleApproveUser,
    Discovery.handleRejectUser.
  rewrite bool_decide_eq_true_2 by done.
  cbn [negb]. cbv zeta. unfold stored_user in Hu.
  destruct Hdata as [-> | ->].
  - change ("approve_user:" +:+ telegramId)
      with ("approve_user" +:+ String ":" telegramId).
    rewrite split_on_app, split_on_absent by done.
    hsimpl. rewrite Hd0. hsimpl. rewrite Hu. hsimpl. rewrite Hd1. hsimpl.
    rewrite Hapi. hsimpl.
    split; [done|]. apply since_app. hsimpl. by rewrite <- !app_assoc.
  - change ("reject_user:" +:+ telegramId)
      with ("reject_user" +:+ String ":" telegramId).
    rewrite split_on_app, split_on_absent by done.
    hsimpl. rewrite Hd0. hsimpl. rewrite Hu. hsimpl. rewrite Hd1. hsimpl.
    rewrite Hapi. hsimpl.
    split; [done|]. apply since_app. hsimpl. by rewrite <- !app_assoc.
Qed.

End Containment.

(** X13. The callback handler of discovery.ts keeps store failures inside: for
    the operator, when Telegram answers, the handler returns without an
    exception whatever the store does; and when the lookup or the status
    update of an approve or reject click fails, the store is left as it
    was, the error is written to the console and the operator gets the
    error alert instead of a confirmation. *)
Theorem notification_handler_contains_store_failures (env : Env) (w : World)
    (ctx : Context) (telegramId : string) (u : ManagedUser) :
  from_operator env ctx ->
  (forall n, api_fault env n = false) ->
  occurs ":" telegramId = false ->
  stored_user (store w) telegramId = Some u ->
  (forall data,
      (run env (Discovery.approval_callback env ctx data) w).2 = inr tt)
  /\ (forall data,
        data = "approve_user:" +:+ telegramId
        \/ data = "reject_user:" +:+ telegramId ->
        db_fault env (opno w) = true
        \/ (db_fault env (opno w) = false /\ db_fault env (S (opno w)) = true) ->
        let w' := (run env (Discovery.approval_callback env ctx data) w).1 in
        store w' = store w
        /\ since w w' = resolver_failure_report StoreUnavailable).
Proof.
  intros Hop Hapi Hocc Hu. split.
  - intros data. by apply notification_handler_returns.
  - intros data Hdata [Hd|[Hd0 Hd1]].
    + by apply (notification_lookup_failure env w ctx Hop Hapi data telegramId).
    + by apply (notification_update_failure env w ctx Hop Hapi data
                  telegramId Hdata u).
Qed.

Lemma notification_handler_contains_store_failures_witness :
  let click :=
    mkContext (Some (mkSender 1000 "Admin" None))
              (Some (mkChat 1000 ChatPrivate None))
              (Some "approve_user:42") None in
  let w' := (run Scenarios.env_down
                 (Discovery.approval_callback Scenarios.env_down click
                    "approve_user:42") Scenarios.pending_world).1 in
  store w' = store Scenarios.pending_world
  /\ since Scenarios.pending_world w' = resolver_failure_report StoreUnavailable.
Proof.
  intros click.
  destruct (notification_handler_contains_store_failures Scenarios.env_down
              Scenarios.pending_world click "42" (Scenarios.sara_row PENDING)
              eq_refl (fun n => eq_refl) eq_refl eq_refl) as [_ H].
  apply (H "approve_user:42"); [by left|by left].
Defined.

(** ** From the first message to the decision *)
Section FirstContact.

Variable env : Env.
Variable ctx click : Context.
Variable sender : Sender.
Variable chat : Chat.
Variable g : ManagedGroup.

Hypothesis Hdb : forall n, db_fault env n = false.
Hypothesis Hapi : forall n, api_fault env n = false.
Hypothesis Hadmin : BOT_ADMIN_TELEGRAM_ID env <> EmptyString.
Hypothesis Hgroup : group_like ctx = true.
Hypothesis Hchat : ctx_chat ctx = Some chat.
Hypothesis Hfrom : ctx_from ctx = Some sender.
Hypothesis Hallowed : group_status g = ALLOWED.
Hypothesis Hop : from_operator env click.

Let gate : Prog unit := GroupGate.accessControl env ctx.
Let userId : string := sender_id sender.

Lemma admitted_here (s : Store) :
  stored_group s (pretty (chat_id chat)) = Some g ->
  admitted env s ctx
  = bool_decide (user_status <$> stored_user s userId = Some ALLOWED).
Proof.
  intros Hg.
  destruct (admitted_group env ctx s Hgroup) as (chat' & Hc & _ & _ & ->).
  rewrite Hchat in Hc. injection Hc as <-.
  rewrite Hg, Hfrom. simpl. by rewrite Hallowed, bool_decide_eq_true_2.
Qed.

(** The gate on an event of a stored sender who is not allowed. *)
Lemma gate_drops_quietly (w : World) (u : ManagedUser) :
  stored_group (store w) (pretty (chat_id chat)) = Some g ->
  stored_user (store w) userId = Some u ->
  user_status u <> ALLOWED ->
  since w (run env gate w).1 = [].
Proof.
  intros Hg Hu Hst. subst gate userId. unfold GroupGate.accessControl.
  destruct (group_like_chat ctx Hgroup) as (chat' & Hc & Hp & Hid).
  rewrite Hchat in Hc. injection Hc as <-.
  rewrite Hp, Hgroup, Hid, nonempty_pretty,
    (sender_telegramId ctx sender Hfrom).
  unfold sender_id in *. rewrite nonempty_pretty.
  unfold stored_group, stored_user in *.
  gsimpl. rewrite Hdb, Hg. gsimpl.
  rewrite decide_False by (by intros H; apply H).
  gsimpl. rewrite Hdb, Hu. gsimpl.
  rewrite decide_True by done. by apply since_refl_trace.
Qed.

(** The gate on the first event of an unknown sender. *)
Lemma first_contact_run (w : World) :
  stored_group (store w) (pretty (chat_id chat)) = Some g ->
  stored_user (store w) userId = None ->
  let w1 := (run env gate w).1 in
  since w w1 = [Sent (user_request env ctx userId);
                Logged (ConsoleLog (user_discovery_logline ctx userId))]
  /\ store w1
     = store_with (store w)
         (inserted_user (user_seq (store w) + 1) (clock env (2 + opno w)%nat)
                        (discovered_user ctx userId)).
Proof.
  intros Hg Hu. subst gate userId. unfold GroupGate.accessControl.
  destruct (group_like_chat ctx Hgroup) as (chat' & Hc & Hp & Hid).
  rewrite Hchat in Hc. injection Hc as <-.
  rewrite Hp, Hgroup, Hid, nonempty_pretty,
    (sender_telegramId ctx sender Hfrom).
  pose proof (stored_user_None _ _ Hu) as Hnex.
  unfold sender_id in *. rewrite nonempty_pretty.
  unfold stored_group, stored_user in *.
  gsimpl. rewrite Hdb, Hg. gsimpl.
  rewrite decide_False by (by intros H; apply H).
  gsimpl. rewrite Hdb, Hu.
  unfold GroupGate.triggerUserDiscovery, createUser.
  hsimpl. rewrite Hdb. hsimpl.
  rewrite bool_decide_eq_false_2 by done.
  destruct (String.eqb_spec (BOT_ADMIN_TELEGRAM_ID env) EmptyString)
    as [E|_]; [by destruct Hadmin|].
  hsimpl. rewrite Hapi. hsimpl.
  split; [|done]. apply since_app. hsimpl. by rewrite <- !app_assoc.
Qed.

Lemma stored_in_store_with (s : Store) (row : ManagedUser) :
  stored_user s (user_telegramId row) = None ->
  stored_user (store_with s row) (user_telegramId row) = Some row.
Proof.
  unfold stored_user, store_with. cbn [users]. intros Hu.
  apply (head_filter_absent (by_telegramId (user_telegramId row))) in Hu.
  rewrite filter_app, (filter_none _ _ Hu).
  by rewrite filter_cons_True by done.
Qed.

(** A click of the operator on the Approve button of the request. *)
Lemma approve_click_run (w : World) (id : Z) :
  run env (Discovery.approval_callback env click
             ("approve_" +:+ "user" +:+ ":" +:+ pretty id)) w
  = run env (try_catch (Discovery.handleApproveUser (pretty id))
               (fun error =>
                  do! console_error "[Discovery Handler] Error:"
                                    (Some error) in
                  api (AnswerCallbackQuery
                         (Some "❌ Error processing request") true))) w.
Proof.
  unfold Discovery.approval_callback.
  rewrite bool_decide_eq_true_2 by done.
  change ("approve_" +:+ "user" +:+ ":" +:+ pretty id)
    with ("approve_user" +:+ String ":" (pretty id)).
  rewrite split_on_app, split_colon_pretty by reflexivity. reflexivity.
Qed.

Lemma reject_click_run (w : World) (id : Z) :
  run env (Discovery.approval_callback env click
             ("reject_" +:+ "user" +:+ ":" +:+ pretty id)) w
  = run env (try_catch (Discovery.handleRejectUser (pretty id))
               (fun error =>
                  do! console_error "[Discovery Handler] Error:"
                                    (Some error) in
                  api (AnswerCallbackQuery
                         (Some "❌ Error processing request") true))) w.
Proof.
  unfold Discovery.approval_callback.
  rewrite bool_decide_eq_true_2 by done.
  change ("reject_" +:+ "user" +:+ ":" +:+ pretty id)
    with ("reject_user" +:+ String ":" (pretty id)).
  rewrite split_on_app, split_colon_pretty by reflexivity. reflexivity.
Qed.

Lemma approve_keeps_groups (w : World) (telegramId : string) :
  groups (store (run env (Discovery.handleApproveUser telegramId) w).1)
  = groups (store w).
Proof. unfold Discovery.handleApproveUser. crunch. all: done. Qed.

Lemma approve_returns (w : World) (telegramId : string) :
  (run env (Discovery.handleApproveUser telegramId) w).2 = inr tt.
Proof.
  unfold Discovery.handleApproveUser. hsimpl. rewrite Hdb.
  destruct (head _); hsimpl; rewrite ?Hdb; hsimpl; by rewrite ?Hapi.
Qed.

Lemma reject_returns (w : World) (telegramId : string) :
  (run env (Discovery.handleRejectUser telegramId) w).2 = inr tt.
Proof.
  unfold Discovery.handleRejectUser. hsimpl. rewrite Hdb.
  destruct (head _); hsimpl; rewrite ?Hdb; hsimpl; by rewrite ?Hapi.
Qed.

Variable w0 : World.
Hypothesis Hstored : stored_group (store w0) (pretty (chat_id chat)) = Some g.
Hypothesis Hnew : stored_user (store w0) userId = None.

Let w1 : World := (run env gate w0).1.

Lemma first_contact_row :
  exists row, stored_user (store w1) userId = Some row
              /\ user_status row = PENDING
              /\ stored_group (store w1) (pretty (chat_id chat)) = Some g.
Proof.
  destruct (first_contact_run w0 Hstored Hnew) as (_ & Hs).
  fold w1 in Hs. eexists. rewrite Hs. split; [|split].
  - by apply (stored_in_store_with (store w0)
                (inserted_user _ _ (discovered_user ctx userId))).
  - done.
  - done.
Qed.

Lemma approval_opens_the_gate :
  let w2 := (run env (Discovery.approval_callback env click
                        ("approve_" +:+ "user" +:+ ":" +:+ userId)) w1).1 in
  user_status <$> stored_user (store w2) userId = Some ALLOWED
  /\ since w2 (run env gate w2).1 = [Forwarded].
Proof.
  destruct first_contact_row as (row & Hrow & _ & Hg1).
  unfold userId, sender_id in *.
  rewrite approve_click_run, run_try_catch.
  pose proof (approve_returns w1 (pretty (from_id sender))) as Hret.
  destruct (approve_once env Hdb Hapi w1 _ row Hrow) as (_ & Hus & _).
  destruct (run env (Discovery.handleApproveUser (pretty (from_id sender)))
                w1) as [w2 r] eqn:Hrun.
  simpl in Hret, Hus. subst r. cbn [fst].
  assert (stored_user (store w2) (pretty (from_id sender))
          = Some (set_status ALLOWED (clock env (S (opno w1))) row)) as Hu2.
  { unfold stored_user. rewrite Hus.
    by apply (stored_after_approval (store w1) (users (store w1))). }
  assert (stored_group (store w2) (pretty (chat_id chat)) = Some g) as Hg2.
  { unfold stored_group in *. rewrite <- Hg1.
    pose proof (approve_keeps_groups w1 (pretty (from_id sender))) as Hgs.
    rewrite Hrun in Hgs. simpl in Hgs. by rewrite Hgs. }
  split; [by rewrite Hu2|].
  apply (gate_admits env ctx w2); [|apply Hdb|apply Hdb].
  rewrite (admitted_here _ Hg2). unfold userId, sender_id.
  by rewrite Hu2.
Qed.

Lemma rejection_keeps_the_gate_shut :
  let w2 := (run env (Discovery.approval_callback env click
                        ("reject_" +:+ "user" +:+ ":" +:+ userId)) w1).1 in
  user_status <$> stored_user (store w2) userId = Some REJECTED
  /\ since w2 (run env gate w2).1 = [].
Proof.
  destruct first_contact_row as (row & Hrow & _ & Hg1).
  unfold userId, sender_id in *.
  rewrite reject_click_run, run_try_catch.
  pose proof (reject_returns w1 (pretty (from_id sender))) as Hret.
  destruct (reject_once env Hdb Hapi w1 _ row Hrow) as (_ & Hus & Hgs).
  destruct (run env (Discovery.handleRejectUser (pretty (from_id sender)))
                w1) as [w2 r] eqn:Hrun.
  simpl in Hret, Hus, Hgs. subst r. cbn [fst].
  assert (stored_user (store w2) (pretty (from_id sender))
          = Some (set_status REJECTED (clock env (S (opno w1))) row)) as Hu2.
  { unfold stored_user. rewrite Hus. by apply stored_after_update. }
  assert (stored_group (store w2) (pretty (chat_id chat)) = Some g) as Hg2.
  { unfold stored_group in *. by rewrite Hgs. }
  split; [by rewrite Hu2|].
  by apply (gate_drops_quietly w2 _ Hg2 Hu2).
Qed.

End FirstContact.

(** X14. The gate with discovery (unnamed/part_007) and the resolver of
    discovery.ts, end to end. When the store and Telegram answer, the
    first message of an unknown sender in an allowed group is not
    forwarded: the sender is stored as pending and the operator gets one
    request with an Approve and a Reject button. If the operator presses
    Approve, the sender is stored as allowed and the next message is
    forwarded; if the operator presses Reject, the sender is stored as
    rejected and the next message is dropped without a trace. *)
Theorem first_contact_then_decision (env : Env) (w0 : World)
    (ctx click : Context) (sender : Sender) (chat : Chat) (g : ManagedGroup) :
  (forall n, db_fault env n = false) ->
  (forall n, api_fault env n = false) ->
  BOT_ADMIN_TELEGRAM_ID env <> EmptyString ->
  group_like ctx = true ->
  ctx_chat ctx = Some chat ->
  ctx_from ctx = Some sender ->
  stored_group (store w0) (pretty (chat_id chat)) = Some g ->
  group_status g = ALLOWED ->
  stored_user (store w0) (sender_id sender) = None ->
  from_operator env click ->
  let gate := GroupGate.accessControl env ctx in
  let w1 := (run env gate w0).1 in
  exists (text : string) (approve reject : Button),
    since w0 w1
    = [Sent (SendMessage (BOT_ADMIN_TELEGRAM_ID env) text
                         (Some [[approve; reject]]));
       Logged (ConsoleLog (user_discovery_logline ctx (sender_id sender)))]
    /\ user_status <$> stored_user (store w1) (sender_id sender) = Some PENDING
    /\ (let w2 := (run env (Discovery.approval_callback env click
                              (callback_data approve)) w1).1 in
        user_status <$> stored_user (store w2) (sender_id sender)
        = Some ALLOWED
        /\ since w2 (run env gate w2).1 = [Forwarded])
    /\ (let w2 := (run env (Discovery.approval_callback env click
                              (callback_data reject)) w1).1 in
        user_status <$> stored_user (store w2) (sender_id sender)
        = Some REJECTED
        /\ since w2 (run env gate w2).1 = []).
Proof.
  intros Hdb Hapi Hadmin Hgroup Hchat Hfrom Hstored Hallowed Hnew Hop gate w1.
  eexists _, _, _. split; [|split; [|split]].
  - by apply (first_contact_run env ctx sender chat g Hdb Hapi Hadmin Hgroup
                Hchat Hfrom Hallowed w0).
  - destruct (first_contact_row env ctx sender chat g Hdb Hapi Hadmin Hgroup
                Hchat Hfrom Hallowed w0 Hstored Hnew) as (row & Hrow & Hst & _).
    subst w1 gate. rewrite Hrow. simpl. by rewrite Hst.
  - by apply (approval_opens_the_gate env ctx click sender chat g Hdb Hapi
                Hadmin Hgroup Hchat Hfrom Hallowed Hop w0).
  - by apply (rejection_keeps_the_gate_shut env ctx click sender chat g Hdb
                Hapi Hadmin Hgroup Hchat Hfrom Hallowed Hop w0).
Qed.

Lemma first_contact_then_decision_witness :
  let click :=
    mkContext (Some (mkSender 1000 "Admin" None))
              (Some (mkChat 1000 ChatPrivate None)) None None in
  let w0 := Scenarios.world_of [] [Scenarios.team_row ALLOWED] in
  let gate := GroupGate.accessControl Scenarios.env_ok Scenarios.group_event in
  let w1 := (run Scenarios.env_ok gate w0).1 in
  exists (text : string) (approve reject : Button),
    since w0 w1
    = [Sent (SendMessage "1000" text (Some [[approve; reject]]));
       Logged (ConsoleLog
                 (user_discovery_logline Scenarios.group_event
                    (sender_id Scenarios.sara)))]
    /\ user_status <$> stored_user (store w1) (sender_id Scenarios.sara)
       = Some PENDING
    /\ (let w2 := (run Scenarios.env_ok
                       (Discovery.approval_callback Scenarios.env_ok click
                          (callback_data approve)) w1).1 in
        user_status <$> stored_user (store w2) (sender_id Scenarios.sara)
        = Some ALLOWED
        /\ since w2 (run Scenarios.env_ok gate w2).1 = [Forwarded])
    /\ (let w2 := (run Scenarios.env_ok
                       (Discovery.approval_callback Scenarios.env_ok click
                          (callback_data reject)) w1).1 in
        user_status <$> stored_user (store w2) (sender_id Scenarios.sara)
        = Some REJECTED
        /\ since w2 (run Scenarios.env_ok gate w2).1 = []).
Proof.
  intros click w0.
  apply (first_contact_then_decision Scenarios.env_ok w0 Scenarios.group_event
           click Scenarios.sara Scenarios.team_chat
           (Scenarios.team_row ALLOWED)); reflexivity || done.
Defined.

(** ** The button panel *)
Section Panel.

Variable env : Env.
Variable ctx : Context.
Hypothesis Hop : from_operator env ctx.

Lemma pressing_operator (b : Button) : from_operator env (pressing ctx b).
Proof. exact Hop. Qed.

Lemma lookup_after_status_update (l : list ManagedUser) (id j : Z)
    (status : Status) (t : Z) :
  head (filter (by_id j) (map (set_status_of id status t) l))
  = set_status_of id status t <$> head (filter (by_id j) l).
Proof.
  apply head_filter_map. intros x. unfold set_status_of, by_id.
  by destruct (decide (user_id x = id)).
Qed.

Lemma set_status_of_other (id j : Z) (status : Status) (t : Z)
    (o : option ManagedUser) :
  j <> id -> (forall r, o = Some r -> user_id r = j) ->
  set_status_of id status t <$> o = o.
Proof.
  intros Hne Ho. destruct o as [r|]; [|done]. simpl. f_equal.
  unfold set_status_of. rewrite decide_False; [done|].
  unfold by_id. rewrite (Ho r eq_refl). done.
Qed.

Lemma lookup_by_id_id (s : Store) (j : Z) (r : ManagedUser) :
  stored_user_by_id s j = Some r -> user_id r = j.
Proof. intros H. by apply stored_user_by_id_elem in H as [_ ?]. Qed.

(** The id a panel button carries is the id its handler is called
    with. *)
Lemma press_approve (w : World) (id : Z) :
  run env (Admin.admin_callback env (pressing ctx (Admin.approve_button id)))
      w
  = run env
      (do! api (AnswerCallbackQuery None false) in
       try_catch (Admin.handleApproveUser id)
         (fun error =>
            do! console_error "[Admin] Error handling callback:"
                              (Some error) in
            api (Reply "❌ Error processing request." None))) w.
Proof.
  unfold Admin.admin_callback, pressing, Admin.approve_button.
  cbn [ctx_callback_data callback_data].
  change (Admin.APPROVE_USER +:+ ":" +:+ pretty id)
    with ("admin_approve_user" +:+ String ":" (pretty id)).
  assert (nonempty (Some ("admin_approve_user" +:+ String ":" (pretty id)))
          = Some ("admin_approve_user" +:+ String ":" (pretty id))) as ->
      by reflexivity.
  rewrite bool_decide_eq_true_2 by exact Hop.
  rewrite split_on_app, split_colon_pretty by reflexivity.
  cbn [negb head default lookup list_lookup].
  rewrite nonempty_pretty. cbn [mbind option_bind].
  rewrite parseInt_pretty. reflexivity.
Qed.

Lemma press_reject (w : World) (id : Z) :
  run env (Admin.admin_callback env (pressing ctx (Admin.reject_button id)))
      w
  = run env
      (do! api (AnswerCallbackQuery None false) in
       try_catch (Admin.handleRejectUser id)
         (fun error =>
            do! console_error "[Admin] Error handling callback:"
                              (Some error) in
            api (Reply "❌ Error processing request." None))) w.
Proof.
  unfold Admin.admin_callback, pressing, Admin.reject_button.
  cbn [ctx_callback_data callback_data].
  change (Admin.REJECT_USER +:+ ":" +:+ pretty id)
    with ("admin_reject_user" +:+ String ":" (pretty id)).
  assert (nonempty (Some ("admin_reject_user" +:+ String ":" (pretty id)))
          = Some ("admin_reject_user" +:+ String ":" (pretty id))) as ->
      by reflexivity.
  rewrite bool_decide_eq_true_2 by exact Hop.
  rewrite split_on_app, split_colon_pretty by reflexivity.
  cbn [negb head default lookup list_lookup].
  rewrite nonempty_pretty. cbn [mbind option_bind].
  rewrite parseInt_pretty. reflexivity.
Qed.

Lemma press_remove (w : World) (id : Z) :
  run env (Admin.admin_callback env (pressing ctx (Admin.remove_button id)))
      w
  = run env
      (do! api (AnswerCallbackQuery None false) in
       try_catch (Admin.handleRemoveUser id)
         (fun error =>
            do! console_error "[Admin] Error handling callback:"
                              (Some error) in
            api (Reply "❌ Error processing request." None))) w.
Proof.
  unfold Admin.admin_callback, pressing, Admin.remove_button.
  cbn [ctx_callback_data callback_data].
  change (Admin.REMOVE_USER +:+ ":" +:+ pretty id)
    with ("admin_remove_user" +:+ String ":" (pretty id)).
  assert (nonempty (Some ("admin_remove_user" +:+ String ":" (pretty id)))
          = Some ("admin_remove_user" +:+ String ":" (pretty id))) as ->
      by reflexivity.
  rewrite bool_decide_eq_true_2 by exact Hop.
  rewrite split_on_app, split_colon_pretty by reflexivity.
  cbn [negb head default lookup list_lookup].
  rewrite nonempty_pretty. cbn [mbind option_bind].
  rewrite parseInt_pretty. reflexivity.
Qed.

Hypothesis Hdb : forall n, db_fault env n = false.
Hypothesis Hapi : forall n, api_fault env n = false.

Variable w : World.
Variable u : ManagedUser.
Hypothesis Hu : stored_user_by_id (store w) (user_id u) = Some u.

Lemma approve_press_store :
  users (store (run env (Admin.admin_callback env
                           (pressing ctx (Admin.approve_button (user_id u))))
                    w).1)
  = map (set_status_of (user_id u) ALLOWED (clock env (2 + opno w)%nat))
        (users (store w)).
Proof.
  rewrite press_approve. unfold Admin.handleApproveUser.
  unfold stored_user_by_id in Hu.
  hsimpl. rewrite !Hapi. hsimpl. rewrite !Hdb. hsimpl. rewrite Hu. hsimpl.
  rewrite !Hdb. hsimpl. rewrite !Hapi. done.
Qed.

Lemma reject_press_store :
  users (store (run env (Admin.admin_callback env
                           (pressing ctx (Admin.reject_button (user_id u))))
                    w).1)
  = map (set_status_of (user_id u) REJECTED (clock env (2 + opno w)%nat))
        (users (store w)).
Proof.
  rewrite press_reject. unfold Admin.handleRejectUser.
  unfold stored_user_by_id in Hu.
  hsimpl. rewrite !Hapi. hsimpl. rewrite !Hdb. hsimpl. rewrite Hu. hsimpl.
  rewrite !Hdb. hsimpl. rewrite !Hapi. done.
Qed.

Lemma remove_press_store :
  users (store (run env (Admin.admin_callback env
                           (pressing ctx (Admin.remove_button (user_id u))))
                    w).1)
  = filter (fun r => ~ by_id (user_id u) r) (users (store w)).
Proof.
  rewrite press_remove. unfold Admin.handleRemoveUser.
  unfold stored_user_by_id in Hu.
  hsimpl. rewrite !Hapi. hsimpl. rewrite !Hdb. hsimpl. rewrite Hu. hsimpl.
  rewrite !Hdb. hsimpl. rewrite !Hapi. done.
Qed.

End Panel.

(** X17. The action buttons of the admin panel (buildUserActionKeyboard,
    handled by the callback handler of admin.ts) act on the user whose id
    they carry. When the store and Telegram answer and the operator
    presses a button built for the stored user u: Approve leaves u stored
    as allowed, Reject leaves u stored as rejected, Remove leaves no row
    with the id of u; and whichever button of the keyboard of u is
    pressed, the lookup of every other id answers as before. *)
Theorem panel_buttons_act_on_their_user (env : Env) (w : World)
    (ctx : Context) (u : ManagedUser) :
  (forall n, db_fault env n = false) ->
  (forall n, api_fault env n = false) ->
  from_operator env ctx ->
  stored_user_by_id (store w) (user_id u) = Some u ->
  let id := user_id u in
  let result (b : Button) : Store :=
    store (run env (Admin.admin_callback env (pressing ctx b)) w).1 in
  user_status <$> stored_user_by_id (result (Admin.approve_button id)) id
  = Some ALLOWED
  /\ user_status <$> stored_user_by_id (result (Admin.reject_button id)) id
     = Some REJECTED
  /\ stored_user_by_id (result (Admin.remove_button id)) id = None
  /\ forall b,
       b ∈ Admin.buildUserActionKeyboard id (StatusEnum (user_status u)) ->
       forall j, j <> id ->
                 stored_user_by_id (result b) j = stored_user_by_id (store w) j.
Proof.
  intros Hdb Hapi Hop Hu id result. subst id result. cbv beta.
  pose proof (approve_press_store env ctx Hop Hdb Hapi w u Hu) as Ha.
  pose proof (reject_press_store env ctx Hop Hdb Hapi w u Hu) as Hr.
  pose proof (remove_press_store env ctx Hop Hdb Hapi w u Hu) as Hd.
  unfold stored_user_by_id in *.
  split; [|split; [|split]].
  - rewrite Ha, lookup_after_status_update, Hu. simpl.
    unfold set_status_of. by rewrite decide_True by done.
  - rewrite Hr, lookup_after_status_update, Hu. simpl.
    unfold set_status_of. by rewrite decide_True by done.
  - rewrite Hd. apply (head_filter_absent (by_id (user_id u))).
    apply Forall_forall. intros r Hin.
    by apply list_elem_of_filter in Hin as [? _].
  - intros b Hb j Hne.
    assert (b = Admin.approve_button (user_id u)
            \/ b = Admin.reject_button (user_id u)
            \/ b = Admin.remove_button (user_id u)) as [->|[->| ->]].
    { unfold Admin.buildUserActionKeyboard in Hb.
      destruct (user_status u); cbn in Hb;
        repeat (apply elem_of_cons in Hb as [Hb|Hb]; [by eauto|]);
        by apply not_elem_of_nil in Hb. }
    + rewrite Ha, lookup_after_status_update.
      apply (set_status_of_other _ j); [done|].
      intros r Hr'. by apply (lookup_by_id_id (store w)).
    + rewrite Hr, lookup_after_status_update.
      apply (set_status_of_other _ j); [done|].
      intros r Hr'. by apply (lookup_by_id_id (store w)).
    + rewrite Hd. by rewrite filter_by_id_delete.
Qed.

Lemma panel_buttons_act_on_their_user_witness :
  let click :=
    mkContext (Some (mkSender 1000 "Admin" None))
              (Some (mkChat 1000 ChatPrivate None)) None None in
  stored_user_by_id
    (store (run Scenarios.env_ok
                (Admin.admin_callback Scenarios.env_ok
                   (pressing click (Admin.remove_button 1)))
                Scenarios.pending_world).1) 1
  = None.
Proof.
  intros click.
  by destruct (panel_buttons_act_on_their_user Scenarios.env_ok
                 Scenarios.pending_world click (Scenarios.sara_row PENDING)
                 (fun n => eq_refl) (fun n => eq_refl) eq_refl eq_refl)
    as (_ & _ & H & _).
Defined.

(** X18. A press of the operator that carries no id is answered with the
    invalid-id reply unless it is Cancel, the main menu or Add user: the
    callback handler of admin.ts asks for the id before it looks at the
    list action. This is what the Users button of the main menu gets; the
    store and the pending dialogue are left alone. *)
Theorem panel_press_without_an_id (env : Env) (w : World) (ctx : Context)
    (data : string) :
  from_operator env ctx ->
  (forall n, api_fault env n = false) ->
  ctx_callback_data ctx = Some data ->
  Admin.admin_trigger data = true ->
  occurs ":" data = false ->
  data <> Admin.CANCEL_ADD ->
  data <> Admin.SHOW_MAIN_MENU ->
  data <> Admin.ADD_USER ->
  let w' := (run env (Admin.admin_callback env ctx) w).1 in
  store w' = store w
  /\ adminPendingInputs w' = adminPendingInputs w
  /\ since w w' = [acknowledgement; invalid_id_reply].
Proof.
  intros Hop Hapi Hdata Htrig Hocc Hc Hm Ha.
  unfold Admin.admin_callback.
  rewrite Hdata, (trigger_nonempty _ Htrig).
  rewrite bool_decide_eq_true_2 by exact Hop.
  rewrite split_on_absent by done.
  cbn [negb head default lookup list_lookup].
  apply String.eqb_neq in Hc, Hm, Ha.
  hsimpl. rewrite Hapi. hsimpl. rewrite Hc, Hm, Ha.
  cbn [nonempty mbind option_bind]. hsimpl. rewrite Hapi. hsimpl.
  split; [done|]. split; [done|].
  apply since_app. hsimpl. by rewrite <- !app_assoc.
Qed.

Lemma panel_press_without_an_id_witness :
  let click :=
    mkContext (Some (mkSender 1000 "Admin" None))
              (Some (mkChat 1000 ChatPrivate None))
              (Some Admin.SHOW_USERS) None in
  mkButton "👥 کاربران" Admin.SHOW_USERS ∈ concat Admin.buildAdminMainMenuKeyboard
  /\ since Scenarios.pending_world
       (run Scenarios.env_ok (Admin.admin_callback Scenarios.env_ok click)
            Scenarios.pending_world).1
     = [acknowledgement; invalid_id_reply].
Proof.
  intros click. split; [by left|].
  by destruct (panel_press_without_an_id Scenarios.env_ok
                 Scenarios.pending_world click Admin.SHOW_USERS
                 eq_refl (fun n => eq_refl) eq_refl eq_refl eq_refl
                 ltac:(done) ltac:(done) ltac:(done)) as (_ & _ & H).
Defined.

(** X19. The row that names a user in the list keyboards of admin.ts carries
    the callback data admin_user_info:<id>, for which the callback handler
    has no branch: a press of the operator is acknowledged and nothing
    else happens, whatever the store would do. *)
Theorem user_info_button_only_acknowledges (env : Env) (w : World)
    (ctx : Context) (u : ManagedUser) :
  from_operator env ctx ->
  api_fault env (opno w) = false ->
  exists info : Button,
    Admin.user_rows u !! 0%nat = Some [info]
    /\ run env (Admin.admin_callback env (pressing ctx info)) w
       = (bump (emit acknowledgement w), inr tt).
Proof.
  intros Hop Hapi. eexists. split; [reflexivity|].
  unfold Admin.admin_callback, pressing.
  cbn [ctx_callback_data callback_data].
  change ("admin_user_info:" +:+ pretty (user_id u))
    with ("admin_user_info" +:+ String ":" (pretty (user_id u))).
  assert (nonempty (Some ("admin_user_info" +:+
                          String ":" (pretty (user_id u))))
          = Some ("admin_user_info" +:+ String ":" (pretty (user_id u))))
    as -> by reflexivity.
  rewrite bool_decide_eq_true_2 by exact Hop.
  rewrite split_on_app, split_colon_pretty by reflexivity.
  cbn [negb head default lookup list_lookup].
  rewrite nonempty_pretty. cbn [mbind option_bind].
  rewrite parseInt_pretty. hsimpl. by rewrite Hapi.
Qed.

Lemma user_info_button_only_acknowledges_witness :
  let click :=
    mkContext (Some (mkSender 1000 "Admin" None))
              (Some (mkChat 1000 ChatPrivate None)) None None in
  exists info : Button,
    Admin.user_rows (Scenarios.sara_row PENDING) !! 0%nat = Some [info]
    /\ run Scenarios.env_ok
           (Admin.admin_callback Scenarios.env_ok (pressing click info))
           Scenarios.pending_world
       = (bump (emit acknowledgement Scenarios.pending_world), inr tt).
Proof.
  intros click.
  apply (user_info_button_only_acknowledges Scenarios.env_ok
           Scenarios.pending_world click (Scenarios.sara_row PENDING));
    reflexivity.
Defined.

(** ** The add-user dialogue *)
Section Dialogue.

Variable env : Env.
Variable ctx : Context.
Hypothesis Hop : from_operator env ctx.

Let admin : string := BOT_ADMIN_TELEGRAM_ID env.

Lemma operator_id_nonempty : nonempty (Some admin) = Some admin.
Proof.
  subst admin. unfold from_operator, getUserTelegramId in Hop.
  destruct (ctx_from ctx) as [f|]; [|done]. simpl in Hop.
  injection Hop as <-. apply nonempty_pretty.
Qed.

Lemma nonempty_answer (text : string) :
  answer_text text -> nonempty (Some text) = Some text.
Proof. intros [Hne _]. by destruct text. Qed.

Lemma text_unfolds (text : string) (inputs : gmap string PendingInput)
    (pending : PendingInput) :
  answer_text text ->
  inputs !! admin = Some pending ->
  AdminPanel.pending_text env (saying ctx text) inputs
  = match pending_step pending with
    | StepTelegramId =>
        do! update_inputs (insert admin (mkPending StepName (Some text))) in
        api (Reply "لطفاً نام کاربر را ارسال کنید:"
                   (Some Admin.buildCancelKeyboard))
    | StepName =>
        match nonempty (pending_telegramId pending) with
        | None =>
            do! api (Reply "❌ خطا: شناسه تلگرام یافت نشد." None) in
            update_inputs (delete admin)
        | Some newId =>
            let! returned :=
              try_catch
                (let! existingUser := db (findUserByTelegramId newId) in
                 match existingUser with
                 | Some _ =>
                     do! api (Reply "❌ کاربر با این شناسه تلگرام قبلاً وجود دارد." None) in
                     do! update_inputs (delete admin) in
                     Ret true
                 | None =>
                     do! db (createUser
                               (mkNewUser newId text None (Some ALLOWED)
                                          None)) in
                     do! api (Reply (AdminPanel.added_message newId text)
                                    None) in
                     Ret false
                 end)
                (fun error =>
                   do! console_error "[Admin] Error creating user:"
                                     (Some error) in
                   do! api (Reply "❌ Error creating user." None) in
                   Ret false) in
            if (returned : bool) then Ret tt
            else update_inputs (delete admin)
        end
    end.
Proof.
  intros Hans Hin. unfold AdminPanel.pending_text.
  change (getUserTelegramId (saying ctx text)) with (getUserTelegramId ctx).
  rewrite Hop. fold admin. rewrite operator_id_nonempty.
  rewrite bool_decide_eq_true_2 by done. cbn [negb].
  rewrite Hin. cbn [saying ctx_message_text].
  rewrite (nonempty_answer _ Hans). destruct Hans as [_ ->]. done.
Qed.

Hypothesis Hapi : forall n, api_fault env n = false.

(** The press on Add user arms the dialogue. *)
Lemma add_user_press (w : World) :
  let w1 := (on_press env ctx add_user_button w).1 in
  adminPendingInputs w1
  = <[admin := mkPending StepTelegramId None]> (adminPendingInputs w)
  /\ store w1 = store w.
Proof.
  unfold on_press, Admin.admin_callback, pressing, add_user_button.
  cbn [ctx_callback_data callback_data].
  assert (nonempty (Some Admin.ADD_USER) = Some Admin.ADD_USER) as ->
      by reflexivity.
  change (getUserTelegramId (mkContext (ctx_from ctx) (ctx_chat ctx)
                               (Some Admin.ADD_USER) None))
    with (getUserTelegramId ctx).
  rewrite Hop, bool_decide_eq_true_2 by done. fold admin.
  rewrite operator_id_nonempty.
  hsimpl. rewrite !Hapi. hsimpl. rewrite ?Hapi. done.
Qed.


(** The first answer is kept as the telegram id. *)
Lemma id_step (w : World) (text : string) :
  answer_text text ->
  adminPendingInputs w !! admin = Some (mkPending StepTelegramId None) ->
  let w2 := (on_text env (saying ctx text) w).1 in
  adminPendingInputs w2
  = <[admin := mkPending StepName (Some text)]> (adminPendingInputs w)
  /\ store w2 = store w
  /\ since w w2 = [Sent (Reply "لطفاً نام کاربر را ارسال کنید:"
                               (Some Admin.buildCancelKeyboard))].
Proof.
  intros Hans Hin. unfold on_text.
  rewrite (text_unfolds text _ _ Hans Hin).
  hsimpl. rewrite Hapi. hsimpl. split; [done|]. split; [done|].
  by apply since_app.
Qed.

Hypothesis Hdb : forall n, db_fault env n = false.

(** The second answer is the name: the user is inserted as allowed. *)
Lemma name_step_new (w : World) (telegramId text : string) :
  answer_text telegramId ->
  answer_text text ->
  adminPendingInputs w !! admin = Some (mkPending StepName (Some telegramId)) ->
  stored_user (store w) telegramId = None ->
  let w3 := (on_text env (saying ctx text) w).1 in
  adminPendingInputs w3 = delete admin (adminPendingInputs w)
  /\ store w3
     = store_with (store w)
         (inserted_user (user_seq (store w) + 1) (clock env (S (opno w)))
            (mkNewUser telegramId text None (Some ALLOWED) None))
  /\ since w w3
     = [Sent (Reply (AdminPanel.added_message telegramId text) None)].
Proof.
  intros Hid Hans Hin Hnew. unfold on_text.
  rewrite (text_unfolds text _ _ Hans Hin).
  cbn [pending_step pending_telegramId].
  rewrite (nonempty_answer _ Hid).
  pose proof (stored_user_None _ _ Hnew) as Hnex.
  unfold stored_user in Hnew. unfold createUser.
  hsimpl. rewrite Hdb. hsimpl. rewrite Hnew. hsimpl. rewrite Hdb. hsimpl.
  rewrite bool_decide_eq_false_2 by done.
  hsimpl. rewrite Hapi. hsimpl.
  split; [done|]. split; [done|]. by apply since_app.
Qed.

(** A telegram id that is already stored is refused. *)
Lemma name_step_known (w : World) (telegramId text : string)
    (u : ManagedUser) :
  answer_text telegramId ->
  answer_text text ->
  adminPendingInputs w !! admin = Some (mkPending StepName (Some telegramId)) ->
  stored_user (store w) telegramId = Some u ->
  let w3 := (on_text env (saying ctx text) w).1 in
  adminPendingInputs w3 = delete admin (adminPendingInputs w)
  /\ store w3 = store w
  /\ since w w3
     = [Sent (Reply "❌ کاربر با این شناسه تلگرام قبلاً وجود دارد." None)].
Proof.
  intros Hid Hans Hin Hu. unfold on_text.
  rewrite (text_unfolds text _ _ Hans Hin).
  cbn [pending_step pending_telegramId].
  rewrite (nonempty_answer _ Hid).
  unfold stored_user in Hu.
  hsimpl. rewrite Hdb. hsimpl. rewrite Hu. hsimpl. rewrite Hapi. hsimpl.
  split; [done|]. split; [done|]. by apply since_app.
Qed.

End Dialogue.

(** X21. The add-user dialogue of admin.ts, from the button to the new row.
    When the store and Telegram answer, the operator presses Add user,
    sends a telegram id that is not stored yet and then a name (neither
    text empty nor a command): the first text is asked to be followed by
    the name and changes nothing in the store; after the second the user
    table has one more row, with that telegram id, that name, no username
    and status allowed, the operator is told so, and no dialogue is
    pending any more. *)
Theorem add_user_dialogue_creates_an_allowed_user (env : Env) (w : World)
    (ctx : Context) (telegramId name : string) :
  (forall n, db_fault env n = false) ->
  (forall n, api_fault env n = false) ->
  from_operator env ctx ->
  answer_text telegramId ->
  answer_text name ->
  stored_user (store w) telegramId = None ->
  let admin := BOT_ADMIN_TELEGRAM_ID env in
  let w1 := (on_press env ctx add_user_button w).1 in
  let w2 := (on_text env (saying ctx telegramId) w1).1 in
  let w3 := (on_text env (saying ctx name) w2).1 in
  adminPendingInputs w1 !! admin = Some (mkPending StepTelegramId None)
  /\ adminPendingInputs w2 !! admin = Some (mkPending StepName (Some telegramId))
  /\ store w2 = store w
  /\ adminPendingInputs w3 !! admin = None
  /\ (exists row,
        users (store w3) = users (store w) ++ [row]
        /\ stored_user (store w3) telegramId = Some row
        /\ user_telegramId row = telegramId
        /\ user_name row = name
        /\ user_username row = None
        /\ user_status row = ALLOWED)
  /\ since w2 w3 = [Sent (Reply (AdminPanel.added_message telegramId name) None)].
Proof.
  intros Hdb Hapi Hop Hid Hname Hnew admin w1 w2 w3.
  destruct (add_user_press env ctx Hop Hapi w) as (Hin1 & Hs1).
  fold w1 in Hin1, Hs1.
  assert (adminPendingInputs w1 !! admin = Some (mkPending StepTelegramId None))
    as Hp1 by (rewrite Hin1; apply lookup_insert_eq).
  destruct (id_step env ctx Hop Hapi w1 telegramId Hid Hp1) as (Hin2 & Hs2 & _).
  fold w2 in Hin2, Hs2.
  assert (adminPendingInputs w2 !! admin
          = Some (mkPending StepName (Some telegramId)))
    as Hp2 by (rewrite Hin2; apply lookup_insert_eq).
  assert (stored_user (store w2) telegramId = None) as Hnew2
      by (by rewrite Hs2, Hs1).
  destruct (name_step_new env ctx Hop Hapi Hdb w2 telegramId name Hid Hname
              Hp2 Hnew2) as (Hin3 & Hs3 & Hev).
  fold w3 in Hin3, Hs3, Hev.
  split; [done|]. split; [done|]. split; [by rewrite Hs2|].
  split; [rewrite Hin3; apply lookup_delete_eq|]. split; [|done].
  exists (inserted_user (user_seq (store w2) + 1) (clock env (S (opno w2)))
            (mkNewUser telegramId name None (Some ALLOWED) None)).
  rewrite Hs3. split; [|split; [|done]].
  - unfold store_with. cbn [users]. by rewrite Hs2, Hs1.
  - by apply (stored_in_store_with (store w2)
                (inserted_user _ _ (mkNewUser telegramId name None
                                              (Some ALLOWED) None))).
Qed.

Lemma add_user_dialogue_creates_an_allowed_user_witness :
  let click :=
    mkContext (Some (mkSender 1000 "Admin" None))
              (Some (mkChat 1000 ChatPrivate None)) None None in
  let w1 := (on_press Scenarios.env_ok click add_user_button
                      Scenarios.pending_world).1 in
  let w2 := (on_text Scenarios.env_ok (saying click "43") w1).1 in
  let w3 := (on_text Scenarios.env_ok (saying click "Omid") w2).1 in
  adminPendingInputs w3 !! "1000" = None
  /\ exists row,
       users (store w3) = users (store Scenarios.pending_world) ++ [row]
       /\ user_status row = ALLOWED.
Proof.
  intros click.
  destruct (add_user_dialogue_creates_an_allowed_user Scenarios.env_ok
              Scenarios.pending_world click "43" "Omid"
              (fun n => eq_refl) (fun n => eq_refl) eq_refl
              ltac:(by split) ltac:(by split) eq_refl)
    as (_ & _ & _ & Hp & (row & Hus & _ & _ & _ & _ & Hst) & _).
  split; [exact Hp|]. exists row. by split.
Defined.

Section DialogueGuards.

Variable env : Env.
Variable ctx : Context.
Variable w : World.
Variable text : string.

Let admin : string := BOT_ADMIN_TELEGRAM_ID env.


Hypothesis Hop : from_operator env ctx.



Hypothesis Hapi : forall n, api_fault env n = false.

Lemma name_step_ends_the_dialogue (pending : PendingInput) :
  answer_text text ->
  adminPendingInputs w !! admin = Some pending ->
  pending_step pending = StepName ->
  let r := on_text env (saying ctx text) w in
  r.2 = inr tt
  /\ adminPendingInputs r.1 = delete admin (adminPendingInputs w).
Proof.
  intros Hans Hin Hstep. unfold on_text, admin in *.
  rewrite (text_unfolds env ctx Hop text _ _ Hans Hin).
  rewrite Hstep. unfold createUser.
  destruct (nonempty (pending_telegramId pending)) as [newId|].
  - hsimpl.
    destruct (db_fault env (opno w)); hsimpl; rewrite ?Hapi; hsimpl;
      [done|].
    destruct (head _); hsimpl; rewrite ?Hapi; hsimpl; [done|].
    destruct (db_fault env (S (opno w))); hsimpl; rewrite ?Hapi; hsimpl;
      [done|].
    destruct (bool_decide _); hsimpl; rewrite ?Hapi; hsimpl; done.
  - hsimpl. rewrite Hapi. done.
Qed.

End DialogueGuards.



(** X23. The name step of the add-user dialogue of admin.ts. When Telegram
    answers, the text handler returns without an exception and the
    dialogue is over, whatever the store does and whatever was collected;
    and when the lookup answers that the telegram id collected is already
    stored, the operator is told so and the store is left as it was. *)
Theorem name_step_always_ends_the_dialogue (env : Env) (w : World)
    (ctx : Context) (name : string) (pending : PendingInput) :
  (forall n, api_fault env n = false) ->
  from_operator env ctx ->
  answer_text name ->
  adminPendingInputs w !! BOT_ADMIN_TELEGRAM_ID env = Some pending ->
  pending_step pending = StepName ->
  let r := on_text env (saying ctx name) w in
  r.2 = inr tt
  /\ adminPendingInputs r.1 !! BOT_ADMIN_TELEGRAM_ID env = None
  /\ (forall telegramId u,
        pending_telegramId pending = Some telegramId ->
        answer_text telegramId ->
        stored_user (store w) telegramId = Some u ->
        (forall n, db_fault env n = false) ->
        store r.1 = store w
        /\ since w r.1
           = [Sent (Reply "❌ کاربر با این شناسه تلگرام قبلاً وجود دارد." None)]).
Proof.
  intros Hapi Hop Hans Hin Hstep r.
  destruct (name_step_ends_the_dialogue env ctx w name Hop Hapi pending Hans
              Hin Hstep) as (Hret & Hcleared).
  fold r in Hret, Hcleared.
  split; [done|]. split; [rewrite Hcleared; apply lookup_delete_eq|].
  intros telegramId u Htid Hid Hu Hdb.
  assert (pending = mkPending StepName (Some telegramId)) as ->
      by (destruct pending; simpl in *; congruence).
  by destruct (name_step_known env ctx Hop Hapi Hdb w telegramId name u Hid
                 Hans Hin Hu) as (_ & ? & ?).
Qed.

Lemma name_step_always_ends_the_dialogue_witness :
  let click :=
    mkContext (Some (mkSender 1000 "Admin" None))
              (Some (mkChat 1000 ChatPrivate None)) None None in
  let w :=
    with_inputs {["1000" := mkPending StepName (Some "42")]}
                Scenarios.pending_world in
  let r := on_text Scenarios.env_down (saying click "Sara") w in
  r.2 = inr tt /\ adminPendingInputs r.1 !! "1000" = None.
Proof.
  intros click w.
  destruct (name_step_always_ends_the_dialogue Scenarios.env_down w click
              "Sara" (mkPending StepName (Some "42"))
              (fun n => eq_refl) eq_refl ltac:(by split) eq_refl eq_refl)
    as (H1 & H2 & _).
  by split.
Defined.

(** ** The commands of the panel and the list keyboards *)
Section Keyboards.

Lemma rows_of_two_concat (actions : list Button) :
  concat (Admin.rows_of_two actions) = actions.
Proof.
  induction actions as [actions IH] using (induction_ltof1 _ length).
  destruct actions as [|a [|b rest]]; [done|done|].
  simpl. f_equal. f_equal. apply IH. unfold ltof. simpl. lia.
Qed.

Lemma rows_of_two_lengths (actions : list Button) :
  Forall (fun row => (1 <= length row <= 2)%nat) (Admin.rows_of_two actions).
Proof.
  induction actions as [actions IH] using (induction_ltof1 _ length).
  destruct actions as [|a [|b rest]]; simpl.
  - constructor.
  - constructor; [simpl; lia|constructor].
  - constructor; [simpl; lia|]. apply IH. unfold ltof. simpl. lia.
Qed.

Lemma user_rows_lengths (u : ManagedUser) :
  Forall (fun row => (1 <= length row <= 2)%nat) (Admin.user_rows u).
Proof.
  unfold Admin.user_rows. constructor; [simpl; lia|].
  apply rows_of_two_lengths.
Qed.

Lemma keyboard_lengths (l : list ManagedUser) :
  Forall (fun row => (1 <= length row <= 2)%nat)
         (concat (map Admin.user_rows l)).
Proof.
  induction l as [|u l IH]; [constructor|].
  cbn [map concat]. apply Forall_app. split; [apply user_rows_lengths|done].
Qed.

Lemma bucket_three_lists (a p r : list ManagedUser) :
  Admin.bucket (three_lists a p r) "allowed" = a
  /\ Admin.bucket (three_lists a p r) "pending" = p
  /\ Admin.bucket (three_lists a p r) "rejected" = r.
Proof.
  unfold Admin.bucket, three_lists. split; [|split].
  - by rewrite lookup_insert_eq.
  - by rewrite lookup_insert_ne, lookup_insert_eq.
  - by rewrite lookup_insert_ne, lookup_insert_ne, lookup_insert_eq.
Qed.

Lemma grouped_answer (now : Z) (s : Store) :
  getAllUsersGroupedByStatus now s
  = inr (s, three_lists
              (filter (has_status ALLOWED) (merge_sort status_asc (users s)))
              (filter (has_status PENDING) (merge_sort status_asc (users s)))
              (filter (has_status REJECTED)
                      (merge_sort status_asc (users s)))).
Proof.
  unfold getAllUsersGroupedByStatus, group_all, empty_groups.
  change (<["allowed":=[]]> _) with (three_lists [] [] []).
  by rewrite foldl_group_one.
Qed.

Lemma pending_first (l : list ManagedUser) :
  filter (has_status PENDING) l ++ filter (has_status ALLOWED) l
    ++ filter (has_status REJECTED) l ≡ₚ l.
Proof.
  rewrite <- (status_split l) at 4.
  rewrite !app_assoc. f_equiv. apply Permutation_app_comm.
Qed.

End Keyboards.

Ltac usimpl :=
  cbn -[pretty nonempty truthy String.append getAllUsersGroupedByStatus
        AdminPanel.users_command_message AdminPanel.users_command_keyboard
        Admin.users_list_message Admin.users_list_keyboard].

Section PanelCommands.

Variable env : Env.
Variable w : World.
Variable ctx : Context.

Lemma admin_command_keeps_the_store :
  store (run env (AdminPanel.admin_command env ctx) w).1 = store w.
Proof.
  unfold AdminPanel.admin_command.
  destruct (chat_is ctx ChatPrivate); hsimpl; [|done].
  destruct (bool_decide _); hsimpl;
    destruct (api_fault env (opno w)); done.
Qed.

Lemma users_command_keeps_the_store :
  store (run env (AdminPanel.users_command env ctx) w).1 = store w.
Proof.
  unfold AdminPanel.users_command.
  destruct (chat_is ctx ChatPrivate); hsimpl; [|done].
  destruct (bool_decide _); usimpl.
  - destruct (db_fault env (opno w)); usimpl.
    + destruct (api_fault env (S (opno w))); done.
    + rewrite grouped_answer. usimpl.
      destruct (api_fault env (S (opno w))); usimpl; [|done].
      destruct (api_fault env (S (S (opno w)))); done.
  - destruct (api_fault env (opno w)); done.
Qed.

Lemma admin_command_elsewhere :
  chat_is ctx ChatPrivate = false ->
  Forall is_logged (since w (run env (AdminPanel.admin_command env ctx) w).1).
Proof.
  intros Hp. unfold AdminPanel.admin_command. rewrite Hp. hsimpl.
  since_eval. by repeat constructor.
Qed.

Lemma users_command_elsewhere :
  chat_is ctx ChatPrivate = false ->
  Forall is_logged (since w (run env (AdminPanel.users_command env ctx) w).1).
Proof.
  intros Hp. unfold AdminPanel.users_command. rewrite Hp. hsimpl.
  since_eval. by repeat constructor.
Qed.

Hypothesis Hprivate : chat_is ctx ChatPrivate = true.
Hypothesis Hapi : forall n, api_fault env n = false.

Lemma admin_command_stranger :
  ~ from_operator env ctx ->
  filter is_sent (since w (run env (AdminPanel.admin_command env ctx) w).1)
  = [Sent AdminPanel.unauthorized_reply].
Proof.
  intros Hno. unfold AdminPanel.admin_command. rewrite Hprivate.
  rewrite bool_decide_eq_false_2 by done.
  hsimpl. rewrite Hapi. hsimpl. since_eval. reflexivity.
Qed.

Lemma users_command_stranger :
  ~ from_operator env ctx ->
  filter is_sent (since w (run env (AdminPanel.users_command env ctx) w).1)
  = [Sent AdminPanel.unauthorized_reply].
Proof.
  intros Hno. unfold AdminPanel.users_command. rewrite Hprivate.
  rewrite bool_decide_eq_false_2 by done.
  hsimpl. rewrite Hapi. hsimpl. since_eval. reflexivity.
Qed.

Hypothesis Hop : from_operator env ctx.

Lemma admin_command_menu :
  filter is_sent (since w (run env (AdminPanel.admin_command env ctx) w).1)
  = [Sent (Reply (Admin.panel_message "از دکمه‌های زیر استفاده کنید:")
                 (Some Admin.buildAdminMainMenuKeyboard))].
Proof.
  unfold AdminPanel.admin_command. rewrite Hprivate.
  rewrite bool_decide_eq_true_2 by done.
  hsimpl. rewrite Hapi. hsimpl. since_eval. reflexivity.
Qed.

Lemma users_command_list :
  db_fault env (opno w) = false ->
  let listed :=
    filter (has_status PENDING) (merge_sort status_asc (users (store w)))
    ++ filter (has_status ALLOWED) (merge_sort status_asc (users (store w)))
    ++ filter (has_status REJECTED)
              (merge_sort status_asc (users (store w))) in
  exists text,
    filter is_sent (since w (run env (AdminPanel.users_command env ctx) w).1)
    = [Sent (Reply text (Some (concat (map Admin.user_rows listed))))].
Proof.
  intros Hdb. unfold AdminPanel.users_command. rewrite Hprivate.
  rewrite bool_decide_eq_true_2 by done.
  usimpl. rewrite Hdb. rewrite grouped_answer. usimpl. rewrite Hapi.
  unfold AdminPanel.users_command_keyboard.
  destruct (bucket_three_lists
              (filter (has_status ALLOWED)
                      (merge_sort status_asc (users (store w))))
              (filter (has_status PENDING)
                      (merge_sort status_asc (users (store w))))
              (filter (has_status REJECTED)
                      (merge_sort status_asc (users (store w)))))
    as (-> & -> & ->).
  eexists. hsimpl. since_eval. reflexivity.
Qed.

End PanelCommands.

(** X24. The commands /admin and /users of admin.ts never write to the store,
    whatever fails. Outside a private chat they only write to the console.
    In a private chat, when Telegram answers, anyone but the operator gets
    the unauthorized reply and nothing else, and the operator gets the
    main menu with its keyboard from /admin. *)
Theorem panel_commands_answer_only_the_operator (env : Env) (w : World)
    (ctx : Context) :
  let admin_run := (run env (AdminPanel.admin_command env ctx) w).1 in
  let users_run := (run env (AdminPanel.users_command env ctx) w).1 in
  (store admin_run = store w /\ store users_run = store w)
  /\ (chat_is ctx ChatPrivate = false ->
      Forall is_logged (since w admin_run)
      /\ Forall is_logged (since w users_run))
  /\ (chat_is ctx ChatPrivate = true ->
      (forall n, api_fault env n = false) ->
      ~ from_operator env ctx ->
      filter is_sent (since w admin_run) = [Sent AdminPanel.unauthorized_reply]
      /\ filter is_sent (since w users_run)
         = [Sent AdminPanel.unauthorized_reply])
  /\ (chat_is ctx ChatPrivate = true ->
      (forall n, api_fault env n = false) ->
      from_operator env ctx ->
      filter is_sent (since w admin_run)
      = [Sent (Reply (Admin.panel_message "از دکمه‌های زیر استفاده کنید:")
                     (Some Admin.buildAdminMainMenuKeyboard))]).
Proof.
  intros admin_run users_run. split; [|split; [|split]].
  - split; [apply admin_command_keeps_the_store
           |apply users_command_keeps_the_store].
  - intros Hp. split; [by apply admin_command_elsewhere
                      |by apply users_command_elsewhere].
  - intros Hp Hapi Hno. split; [by apply admin_command_stranger
                               |by apply users_command_stranger].
  - intros Hp Hapi Hop. by apply admin_command_menu.
Qed.

Lemma panel_commands_answer_only_the_operator_witness :
  let ctx :=
    mkContext (Some Scenarios.sara) (Some (mkChat 42 ChatPrivate None))
              None (Some "/users") in
  filter is_sent
         (since Scenarios.pending_world
            (run Scenarios.env_ok
                 (AdminPanel.users_command Scenarios.env_ok ctx)
                 Scenarios.pending_world).1)
  = [Sent AdminPanel.unauthorized_reply].
Proof.
  intros ctx.
  destruct (panel_commands_answer_only_the_operator Scenarios.env_ok
              Scenarios.pending_world ctx) as (_ & _ & H & _).
  apply H; [reflexivity|by intros n|]. unfold from_operator. by vm_compute.
Defined.

(** X25. The list of /users in admin.ts. When the store and Telegram answer,
    the operator in a private chat gets one message whose keyboard is, for
    every stored user exactly once, the row that names the user followed
    by the rows of that user's action buttons, pending users first; no
    row has more than two buttons, and the store is left as it was. *)
Theorem users_command_lists_every_user (env : Env) (w : World)
    (ctx : Context) :
  db_fault env (opno w) = false ->
  (forall n, api_fault env n = false) ->
  chat_is ctx ChatPrivate = true ->
  from_operator env ctx ->
  let w' := (run env (AdminPanel.users_command env ctx) w).1 in
  exists (text : string) (listed : list ManagedUser),
    filter is_sent (since w w')
    = [Sent (Reply text (Some (concat (map Admin.user_rows listed))))]
    /\ listed ≡ₚ users (store w)
    /\ Forall (fun row => (1 <= length row <= 2)%nat)
              (concat (map Admin.user_rows listed))
    /\ store w' = store w.
Proof.
  intros Hdb Hapi Hp Hop w'.
  destruct (users_command_list env w ctx Hp Hapi Hop Hdb) as (text & Hsent).
  eexists text, _. split; [exact Hsent|]. split; [|split].
  - rewrite pending_first. apply merge_sort_Permutation.
  - apply keyboard_lengths.
  - apply users_command_keeps_the_store.
Qed.

Lemma users_command_lists_every_user_witness :
  let ctx :=
    mkContext (Some (mkSender 1000 "Admin" None))
              (Some (mkChat 1000 ChatPrivate None)) None (Some "/users") in
  let w' := (run Scenarios.env_ok
                 (AdminPanel.users_command Scenarios.env_ok ctx)
                 Scenarios.pending_world).1 in
  exists (text : string) (listed : list ManagedUser),
    filter is_sent (since Scenarios.pending_world w')
    = [Sent (Reply text (Some (concat (map Admin.user_rows listed))))]
    /\ listed ≡ₚ users (store Scenarios.pending_world)
    /\ Forall (fun row => (1 <= length row <= 2)%nat)
              (concat (map Admin.user_rows listed))
    /\ store w' = store Scenarios.pending_world.
Proof.
  intros ctx.
  apply (users_command_lists_every_user Scenarios.env_ok
           Scenarios.pending_world ctx); reflexivity || (by intros n).
Defined.

(** ** The slash commands *)
Section SlashParsing.

Variable env : Env.
Variable ctx : Context.

Lemma adminOnly_passes (h : Prog unit) :
  chat_is ctx ChatPrivate = true -> from_operator env ctx ->
  GroupGate.adminOnly env ctx h = h.
Proof.
  intros Hp Hop. unfold GroupGate.adminOnly, GroupGate.isAdmin.
  by rewrite Hp, bool_decide_eq_true_2.
Qed.

(** Whoever is not the operator in a private chat gets at most the
    unauthorized reply, and the handler behind the guard does not
    run. *)
Lemma adminOnly_blocks (h : Prog unit) (w : World) :
  ~ (chat_is ctx ChatPrivate = true /\ from_operator env ctx) ->
  let w' := (run env (GroupGate.adminOnly env ctx h) w).1 in
  store w' = store w
  /\ adminPendingInputs w' = adminPendingInputs w
  /\ (since w w' = []
      \/ since w w'
         = [Sent (Reply "⛔ Unauthorized. This command is only for the super admin." None)]).
Proof.
  intros Hno. unfold GroupGate.adminOnly, GroupGate.isAdmin.
  destruct (chat_is ctx ChatPrivate) eqn:Hp; hsimpl.
  - rewrite bool_decide_eq_false_2 by (intros Hop; by apply Hno).
    hsimpl. destruct (api_fault env (opno w)); hsimpl.
    + split; [done|]. split; [done|]. left. by apply since_refl_trace.
    + split; [done|]. split; [done|]. right. by apply since_app.
  - split; [done|]. split; [done|]. left. by apply since_refl_trace.
Qed.

Lemma command_args (command : string) (id : Z) :
  occurs " " ("/" +:+ command) = false ->
  split_on " " (command_text command id) = ["/" +:+ command; pretty id].
Proof.
  intros Hocc. unfold command_text.
  change ("/" +:+ command +:+ " " +:+ pretty id)
    with (String "/" (command +:+ String " " (pretty id))).
  change (String "/" (command +:+ String " " (pretty id)))
    with (("/" +:+ command) +:+ String " " (pretty id)).
  by rewrite split_on_app, split_space_pretty.
Qed.

End SlashParsing.

Ltac command_args_eval :=
  cbn [saying ctx_message_text];
  rewrite command_args by reflexivity;
  cbn [lookup list_lookup];
  rewrite nonempty_pretty, parseInt_pretty.

Section SlashOutcomes.

Variable env : Env.
Variable ctx : Context.
Variable w : World.
Hypothesis Hdb : forall n, db_fault env n = false.
Hypothesis Hapi : forall n, api_fault env n = false.
Hypothesis Hp : chat_is ctx ChatPrivate = true.
Hypothesis Hop : from_operator env ctx.

Let t : Z := clock env (S (opno w)).

Lemma allowuser_store (id : Z) (u : ManagedUser) :
  stored_user_by_id (store w) id = Some u ->
  users (store (run env (SlashCommands.allowuser env
                           (saying ctx (command_text "allowuser" id))) w).1)
  = map (set_status_of id ALLOWED t) (users (store w)).
Proof.
  intros Hu. unfold SlashCommands.allowuser, stored_user_by_id in *.
  rewrite adminOnly_passes by done.
  unfold SlashCommands.allowuser_handler. command_args_eval.
  hsimpl. rewrite !Hdb. hsimpl. rewrite Hu. hsimpl.
  rewrite !Hdb. hsimpl. by rewrite !Hapi.
Qed.

Lemma rejectuser_store (id : Z) (u : ManagedUser) :
  stored_user_by_id (store w) id = Some u ->
  users (store (run env (SlashCommands.rejectuser env
                           (saying ctx (command_text "rejectuser" id))) w).1)
  = map (set_status_of id REJECTED t) (users (store w)).
Proof.
  intros Hu. unfold SlashCommands.rejectuser, stored_user_by_id in *.
  rewrite adminOnly_passes by done.
  unfold SlashCommands.rejectuser_handler. command_args_eval.
  hsimpl. rewrite !Hdb. hsimpl. rewrite Hu. hsimpl.
  rewrite !Hdb. hsimpl. by rewrite !Hapi.
Qed.

Lemma removeuser_store (id : Z) (u : ManagedUser) :
  stored_user_by_id (store w) id = Some u ->
  users (store (run env (AdminCommands.removeuser env
                           (saying ctx (command_text "removeuser" id))) w).1)
  = filter (fun r => ~ by_id id r) (users (store w)).
Proof.
  intros Hu. unfold AdminCommands.removeuser, stored_user_by_id in *.
  rewrite adminOnly_passes by done.
  unfold AdminCommands.removeuser_handler. command_args_eval.
  hsimpl. rewrite !Hdb. hsimpl. rewrite Hu. hsimpl.
  rewrite !Hdb. hsimpl. by rewrite !Hapi.
Qed.

Lemma allowgroup_store (id : Z) (g : ManagedGroup) :
  stored_group_by_id (store w) id = Some g ->
  groups (store (run env (SlashCommands.allowgroup env
                            (saying ctx (command_text "allowgroup" id)))
                     w).1)
  = map (set_group_status_of id ALLOWED t) (groups (store w)).
Proof.
  intros Hg. unfold SlashCommands.allowgroup, stored_group_by_id in *.
  rewrite adminOnly_passes by done.
  unfold SlashCommands.allowgroup_handler. command_args_eval.
  hsimpl. rewrite !Hdb. hsimpl. rewrite Hg. hsimpl.
  rewrite !Hdb. hsimpl. by rewrite !Hapi.
Qed.

Lemma rejectgroup_store (id : Z) (g : ManagedGroup) :
  stored_group_by_id (store w) id = Some g ->
  groups (store (run env (SlashCommands.rejectgroup env
                            (saying ctx (command_text "rejectgroup" id)))
                     w).1)
  = map (set_group_status_of id REJECTED t) (groups (store w)).
Proof.
  intros Hg. unfold SlashCommands.rejectgroup, stored_group_by_id in *.
  rewrite adminOnly_passes by done.
  unfold SlashCommands.rejectgroup_handler. command_args_eval.
  hsimpl. rewrite !Hdb. hsimpl. rewrite Hg. hsimpl.
  rewrite !Hdb. hsimpl. by rewrite !Hapi.
Qed.

Lemma removegroup_store (id : Z) (g : ManagedGroup) :
  stored_group_by_id (store w) id = Some g ->
  groups (store (run env (SlashCommands.removegroup env
                            (saying ctx (command_text "removegroup" id)))
                     w).1)
  = filter (fun r => ~ group_by_id id r) (groups (store w)).
Proof.
  intros Hg. unfold SlashCommands.removegroup, stored_group_by_id in *.
  rewrite adminOnly_passes by done.
  unfold SlashCommands.removegroup_handler. command_args_eval.
  hsimpl. rewrite !Hdb. hsimpl. rewrite Hg. hsimpl.
  rewrite !Hdb. hsimpl. by rewrite !Hapi.
Qed.

Lemma group_lookup_after_status_update (l : list ManagedGroup) (id j : Z)
    (status : Status) (now : Z) :
  head (filter (group_by_id j) (map (set_group_status_of id status now) l))
  = set_group_status_of id status now <$> head (filter (group_by_id j) l).
Proof.
  apply head_filter_map. intros x. unfold set_group_status_of, group_by_id.
  by destruct (decide (group_id x = id)).
Qed.

Lemma group_lookup_by_telegramId_after (l : list ManagedGroup) (id : Z)
    (tid : string) (status : Status) (now : Z) :
  head (filter (group_by_telegramId tid)
               (map (set_group_status_of id status now) l))
  = set_group_status_of id status now
      <$> head (filter (group_by_telegramId tid) l).
Proof.
  apply head_filter_map. intros x.
  unfold set_group_status_of, group_by_telegramId.
  by destruct (decide (group_by_id id x)).
Qed.

Lemma set_group_status_of_other (id j : Z) (status : Status) (now : Z)
    (o : option ManagedGroup) :
  j <> id -> (forall r, o = Some r -> group_id r = j) ->
  set_group_status_of id status now <$> o = o.
Proof.
  intros Hne Ho. destruct o as [r|]; [|done]. simpl. f_equal.
  unfold set_group_status_of. rewrite decide_False; [done|].
  unfold group_by_id. rewrite (Ho r eq_refl). done.
Qed.

Lemma stored_group_by_id_id (s : Store) (j : Z) (r : ManagedGroup) :
  stored_group_by_id s j = Some r -> group_id r = j.
Proof.
  unfold stored_group_by_id. intros H. apply head_Some_elem_of in H.
  by apply list_elem_of_filter in H as [? _].
Qed.

Lemma filter_group_by_id_delete (l : list ManagedGroup) (id j : Z) :
  j <> id ->
  filter (group_by_id j) (filter (fun g => ~ group_by_id id g) l)
  = filter (group_by_id j) l.
Proof.
  intros Hne. induction l as [|u l IH]; [done|].
  rewrite (filter_cons (fun u => ~ group_by_id id u)).
  destruct (decide (~ group_by_id id u)) as [Hu|Hu].
  - rewrite !filter_cons, IH. done.
  - rewrite IH. rewrite (filter_cons_False (group_by_id j)); [done|].
    unfold group_by_id in *. intros Hj. apply Hu. intros Hid. congruence.
Qed.

End SlashOutcomes.

(** X26. The slash commands on users of admin.ts (/allowuser, /rejectuser,
    /removeuser behind adminOnly). When the store and Telegram answer and
    the operator, in a private chat, names the internal id of the stored
    user u: /allowuser leaves u stored as allowed, /rejectuser leaves u
    stored as rejected, /removeuser leaves no row with that id; and in all
    three cases the lookup of every other id answers as before. *)
Theorem user_commands_act_on_their_user (env : Env) (w : World)
    (ctx : Context) (u : ManagedUser) :
  (forall n, db_fault env n = false) ->
  (forall n, api_fault env n = false) ->
  chat_is ctx ChatPrivate = true ->
  from_operator env ctx ->
  stored_user_by_id (store w) (user_id u) = Some u ->
  let id := user_id u in
  let result (command : string) (handler : Env -> Context -> Prog unit)
    : Store :=
    store (run env (handler env (saying ctx (command_text command id))) w).1 in
  user_status
    <$> stored_user_by_id (result "allowuser" SlashCommands.allowuser) id
  = Some ALLOWED
  /\ user_status
       <$> stored_user_by_id (result "rejectuser" SlashCommands.rejectuser) id
     = Some REJECTED
  /\ stored_user_by_id (result "removeuser" AdminCommands.removeuser) id = None
  /\ forall j, j <> id ->
       stored_user_by_id (result "allowuser" SlashCommands.allowuser) j
       = stored_user_by_id (store w) j
       /\ stored_user_by_id (result "rejectuser" SlashCommands.rejectuser) j
          = stored_user_by_id (store w) j
       /\ stored_user_by_id (result "removeuser" AdminCommands.removeuser) j
          = stored_user_by_id (store w) j.
Proof.
  intros Hdb Hapi Hp Hop Hu id result. subst id result. cbv beta.
  pose proof (allowuser_store env ctx w Hdb Hapi Hp Hop _ u Hu) as Ha.
  pose proof (rejectuser_store env ctx w Hdb Hapi Hp Hop _ u Hu) as Hr.
  pose proof (removeuser_store env ctx w Hdb Hapi Hp Hop _ u Hu) as Hd.
  unfold stored_user_by_id in *.
  split; [|split; [|split]].
  - rewrite Ha, lookup_after_status_update, Hu. simpl.
    unfold set_status_of. by rewrite decide_True by done.
  - rewrite Hr, lookup_after_status_update, Hu. simpl.
    unfold set_status_of. by rewrite decide_True by done.
  - rewrite Hd. apply (head_filter_absent (by_id (user_id u))).
    apply Forall_forall. intros r Hin.
    by apply list_elem_of_filter in Hin as [? _].
  - intros j Hne. split; [|split].
    + rewrite Ha, lookup_after_status_update.
      apply (set_status_of_other _ j); [done|].
      intros r Hr'. by apply (lookup_by_id_id (store w)).
    + rewrite Hr, lookup_after_status_update.
      apply (set_status_of_other _ j); [done|].
      intros r Hr'. by apply (lookup_by_id_id (store w)).
    + rewrite Hd. by rewrite filter_by_id_delete.
Qed.

Lemma user_commands_act_on_their_user_witness :
  let ctx :=
    mkContext (Some (mkSender 1000 "Admin" None))
              (Some (mkChat 1000 ChatPrivate None)) None None in
  user_status
    <$> stored_user_by_id
          (store (run Scenarios.env_ok
                      (SlashCommands.allowuser Scenarios.env_ok
                         (saying ctx (command_text "allowuser" 1)))
                      Scenarios.pending_world).1) 1
  = Some ALLOWED.
Proof.
  intros ctx.
  by destruct (user_commands_act_on_their_user Scenarios.env_ok
                 Scenarios.pending_world ctx (Scenarios.sara_row PENDING)
                 (fun n => eq_refl) (fun n => eq_refl) eq_refl eq_refl eq_refl)
    as (H & _).
Defined.

(** X27. The slash commands on groups of admin.ts (/allowgroup, /rejectgroup,
    /removegroup behind adminOnly) with findGroupById, updateGroupStatus
    and deleteGroup of the group queries. When the store and Telegram
    answer and the operator, in a private chat, names the internal id of
    the stored group g: /allowgroup leaves g stored as allowed,
    /rejectgroup leaves g stored as rejected, /removegroup leaves no row
    with that id; the lookup of every other id answers as before, and
    the user table is not touched. *)
Theorem group_commands_act_on_their_group (env : Env) (w : World)
    (ctx : Context) (g : ManagedGroup) :
  (forall n, db_fault env n = false) ->
  (forall n, api_fault env n = false) ->
  chat_is ctx ChatPrivate = true ->
  from_operator env ctx ->
  stored_group_by_id (store w) (group_id g) = Some g ->
  let id := group_id g in
  let result (command : string) (handler : Env -> Context -> Prog unit)
    : Store :=
    store (run env (handler env (saying ctx (command_text command id))) w).1 in
  group_status
    <$> stored_group_by_id (result "allowgroup" SlashCommands.allowgroup) id
  = Some ALLOWED
  /\ group_status
       <$> stored_group_by_id (result "rejectgroup" SlashCommands.rejectgroup)
                              id
     = Some REJECTED
  /\ stored_group_by_id (result "removegroup" SlashCommands.removegroup) id
     = None
  /\ forall j, j <> id ->
       stored_group_by_id (result "allowgroup" SlashCommands.allowgroup) j
       = stored_group_by_id (store w) j
       /\ stored_group_by_id (result "rejectgroup" SlashCommands.rejectgroup) j
          = stored_group_by_id (store w) j
       /\ stored_group_by_id (result "removegroup" SlashCommands.removegroup) j
          = stored_group_by_id (store w) j.
Proof.
  intros Hdb Hapi Hp Hop Hg id result. subst id result. cbv beta.
  pose proof (allowgroup_store env ctx w Hdb Hapi Hp Hop _ g Hg) as Ha.
  pose proof (rejectgroup_store env ctx w Hdb Hapi Hp Hop _ g Hg) as Hr.
  pose proof (removegroup_store env ctx w Hdb Hapi Hp Hop _ g Hg) as Hd.
  unfold stored_group_by_id in *.
  split; [|split; [|split]].
  - rewrite Ha, group_lookup_after_status_update, Hg. simpl.
    unfold set_group_status_of. by rewrite decide_True by done.
  - rewrite Hr, group_lookup_after_status_update, Hg. simpl.
    unfold set_group_status_of. by rewrite decide_True by done.
  - rewrite Hd. apply (head_filter_absent (group_by_id (group_id g))).
    apply Forall_forall. intros r Hin.
    by apply list_elem_of_filter in Hin as [? _].
  - intros j Hne. split; [|split].
    + rewrite Ha, group_lookup_after_status_update.
      apply (set_group_status_of_other _ j); [done|].
      intros r Hr'. by apply (stored_group_by_id_id (store w)).
    + rewrite Hr, group_lookup_after_status_update.
      apply (set_group_status_of_other _ j); [done|].
      intros r Hr'. by apply (stored_group_by_id_id (store w)).
    + rewrite Hd. by rewrite filter_group_by_id_delete.
Qed.

Lemma group_commands_act_on_their_group_witness :
  let ctx :=
    mkContext (Some (mkSender 1000 "Admin" None))
              (Some (mkChat 1000 ChatPrivate None)) None None in
  let w := Scenarios.world_of [] [Scenarios.team_row PENDING] in
  group_status
    <$> stored_group_by_id
          (store (run Scenarios.env_ok
                      (SlashCommands.allowgroup Scenarios.env_ok
                         (saying ctx (command_text "allowgroup" 1))) w).1) 1
  = Some ALLOWED.
Proof.
  intros ctx w.
  by destruct (group_commands_act_on_their_group Scenarios.env_ok w ctx
                 (Scenarios.team_row PENDING)
                 (fun n => eq_refl) (fun n => eq_refl) eq_refl eq_refl eq_refl)
    as (H & _).
Defined.

Ltac each_command :=
  repeat (apply Forall_cons; split); [ cbv zeta .. | by constructor ].

Section SlashRefusals.

Variable env : Env.
Variable ctx : Context.
Variable w : World.
Variable text : string.
Hypothesis Hapi : forall n, api_fault env n = false.
Hypothesis Hp : chat_is ctx ChatPrivate = true.
Hypothesis Hop : from_operator env ctx.
Hypothesis Htext : ctx_message_text ctx = Some text.


Variable arg : string.
Hypothesis Harg : nonempty (split_on " " text !! 1%nat) = Some arg.


Variable id : Z.
Hypothesis Hid : parseInt arg = Some id.
Hypothesis Hdb : db_fault env (opno w) = false.



End SlashRefusals.



(** X29. No slash command of admin.ts does anything for a requester who is not
    the operator in a private chat: whatever the text and whatever fails,
    the store and the pending dialogue are as before, and the only thing
    sent, if anything, is the unauthorized reply. *)
Theorem slash_commands_are_for_the_operator (env : Env) (w : World)
    (ctx : Context) :
  ~ (chat_is ctx ChatPrivate = true /\ from_operator env ctx) ->
  Forall (fun command =>
            let w' := (run env (command env ctx) w).1 in
            store w' = store w
            /\ adminPendingInputs w' = adminPendingInputs w
            /\ (since w w' = []
                \/ since w w'
                   = [Sent (Reply "⛔ Unauthorized. This command is only for the super admin." None)]))
         (user_commands ++ group_commands).
Proof.
  intros Hno. unfold user_commands, group_commands. cbn [app].
  each_command.
  all: by apply adminOnly_blocks.
Qed.

Lemma slash_commands_are_for_the_operator_witness :
  let ctx :=
    mkContext (Some Scenarios.sara) (Some (mkChat 42 ChatPrivate None)) None
              (Some "/removeuser 1") in
  Forall (fun command =>
            let w' := (run Scenarios.env_ok (command Scenarios.env_ok ctx)
                           Scenarios.pending_world).1 in
            store w' = store Scenarios.pending_world
            /\ adminPendingInputs w' = adminPendingInputs Scenarios.pending_world
            /\ (since Scenarios.pending_world w' = []
                \/ since Scenarios.pending_world w'
                   = [Sent (Reply "⛔ Unauthorized. This command is only for the super admin." None)]))
         (user_commands ++ group_commands).
Proof.
  intros ctx.
  apply (slash_commands_are_for_the_operator Scenarios.env_ok
           Scenarios.pending_world ctx).
  intros [_ Hop]. unfold from_operator in Hop. by vm_compute in Hop.
Defined.

(** ** A group allowed by command *)
Section GroupByCommand.

Variable env : Env.
Variable ctx admin_ctx : Context.
Variable chat : Chat.
Variable sender : Sender.
Variable g : ManagedGroup.
Variable u : ManagedUser.
Variable w : World.

Hypothesis Hdb : forall n, db_fault env n = false.
Hypothesis Hapi : forall n, api_fault env n = false.
Hypothesis Hgroup : group_like ctx = true.
Hypothesis Hchat : ctx_chat ctx = Some chat.
Hypothesis Hfrom : ctx_from ctx = Some sender.
Hypothesis Hp : chat_is admin_ctx ChatPrivate = true.
Hypothesis Hop : from_operator env admin_ctx.
Hypothesis Hg : stored_group (store w) (pretty (chat_id chat)) = Some g.
Hypothesis Hgid : stored_group_by_id (store w) (group_id g) = Some g.
Hypothesis Hu : stored_user (store w) (sender_id sender) = Some u.
Hypothesis Hallowed : user_status u = ALLOWED.

Let gate : Prog unit := GroupGate.accessControl env ctx.

Lemma admitted_by_status (s : Store) (g' : ManagedGroup) :
  stored_group s (pretty (chat_id chat)) = Some g' ->
  stored_user s (sender_id sender) = Some u ->
  admitted env s ctx = bool_decide (group_status g' = ALLOWED).
Proof.
  intros Hg' Hu'.
  destruct (admitted_group env ctx s Hgroup) as (chat' & Hc & _ & _ & ->).
  rewrite Hchat in Hc. injection Hc as <-.
  rewrite Hg', Hfrom, Hu'. simpl. rewrite Hallowed.
  rewrite (bool_decide_eq_true_2 (Some ALLOWED = Some ALLOWED)) by done.
  rewrite andb_true_r.
  destruct (decide (group_status g' = ALLOWED)) as [E|E].
  - by rewrite !bool_decide_eq_true_2 by (by rewrite ?E).
  - rewrite !bool_decide_eq_false_2; [done|done|]. intros H. apply E. congruence.
Qed.

Lemma allowgroup_run :
  let w1 := (run env (SlashCommands.allowgroup env
                        (saying admin_ctx
                           (command_text "allowgroup" (group_id g)))) w).1 in
  groups (store w1)
  = map (set_group_status_of (group_id g) ALLOWED (clock env (S (opno w))))
        (groups (store w))
  /\ users (store w1) = users (store w).
Proof.
  unfold SlashCommands.allowgroup, stored_group_by_id in *.
  rewrite adminOnly_passes by done.
  unfold SlashCommands.allowgroup_handler. command_args_eval.
  hsimpl. rewrite !Hdb. hsimpl. rewrite Hgid. hsimpl.
  rewrite !Hdb. hsimpl. by rewrite !Hapi.
Qed.

Lemma rejectgroup_run :
  let w1 := (run env (SlashCommands.rejectgroup env
                        (saying admin_ctx
                           (command_text "rejectgroup" (group_id g)))) w).1 in
  groups (store w1)
  = map (set_group_status_of (group_id g) REJECTED (clock env (S (opno w))))
        (groups (store w))
  /\ users (store w1) = users (store w).
Proof.
  unfold SlashCommands.rejectgroup, stored_group_by_id in *.
  rewrite adminOnly_passes by done.
  unfold SlashCommands.rejectgroup_handler. command_args_eval.
  hsimpl. rewrite !Hdb. hsimpl. rewrite Hgid. hsimpl.
  rewrite !Hdb. hsimpl. by rewrite !Hapi.
Qed.

Lemma stored_group_after_command (status : Status) (now : Z) (gs : list ManagedGroup) :
  gs = map (set_group_status_of (group_id g) status now) (groups (store w)) ->
  head (filter (group_by_telegramId (pretty (chat_id chat))) gs)
  = Some (set_group_status status now g).
Proof.
  intros ->. rewrite group_lookup_by_telegramId_after.
  unfold stored_group in Hg. rewrite Hg. simpl.
  unfold set_group_status_of. by rewrite decide_True by done.
Qed.

Lemma allowed_by_command_forwarded :
  let w1 := (run env (SlashCommands.allowgroup env
                        (saying admin_ctx
                           (command_text "allowgroup" (group_id g)))) w).1 in
  since w1 (run env gate w1).1 = [Forwarded].
Proof.
  destruct allowgroup_run as (Hgs & Hus). intros w1. fold w1 in Hgs, Hus.
  apply (gate_admits env ctx w1); [|apply Hdb|apply Hdb].
  rewrite (admitted_by_status (store w1)
             (set_group_status ALLOWED (clock env (S (opno w))) g)).
  - done.
  - unfold stored_group. by apply (stored_group_after_command ALLOWED).
  - unfold stored_user. by rewrite Hus.
Qed.

Lemma rejected_by_command_dropped :
  let w1 := (run env (SlashCommands.rejectgroup env
                        (saying admin_ctx
                           (command_text "rejectgroup" (group_id g)))) w).1 in
  Forwarded ∉ since w1 (run env gate w1).1.
Proof.
  destruct rejectgroup_run as (Hgs & Hus). intros w1. fold w1 in Hgs, Hus.
  intros Hin. apply (gate_forwards_admitted env ctx w1) in Hin as [Hadm _].
  rewrite (admitted_by_status (store w1)
             (set_group_status REJECTED (clock env (S (opno w))) g))
    in Hadm.
  - done.
  - unfold stored_group. by apply (stored_group_after_command REJECTED).
  - unfold stored_user. by rewrite Hus.
Qed.

Lemma before_the_command :
  since w (run env gate w).1
  = if bool_decide (group_status g = ALLOWED) then [Forwarded] else [].
Proof.
  pose proof (admitted_by_status (store w) g Hg Hu) as Hadm.
  case_bool_decide as Hst.
  - by apply (gate_admits env ctx w).
  - subst gate. unfold GroupGate.accessControl.
    destruct (group_like_chat ctx Hgroup) as (chat' & Hc & Hpr & Hid).
    rewrite Hchat in Hc. injection Hc as <-.
    rewrite Hpr, Hgroup, Hid, nonempty_pretty.
    unfold stored_group in Hg.
    gsimpl. rewrite Hdb, Hg. gsimpl.
    rewrite decide_True by done. by apply since_refl_trace.
Qed.

End GroupByCommand.

(** X30. The gate with discovery (unnamed/part_007) and the group commands of
    admin.ts, one after the other. When the store and Telegram answer,
    for a stored group and a sender stored as allowed: the event passes
    the gate exactly when the group is stored as allowed; once the
    operator has sent /allowgroup with the internal id of the group, the
    next event of the sender in that group is forwarded; once the
    operator has sent /rejectgroup with it, the next event is not. *)
Theorem group_command_then_the_gate (env : Env) (w : World)
    (ctx admin_ctx : Context) (chat : Chat) (sender : Sender)
    (g : ManagedGroup) (u : ManagedUser) :
  (forall n, db_fault env n = false) ->
  (forall n, api_fault env n = false) ->
  group_like ctx = true ->
  ctx_chat ctx = Some chat ->
  ctx_from ctx = Some sender ->
  chat_is admin_ctx ChatPrivate = true ->
  from_operator env admin_ctx ->
  stored_group (store w) (pretty (chat_id chat)) = Some g ->
  stored_group_by_id (store w) (group_id g) = Some g ->
  stored_user (store w) (sender_id sender) = Some u ->
  user_status u = ALLOWED ->
  let gate := GroupGate.accessControl env ctx in
  let after_command (command : string)
                    (handler : Env -> Context -> Prog unit) : World :=
    (run env (handler env (saying admin_ctx
                             (command_text command (group_id g)))) w).1 in
  since w (run env gate w).1
  = (if bool_decide (group_status g = ALLOWED) then [Forwarded] else [])
  /\ (let w1 := after_command "allowgroup" SlashCommands.allowgroup in
      since w1 (run env gate w1).1 = [Forwarded])
  /\ (let w1 := after_command "rejectgroup" SlashCommands.rejectgroup in
      Forwarded ∉ since w1 (run env gate w1).1).
Proof.
  intros Hdb Hapi Hgroup Hchat Hfrom Hp Hop Hg Hgid Hu Hallowed gate
    after_command.
  split; [|split].
  - by apply (before_the_command env ctx chat sender g u w).
  - by apply (allowed_by_command_forwarded env ctx admin_ctx chat sender g u w).
  - by apply (rejected_by_command_dropped env ctx admin_ctx chat sender g u w).
Qed.

Lemma group_command_then_the_gate_witness :
  let admin_ctx :=
    mkContext (Some (mkSender 1000 "Admin" None))
              (Some (mkChat 1000 ChatPrivate None)) None None in
  let w := Scenarios.world_of [Scenarios.sara_row ALLOWED]
                              [Scenarios.team_row PENDING] in
  let gate := GroupGate.accessControl Scenarios.env_ok Scenarios.group_event in
  let w1 := (run Scenarios.env_ok
                 (SlashCommands.allowgroup Scenarios.env_ok
                    (saying admin_ctx (command_text "allowgroup" 1))) w).1 in
  since w (run Scenarios.env_ok gate w).1 = []
  /\ since w1 (run Scenarios.env_ok gate w1).1 = [Forwarded].
Proof.
  intros admin_ctx w.
  destruct (group_command_then_the_gate Scenarios.env_ok w
              Scenarios.group_event admin_ctx Scenarios.team_chat
              Scenarios.sara (Scenarios.team_row PENDING)
              (Scenarios.sara_row ALLOWED)
              (fun n => eq_refl) (fun n => eq_refl) eq_refl eq_refl eq_refl
              eq_refl eq_refl eq_refl eq_refl eq_refl eq_refl)
    as (H0 & H1 & _).
  split; [exact H0|exact H1].
Defined.

(** ** The panel when the row is missing or the store fails *)
Section PanelFailures.

Variable env : Env.
Variable ctx : Context.
Variable w : World.
Hypothesis Hapi : forall n, api_fault env n = false.

Lemma panel_handler_returns :
  (run env (Admin.admin_callback env ctx) w).2 = inr tt.
Proof.
  unfold Admin.admin_callback, Admin.handleApproveUser,
    Admin.handleRejectUser, Admin.handleRemoveUser.
  destruct (nonempty (ctx_callback_data ctx)) as [data|]; [|done].
  destruct (bool_decide _); cbn [negb]; [|by hsimpl; rewrite Hapi].
  hsimpl. rewrite Hapi. hsimpl.
  repeat (match goal with
          | |- context [String.eqb ?a ?b] => destruct (String.eqb a b)
          | |- context [nonempty ?o] => destruct (nonempty o)
          | |- context [parseInt ?o] => destruct (parseInt o)
          | |- context [db_fault ?e ?n] => destruct (db_fault e n)
          | |- context [head ?l] => destruct (head l)
          end; usimpl; rewrite ?Hapi; usimpl).
  all: done.
Qed.

Hypothesis Hop : from_operator env ctx.
Variable id : Z.

Let presses : list World :=
  [(on_press env ctx (Admin.approve_button id) w).1;
   (on_press env ctx (Admin.reject_button id) w).1;
   (on_press env ctx (Admin.remove_button id) w).1].

Lemma press_without_a_row :
  db_fault env (S (opno w)) = false ->
  stored_user_by_id (store w) id = None ->
  Forall (fun w' =>
            store w' = store w
            /\ since w w'
               = [acknowledgement; Sent (Reply Admin.user_not_found None)])
         presses.
Proof.
  intros Hdb Hu. subst presses. unfold on_press, stored_user_by_id in *.
  rewrite press_approve, press_reject, press_remove by done.
  unfold Admin.handleApproveUser, Admin.handleRejectUser,
    Admin.handleRemoveUser.
  each_command.
  all: hsimpl; rewrite Hapi; hsimpl; rewrite Hdb; hsimpl; rewrite Hu; hsimpl;
       rewrite Hapi; hsimpl.
  all: split; [done|]; apply since_app; hsimpl; by rewrite <- !app_assoc.
Qed.

Lemma press_with_the_store_down :
  db_fault env (S (opno w)) = true ->
  Forall (fun w' =>
            store w' = store w
            /\ since w w'
               = acknowledgement :: panel_failure_report StoreUnavailable)
         presses.
Proof.
  intros Hdb. subst presses. unfold on_press.
  rewrite press_approve, press_reject, press_remove by done.
  unfold Admin.handleApproveUser, Admin.handleRejectUser,
    Admin.handleRemoveUser.
  each_command.
  all: hsimpl; rewrite Hapi; hsimpl; rewrite Hdb; hsimpl;
       rewrite Hapi; hsimpl.
  all: split; [done|]; apply since_app; hsimpl; by rewrite <- !app_assoc.
Qed.

End PanelFailures.

(** X20. The callback handler of the admin panel (admin.ts) keeps failures
    inside. When Telegram answers, the handler returns without an
    exception for every callback, whoever sent it and whatever the store
    does. For a press of the operator on an action button (Approve,
    Reject, Remove) of an id: if no row has the id, the store is left as
    it was and the operator gets the user-not-found reply; if the lookup
    fails, the store is left as it was, the error is written to the
    console and the operator gets the error reply. *)
Theorem panel_actions_fail_safe (env : Env) (w : World) (ctx : Context)
    (id : Z) :
  (forall n, api_fault env n = false) ->
  from_operator env ctx ->
  let presses :=
    [(on_press env ctx (Admin.approve_button id) w).1;
     (on_press env ctx (Admin.reject_button id) w).1;
     (on_press env ctx (Admin.remove_button id) w).1] in
  (forall any : Context, (run env (Admin.admin_callback env any) w).2 = inr tt)
  /\ (db_fault env (S (opno w)) = false ->
      stored_user_by_id (store w) id = None ->
      Forall (fun w' =>
                store w' = store w
                /\ since w w'
                   = [acknowledgement; Sent (Reply Admin.user_not_found None)])
             presses)
  /\ (db_fault env (S (opno w)) = true ->
      Forall (fun w' =>
                store w' = store w
                /\ since w w'
                   = acknowledgement :: panel_failure_report StoreUnavailable)
             presses).
Proof.
  intros Hapi Hop presses. split; [|split].
  - intros any. by apply panel_handler_returns.
  - by apply press_without_a_row.
  - by apply press_with_the_store_down.
Qed.

Lemma panel_actions_fail_safe_witness :
  let click :=
    mkContext (Some (mkSender 1000 "Admin" None))
              (Some (mkChat 1000 ChatPrivate None)) None None in
  Forall (fun w' =>
            store w' = store Scenarios.pending_world
            /\ since Scenarios.pending_world w'
               = acknowledgement :: panel_failure_report StoreUnavailable)
         [(on_press Scenarios.env_down click (Admin.approve_button 1)
                    Scenarios.pending_world).1;
          (on_press Scenarios.env_down click (Admin.reject_button 1)
                    Scenarios.pending_world).1;
          (on_press Scenarios.env_down click (Admin.remove_button 1)
                    Scenarios.pending_world).1].
Proof.
  intros click.
  destruct (panel_actions_fail_safe Scenarios.env_down Scenarios.pending_world
              click 1 (fun n => eq_refl) eq_refl) as (_ & _ & H).
  by apply H.
Defined.
